(** * job-tracker: the search / score / deduplicate / persist pipeline

    A shallow embedding of [update_and_publish.py] and the properties of
    its scorer, dedup key, merge loop, store and publisher.

    Conventions of the embedding.
    - A Python [str] is a [string]; its characters are read as the code
      points U+0000..U+00FF, and [lower], [strip] and [in] behave on that
      range as CPython's [str.lower], [str.strip] and substring test do.
    - A Python [int] is a [Z].
    - A JSON object (a Python [dict]) is an insertion-ordered association
      list with [dict_get] / [dict_set]; the order is kept because
      [json.dumps] prints it.
    - The set [existing_keys] is a [gset string].
    - Code that can raise runs in a small state-and-exception monad over
      the files the script touches. *)

From Stdlib Require Import ZArith String Ascii List Bool Lia DecimalString.
From stdpp Require Import gmap strings list.

Local Open Scope Z_scope.
Local Open Scope string_scope.

(** ** Python strings *)

Module PyStr.

Definition code (c : ascii) : N := N_of_ascii c.

(** [str.isspace] on one character below U+0100: TAB..CR, FS..US, space,
    NEL and the no-break space. *)
Definition isspace (c : ascii) : bool :=
  let n := code c in
  ((9 <=? n) && (n <=? 13) || (28 <=? n) && (n <=? 32)
   || (n =? 133) || (n =? 160))%N.

(** [str.lower] on one character below U+0100: A..Z and the Latin-1
    capitals U+00C0..U+00DE (without the multiplication sign U+00D7) move
    up by 32. *)
Definition lower_char (c : ascii) : ascii :=
  let n := code c in
  if ((65 <=? n) && (n <=? 90)
      || (192 <=? n) && (n <=? 222) && negb (n =? 215))%N
  then ascii_of_N (n + 32) else c.

Fixpoint lower (s : string) : string :=
  match s with
  | EmptyString => EmptyString
  | String c s' => String (lower_char c) (lower s')
  end.

Fixpoint lstrip (s : string) : string :=
  match s with
  | EmptyString => EmptyString
  | String c s' => if isspace c then lstrip s' else s
  end.

Fixpoint rstrip (s : string) : string :=
  match s with
  | EmptyString => EmptyString
  | String c s' =>
      match rstrip s' with
      | EmptyString => if isspace c then EmptyString else String c EmptyString
      | r => String c r
      end
  end.

(** [s.strip()]: whitespace removed at both ends. *)
Definition strip (s : string) : string := rstrip (lstrip s).

(** [needle in hay] for two strings. *)
Fixpoint contains (needle hay : string) : bool :=
  if String.prefix needle hay then true
  else match hay with
       | EmptyString => false
       | String _ hay' => contains needle hay'
       end.

(** Every character of [s] is whitespace. *)
Fixpoint all_space (s : string) : bool :=
  match s with
  | EmptyString => true
  | String c s' => isspace c && all_space s'
  end.

End PyStr.

Import PyStr.

(** ** Configuration *)

Definition SEARCH_QUERIES : list string :=
  [ "CFO fintech remote";
    "VP Finance fintech remote";
    "VP Finance technology remote";
    "Senior Director Financial Systems remote";
    "Head of Finance fintech remote";
    "Finance Transformation Director remote";
    "Director Finance Technology remote";
    "VP Financial Systems remote";
    "Head Financial Planning Analysis remote" ].

Definition TARGET_COMPANIES : list string :=
  [ "Stripe"; "PayPal"; "Block"; "Brex"; "Ramp"; "Chime"; "Plaid";
    "Marqeta"; "Adyen"; "Wise"; "Snowflake"; "Databricks"; "ServiceNow";
    "Salesforce"; "Workday"; "UiPath"; "Palantir"; "Robinhood"; "SoFi";
    "Coinbase"; "Intuit"; "Instacart"; "Affirm" ].

Definition TITLE_KEYWORDS : list (string * Z) :=
  [ ("vp", 15); ("vice president", 15); ("head", 14); ("senior director", 13);
    ("director", 10); ("cfo", 18); ("cpo", 15); ("chief", 16);
    ("finance", 12); ("financial", 12); ("fintech", 10); ("technology", 8);
    ("systems", 8); ("transformation", 10); ("strategy", 8); ("erp", 10);
    ("treasury", 8); ("accounting", 6); ("planning", 7); ("analytics", 7);
    ("product", 6); ("operations", 6); ("risk", 5); ("controls", 5);
    ("automation", 8); ("data", 5); ("ai", 8); ("digital", 7) ].

(** ** Scorer *)

(** The loop [for keyword, points in TITLE_KEYWORDS.items()]. *)
Definition keyword_loop (title_lower : string) (score : Z) : Z :=
  fold_left
    (fun score kp =>
       let '(keyword, points) := kp in
       if contains keyword title_lower then score + points else score)
    TITLE_KEYWORDS score.

(** The loop [for tc in TARGET_COMPANIES] with its [break]. *)
Fixpoint company_loop (tcs : list string) (company_lower : string)
    (score : Z) : Z :=
  match tcs with
  | [] => score
  | tc :: tcs' =>
      if contains (lower tc) company_lower then score + 8
      else company_loop tcs' company_lower score
  end.

Definition calculate_fit_score (title company location : string) : Z :=
  let score := 40 in
  let title_lower := lower title in
  let company_lower := lower company in
  let loc_lower := lower location in
  let score := keyword_loop title_lower score in
  let score := company_loop TARGET_COMPANIES company_lower score in
  let score :=
    if contains "remote" loc_lower || contains "remote" title_lower
    then score + 5 else score in
  Z.min score 100.

(** The scorer as the specification words it: three independent terms. *)
Definition keyword_points (title : string) : Z :=
  foldr Z.add 0
    (map snd (filter (fun kp => contains (fst kp) (lower title) = true)
                TITLE_KEYWORDS)).

Definition company_bonus (company : string) : Z :=
  if existsb (fun tc => contains (lower tc) (lower company)) TARGET_COMPANIES
  then 8 else 0.

Definition remote_bonus (title location : string) : Z :=
  if contains "remote" (lower location) || contains "remote" (lower title)
  then 5 else 0.

Definition spec_fit_score (title company location : string) : Z :=
  Z.min 100 (40 + keyword_points title + company_bonus company
             + remote_bonus title location).

(** ** Dedup key *)

Definition deduplicate_key (title company : string) : string :=
  strip (lower title) ++ "|" ++ strip (lower company).

(** The key as the specification words it: trim first, then lowercase. *)
Definition spec_dedup_key (title company : string) : string :=
  lower (strip title) ++ "|" ++ lower (strip company).

(** ** JSON values and objects *)

(** The values a stored record can hold. Floats and nested containers do
    not occur in the records this script writes and are left out. *)
Inductive value : Type :=
| VNull
| VBool (b : bool)
| VInt (n : Z)
| VStr (s : string).

#[global] Instance value_eq_dec : EqDecision value.
Proof. solve_decision. Defined.

(** A record of the collection: a Python [dict] with string keys, in
    insertion order. *)
Abbreviation job := (list (string * value)).

(** [d.get(k)] *)
Fixpoint dict_get (d : job) (k : string) : option value :=
  match d with
  | [] => None
  | (k', v) :: d' => if String.eqb k' k then Some v else dict_get d' k
  end.

(** [d.get(k, default)] *)
Definition dict_get_default (d : job) (k : string) (default : value) : value :=
  match dict_get d k with
  | Some v => v
  | None => default
  end.

(** [d[k] = v]: the value is replaced in place when the key is there, and
    the pair is appended otherwise. *)
Fixpoint dict_set (d : job) (k : string) (v : value) : job :=
  match d with
  | [] => [(k, v)]
  | (k', v') :: d' =>
      if String.eqb k' k then (k', v) :: d' else (k', v') :: dict_set d' k v
  end.

(** The numeric reading of a value: [bool] is a subclass of [int]. *)
Definition number_of (v : value) : option Z :=
  match v with
  | VInt n => Some n
  | VBool b => Some (Z.b2z b)
  | _ => None
  end.

(** [a == b] on values. *)
Definition py_eq (a b : value) : bool :=
  match a, b with
  | VNull, VNull => true
  | VStr s, VStr t => String.eqb s t
  | _, _ =>
      match number_of a, number_of b with
      | Some m, Some n => (m =? n)%Z
      | _, _ => false
      end
  end.

(** One item of a feed answer, as [search_indeed_rss] builds it. *)
Record feed_item : Type := {
  r_title : string;
  r_company : string;
  r_link : string;
  r_pubDate : string;
  r_source : string
}.

(** ** JSON output: [json.dumps(jobs, indent=2)] *)

Module Json.

Definition quote : string := String (ascii_of_N 34) "".
Definition backslash : ascii := ascii_of_N 92.
Definition nl : string := String (ascii_of_N 10) "".

Definition hex_digit (n : N) : ascii :=
  ascii_of_N (if (n <? 10)%N then 48 + n else 87 + n).

(** One character of a string literal, with [ensure_ascii] on. *)
Definition escape_char (c : ascii) : string :=
  let n := code c in
  if (n =? 34)%N then String backslash quote
  else if (n =? 92)%N then String backslash (String backslash "")
  else if (n =? 10)%N then String backslash "n"
  else if (n =? 13)%N then String backslash "r"
  else if (n =? 9)%N then String backslash "t"
  else if (n =? 8)%N then String backslash "b"
  else if (n =? 12)%N then String backslash "f"
  else if ((32 <=? n) && (n <=? 126))%N then String c ""
  else String backslash
         (String "u" (String "0" (String "0"
           (String (hex_digit (n / 16)) (String (hex_digit (n mod 16)) ""))))).

Fixpoint escape (s : string) : string :=
  match s with
  | EmptyString => EmptyString
  | String c s' => escape_char c ++ escape s'
  end.

Definition dump_string (s : string) : string := quote ++ escape s ++ quote.

Definition dump_int (n : Z) : string := NilZero.string_of_int (Z.to_int n).

Definition dump_value (v : value) : string :=
  match v with
  | VNull => "null"
  | VBool true => "true"
  | VBool false => "false"
  | VInt n => dump_int n
  | VStr s => dump_string s
  end.

Fixpoint spaces (n : nat) : string :=
  match n with
  | O => ""
  | S n' => " " ++ spaces n'
  end.

Definition join (sep : string) (l : list string) : string :=
  match l with
  | [] => ""
  | x :: l' => fold_left (fun acc y => acc ++ sep ++ y) l' x
  end.

(** A container at nesting depth [level]: empty ones print closed, others
    one item per line, two spaces per level. *)
Definition block (opening closing : string) (level : nat)
    (items : list string) : string :=
  match items with
  | [] => opening ++ closing
  | _ =>
      opening ++ nl ++ spaces (2 * (level + 1))
      ++ join ("," ++ nl ++ spaces (2 * (level + 1))) items
      ++ nl ++ spaces (2 * level) ++ closing
  end.

Definition dump_object (level : nat) (j : job) : string :=
  block "{" "}" level
    (map (fun kv => dump_string (fst kv) ++ ": " ++ dump_value (snd kv)) j).

Definition dumps (jobs : list job) : string :=
  block "[" "]" 0 (map (dump_object 1) jobs).

End Json.

(** Two strings that differ only in letter case and in leading or trailing
    whitespace: each is a core wrapped in whitespace, and the two cores
    have the same lowercase form. *)
Definition same_modulo_case_ws (s s' : string) : Prop :=
  exists l m r l' m' r',
    s = l ++ m ++ r /\ s' = l' ++ m' ++ r' /\
    all_space l = true /\ all_space r = true /\
    all_space l' = true /\ all_space r' = true /\
    lower m = lower m'.

(** ** The files, the clock and the feed *)

(** A file is absent, present but not readable (its [open] raises),
    present with bytes that do not decode as text (its [read] raises), or
    holds a text. *)
Inductive file : Type :=
| Absent
| Unreadable
| Undecodable
| Text (s : string).

Inductive path : Type := DATA_PATH | DASHBOARD_PATH.

(** What a run can observe and change. [data_writable] and
    [dashboard_writable] say whether [open(path, "w")] succeeds, in which
    case the whole text is taken to be written (a write that breaks off
    behind the open, as on a full disk, is not part of this model);
    [today] is [datetime.now().strftime("%m/%d/%Y")]; [indeed] is the
    answer of the feed to each query (the empty list when the request or
    the parse fails, as [search_indeed_rss] catches every exception);
    [push_succeeds] says whether the git commands of [git_push] all
    succeed. The transcript written by [log], which swallows its own
    failures, is left out. *)
Record world : Type := {
  data_file : file;
  data_writable : bool;
  dashboard_file : file;
  dashboard_writable : bool;
  push_succeeds : bool;
  today : string;
  indeed : string -> list feed_item
}.

Definition file_at (p : path) (w : world) : file :=
  match p with
  | DATA_PATH => data_file w
  | DASHBOARD_PATH => dashboard_file w
  end.

Definition writable_at (p : path) (w : world) : bool :=
  match p with
  | DATA_PATH => data_writable w
  | DASHBOARD_PATH => dashboard_writable w
  end.

Definition put_file (p : path) (s : string) (w : world) : world :=
  match p with
  | DATA_PATH =>
      {| data_file := Text s; data_writable := data_writable w;
         dashboard_file := dashboard_file w;
         dashboard_writable := dashboard_writable w;
         push_succeeds := push_succeeds w;
         today := today w; indeed := indeed w |}
  | DASHBOARD_PATH =>
      {| data_file := data_file w; data_writable := data_writable w;
         dashboard_file := Text s;
         dashboard_writable := dashboard_writable w;
         push_succeeds := push_succeeds w;
         today := today w; indeed := indeed w |}
  end.

(** ** Exceptions and the monad of the script *)

Inductive exn : Type :=
| AttributeError
| TypeError
| OSError
| UnicodeDecodeError
| JSONDecodeError
| ReError.

Inductive outcome (A : Type) : Type :=
| Return (a : A) (w : world)
| Raise (e : exn) (w : world).

Arguments Return {A} a w.
Arguments Raise {A} e w.

Definition M (A : Type) : Type := world -> outcome A.

Definition ret {A : Type} (a : A) : M A := fun w => Return a w.

Definition raise {A : Type} (e : exn) : M A := fun w => Raise e w.

Definition bind {A B : Type} (m : M A) (k : A -> M B) : M B :=
  fun w =>
    match m w with
    | Return a w' => k a w'
    | Raise e w' => Raise e w'
    end.

(** [try: m  except Exception: h] *)
Definition try_except {A : Type} (m : M A) (h : exn -> M A) : M A :=
  fun w =>
    match m w with
    | Return a w' => Return a w'
    | Raise e w' => h e w'
    end.

Notation "'let*' x ':=' m 'in' k" := (bind m (fun x => k))
  (at level 10, x name, m at level 100, k at level 200).

(** A [for] loop whose body can raise, threading the loop's variables. *)
Fixpoint for_each {A S : Type} (xs : list A) (body : A -> S -> M S)
    (s : S) : M S :=
  match xs with
  | [] => ret s
  | x :: xs' => let* s' := body x s in for_each xs' body s'
  end.

(** [os.path.exists(p)] *)
Definition path_exists (p : path) : M bool :=
  fun w => Return (match file_at p w with Absent => false | _ => true end) w.

(** [with open(p, "r") as f: f.read()] *)
Definition read_text (p : path) : M string :=
  fun w =>
    match file_at p w with
    | Text s => Return s w
    | Undecodable => Raise UnicodeDecodeError w
    | _ => Raise OSError w
    end.

(** [with open(p, "w") as f: f.write(s)] *)
Definition write_text (p : path) (s : string) : M unit :=
  fun w =>
    if writable_at p w then Return tt (put_file p s w) else Raise OSError w.

Definition now_mdY : M string := fun w => Return (today w) w.

(** The feed client, seen from the caller: it never raises. *)
Definition search_indeed_rss (query : string) : M (list feed_item) :=
  fun w => Return (indeed w query) w.

(** ** The store and the merge *)

(** The loop variables of [search_all]. *)
Record merge_state : Type := {
  existing_keys : gset string;
  new_jobs : list job;
  next_id : Z
}.

(** [x.lower()] needs a [str]. *)
Definition as_str (v : value) : M string :=
  match v with
  | VStr s => ret s
  | _ => raise AttributeError
  end.

(** [deduplicate_key(j.get("title", ""), j.get("company", ""))] on a
    stored record, whose fields are whatever the file held. *)
Definition existing_key (j : job) : M string :=
  let* title := as_str (dict_get_default j "title" (VStr "")) in
  let* company := as_str (dict_get_default j "company" (VStr "")) in
  ret (deduplicate_key title company).

(** [max(ids, default=d)] on integers. *)
Definition py_max (ids : list Z) (default : Z) : Z :=
  match ids with
  | [] => default
  | x :: xs => fold_left Z.max xs x
  end.

(** One element of [[j.get("id", 0) for j in existing]] as [max] and
    [+ 1] need it: a number. A string or [None] among them makes one of
    the two raise [TypeError]. *)
Definition existing_id (j : job) : M Z :=
  match number_of (dict_get_default j "id" (VInt 0)) with
  | Some n => ret n
  | None => raise TypeError
  end.

Fixpoint map_m {A B : Type} (f : A -> M B) (xs : list A) : M (list B) :=
  match xs with
  | [] => ret []
  | x :: xs' => let* y := f x in let* ys := map_m f xs' in ret (y :: ys)
  end.

(** The record appended for an accepted candidate. *)
Definition new_job (id : Z) (r : feed_item) (score : Z)
    (query today : string) : job :=
  [ ("id", VInt id);
    ("company", VStr (r_company r));
    ("title", VStr (r_title r));
    ("location", VStr "Remote");
    ("salary", VStr "TBD");
    ("remote", VStr "Yes");
    ("link", VStr (r_link r));
    ("score", VInt score);
    ("reason", VStr ("Found via Indeed search: '" ++ query
                     ++ "'. Auto-scored based on title/company keywords."));
    ("discovered", VStr today);
    ("source", VStr "general");
    ("isNew", VBool true);
    ("status", VStr "not-applied");
    ("notes", VStr "") ].

(** The body of [for r in results]. *)
Definition result_step (query today : string) (st : merge_state)
    (r : feed_item) : merge_state :=
  let key := deduplicate_key (r_title r) (r_company r) in
  if decide (key ∈ existing_keys st) then st
  else
    let keys := {[key]} ∪ existing_keys st in
    let score := calculate_fit_score (r_title r) (r_company r) "" in
    if (score <? 70)%Z then
      {| existing_keys := keys; new_jobs := new_jobs st;
         next_id := next_id st |}
    else
      {| existing_keys := keys;
         new_jobs := new_jobs st ++ [new_job (next_id st) r score query today];
         next_id := next_id st + 1 |}.

(** The body of [for i, query in enumerate(SEARCH_QUERIES, 1)]. *)
Definition query_step (today : string) (query : string) (st : merge_state)
  : M merge_state :=
  let* results := search_indeed_rss query in
  ret (fold_left (result_step query today) results st).

(** [j["isNew"] = j.get("discovered", "") == today] *)
Definition mark_is_new (today : string) (j : job) : job :=
  dict_set j "isNew"
    (VBool (py_eq (dict_get_default j "discovered" (VStr "")) (VStr today))).

(** ** Regular-expression substitution, for the one pattern used *)

Module Re.

(** The pattern [const JOBS = \[.*?\];] under [re.DOTALL]: the opening
    text, as few characters as possible, the closing text. *)
Definition opening : string := "const JOBS = [".
Definition closing : string := "];".

(** A replacement template after parsing: literal text and references to
    the whole match. *)
Inductive part : Type :=
| Lit (s : string)
| Group0.

Definition is_digit (c : ascii) : bool :=
  let n := code c in ((48 <=? n) && (n <=? 57))%N.

Definition is_octal (c : ascii) : bool :=
  let n := code c in ((48 <=? n) && (n <=? 55))%N.

Definition is_ascii_letter (c : ascii) : bool :=
  let n := code c in
  ((65 <=? n) && (n <=? 90) || (97 <=? n) && (n <=? 122))%N.

Definition digit_value (c : ascii) : N := (code c - 48)%N.

(** The escapes the template parser knows: a b f n r t v and the
    backslash itself. *)
Definition known_escape (c : ascii) : option ascii :=
  let n := code c in
  if (n =? 97)%N then Some (ascii_of_N 7)
  else if (n =? 98)%N then Some (ascii_of_N 8)
  else if (n =? 102)%N then Some (ascii_of_N 12)
  else if (n =? 110)%N then Some (ascii_of_N 10)
  else if (n =? 114)%N then Some (ascii_of_N 13)
  else if (n =? 116)%N then Some (ascii_of_N 9)
  else if (n =? 118)%N then Some (ascii_of_N 11)
  else if (n =? 92)%N then Some (ascii_of_N 92)
  else None.

Definition lit1 (c : ascii) : part := Lit (String c "").

(** Where the template parser stands between two characters: in plain
    text; after a backslash; after [\g]; inside the name of [\g<...>]
    ([seen] once a digit was read); after [\0] with value [v] and room for
    [more] octal digits; after a backslash and one digit 1..9; after a
    backslash and two digits. *)
Inductive tstate : Type :=
| Plain
| Esc
| GOpen
| GName (seen : bool)
| Oct0 (v : N) (more : nat)
| D1 (d : ascii)
| D2 (d c : ascii).

(** One character of the template: the next state and the parts that are
    complete, or [None] when the parser raises. The pattern has no group,
    so the only group reference that stands is [\g<0>], the whole match;
    a backslash with digits is either an octal escape or an invalid group
    reference; an unknown escape of an ASCII letter is an error, any other
    unknown escape is kept with its backslash. *)
Definition step (st : tstate) (c : ascii) : option (tstate * list part) :=
  match st with
  | Plain =>
      if (code c =? 92)%N then Some (Esc, []) else Some (Plain, [lit1 c])
  | Esc =>
      if (code c =? 103)%N then Some (GOpen, [])
      else if (code c =? 48)%N then Some (Oct0 0 2, [])
      else if is_digit c then Some (D1 c, [])
      else match known_escape c with
           | Some e => Some (Plain, [lit1 e])
           | None =>
               if is_ascii_letter c then None
               else Some (Plain, [Lit (String (ascii_of_N 92) (String c ""))])
           end
  | GOpen => if (code c =? 60)%N then Some (GName false, []) else None
  | GName seen =>
      if (code c =? 62)%N
      then (if seen then Some (Plain, [Group0]) else None)
      else if (code c =? 48)%N then Some (GName true, [])
      else None
  | Oct0 v more =>
      match more, is_octal c with
      | S more', true => Some (Oct0 (8 * v + digit_value c) more', [])
      | _, _ =>
          if (code c =? 92)%N then Some (Esc, [lit1 (ascii_of_N v)])
          else Some (Plain, [lit1 (ascii_of_N v); lit1 c])
      end
  | D1 d => if is_digit c then Some (D2 d c, []) else None
  | D2 d c1 =>
      if is_octal d && is_octal c1 && is_octal c && (digit_value d <=? 3)%N
      then Some (Plain,
                 [lit1 (ascii_of_N (64 * digit_value d + 8 * digit_value c1
                                    + digit_value c))])
      else None
  end.

(** The end of the template. *)
Definition finish (st : tstate) : option (list part) :=
  match st with
  | Plain => Some []
  | Oct0 v _ => Some [lit1 (ascii_of_N v)]
  | _ => None
  end.

Fixpoint parse_from (st : tstate) (t : string) : option (list part) :=
  match t with
  | EmptyString => finish st
  | String c t' =>
      match step st c with
      | None => None
      | Some (st', done) =>
          match parse_from st' t' with
          | None => None
          | Some rest => Some (done ++ rest)%list
          end
      end
  end.

(** The template parser; [None] is [re.error]. *)
Definition parse_template (t : string) : option (list part) :=
  parse_from Plain t.

(** The text a parsed template stands for at one match. *)
Fixpoint expand (ps : list part) (matched : string) : string :=
  match ps with
  | [] => ""
  | Lit s :: ps' => s ++ expand ps' matched
  | Group0 :: ps' => matched ++ expand ps' matched
  end.

Fixpoint skip (n : nat) (s : string) : string :=
  match n, s with
  | S n', String _ s' => skip n' s'
  | _, _ => s
  end.

(** The text before the first occurrence of [needle] and the text after
    it. *)
Fixpoint split_at (needle hay : string) : option (string * string) :=
  if String.prefix needle hay
  then Some ("", skip (String.length needle) hay)
  else match hay with
       | EmptyString => None
       | String c hay' =>
           match split_at needle hay' with
           | Some (before, after) => Some (String c before, after)
           | None => None
           end
       end.

(** The leftmost match: the first opening text and the first closing text
    after it. With no closing text after the first opening there is none
    after a later one either. *)
Definition first_match (s : string) : option (string * string * string) :=
  match split_at opening s with
  | None => None
  | Some (before, rest) =>
      match split_at closing rest with
      | None => None
      | Some (inner, after) => Some (before, opening ++ inner ++ closing, after)
      end
  end.

(** All non-overlapping matches replaced, left to right. A match is at
    least sixteen characters long, so the length of the text bounds the
    number of rounds. *)
Fixpoint sub_loop (fuel : nat) (ps : list part) (s : string) : string :=
  match fuel with
  | O => s
  | S fuel' =>
      match first_match s with
      | None => s
      | Some (before, matched, after) =>
          before ++ expand ps matched ++ sub_loop fuel' ps after
      end
  end.

(** [re.sub(pattern, repl, s, flags=re.DOTALL)]: the template is compiled
    before the search starts, so a bad escape in [repl] raises whether or
    not the pattern occurs in [s]. *)
Definition sub (repl s : string) : M string :=
  match parse_template repl with
  | None => raise ReError
  | Some ps => ret (sub_loop (String.length s) ps s)
  end.

(** The text has a match of the pattern: the opening text, anything, the
    closing text. *)
Definition has_placeholder (s : string) : Prop :=
  exists a b c, s = a ++ opening ++ b ++ closing ++ c.

End Re.

(** ** The functions of the script *)

Section Script.

(** [json.load] on the text of the data file: [None] when it raises. Files
    that parse are taken to hold an array of flat objects, as the script
    writes them. *)
Variable json_load : string -> option (list job).

Definition load_existing_data : M (list job) :=
  let* present := path_exists DATA_PATH in
  if present then
    try_except
      (let* text := read_text DATA_PATH in
       match json_load text with
       | Some jobs => ret jobs
       | None => raise JSONDecodeError
       end)
      (fun _ => ret [])
  else ret [].

Definition save_data (jobs : list job) : M unit :=
  write_text DATA_PATH (Json.dumps jobs).

Definition search_all : M (list job * nat) :=
  let* existing := load_existing_data in
  let* existing_keys :=
    for_each existing
      (fun j keys => let* key := existing_key j in ret ({[key]} ∪ keys)) ∅ in
  let* today := now_mdY in
  let* ids := map_m existing_id existing in
  let next_id := py_max ids 100 + 1 in
  let* st := for_each SEARCH_QUERIES (query_step today)
          {| existing_keys := existing_keys; new_jobs := [];
             next_id := next_id |} in
  let existing := map (mark_is_new today) existing in
  let all_jobs := (existing ++ new_jobs st)%list in
  let* _ := save_data all_jobs in
  ret (all_jobs, length (new_jobs st)).

Definition rebuild_dashboard (jobs : list job) : M bool :=
  let* present := path_exists DASHBOARD_PATH in
  if negb present then ret false
  else
    let* html := read_text DASHBOARD_PATH in
    let jobs_json := Json.dumps jobs in
    let replacement := "const JOBS = " ++ jobs_json ++ ";" in
    let* new_html := Re.sub replacement html in
    if String.eqb new_html html then ret false
    else
      let* _ := write_text DASHBOARD_PATH new_html in
      ret true.

(** [git_push] works on the repository only and catches every exception:
    it returns whether the push went through, and never raises. *)
Definition git_push : M bool := fun w => Return (push_succeeds w) w.

Definition main : M unit :=
  let* r := search_all in
  let* _ := rebuild_dashboard (fst r) in
  let* _ := git_push in
  ret tt.

End Script.

(** ** Reading the run back: what the loops of [search_all] compute *)

Definition is_str (v : value) : bool :=
  match v with
  | VStr _ => true
  | _ => false
  end.

Definition text_of (v : value) : string :=
  match v with
  | VStr s => s
  | _ => ""
  end.

(** The stored record has strings (or nothing) for title and company, so
    building its key does not raise. *)
Definition key_typed (j : job) : bool :=
  is_str (dict_get_default j "title" (VStr ""))
  && is_str (dict_get_default j "company" (VStr "")).

(** The stored record has a number (or nothing) for id. *)
Definition id_typed (j : job) : bool :=
  match number_of (dict_get_default j "id" (VInt 0)) with
  | Some _ => true
  | None => false
  end.

Definition job_key (j : job) : string :=
  deduplicate_key (text_of (dict_get_default j "title" (VStr "")))
                  (text_of (dict_get_default j "company" (VStr ""))).

Definition job_id (j : job) : Z :=
  match number_of (dict_get_default j "id" (VInt 0)) with
  | Some n => n
  | None => 0
  end.

(** What [load_existing_data] yields in a world. *)
Definition loaded (json_load : string -> option (list job)) (w : world)
  : list job :=
  match data_file w with
  | Text s => match json_load s with Some jobs => jobs | None => [] end
  | _ => []
  end.

(** The candidates of a run in the order the two loops visit them, each
    with the query that found it. *)
Definition candidates_of (queries : list string)
    (feed : string -> list feed_item) : list (string * feed_item) :=
  flat_map (fun q => map (pair q) (feed q)) queries.

Definition candidates (feed : string -> list feed_item)
  : list (string * feed_item) :=
  candidates_of SEARCH_QUERIES feed.

Definition run_candidates (today : string)
    (cands : list (string * feed_item)) (st : merge_state) : merge_state :=
  fold_left (fun st qr => result_step (fst qr) today st (snd qr)) cands st.

(** The loop variables when the first query starts. *)
Definition initial_state (existing : list job) : merge_state :=
  {| existing_keys := list_to_set (map job_key existing);
     new_jobs := [];
     next_id := py_max (map job_id existing) 100 + 1 |}.

(** The loop variables when the last query is done. *)
Definition merged (today : string) (feed : string -> list feed_item)
    (existing : list job) : merge_state :=
  run_candidates today (candidates feed) (initial_state existing).

(** The collection a run saves. *)
Definition all_jobs_of (today : string) (feed : string -> list feed_item)
    (existing : list job) : list job :=
  (map (mark_is_new today) existing ++ new_jobs (merged today feed existing))%list.

(** The score a record carries is at least the acceptance threshold. *)
Definition score_accepted (j : job) : Prop :=
  exists s, dict_get j "score" = Some (VInt s) /\ 70 <= s.

(** The score [search_all] computes for a candidate: no location is passed. *)
Definition candidate_score (r : feed_item) : Z :=
  calculate_fit_score (r_title r) (r_company r) "".

(** The record was built by [search_all] on the day [today] for a candidate
    that passed the threshold. *)
Definition accepted_on (today : string) (j : job) : Prop :=
  exists id r query,
    j = new_job id r (candidate_score r) query today /\
    70 <= candidate_score r.

(** The accepted records are appended behind those already there; they
    take the ids [next_id], [next_id + 1], ... in order, each was built
    from a candidate at or above the threshold, and each has its key in
    the key set. *)
Definition grown_from (today : string) (st st' : merge_state) : Prop :=
  exists added,
    new_jobs st' = (new_jobs st ++ added)%list /\
    next_id st' = next_id st + Z.of_nat (length added) /\
    (forall (i : nat) j, added !! i = Some j ->
       dict_get j "id" = Some (VInt (next_id st + Z.of_nat i))) /\
    Forall (accepted_on today) added /\
    Forall (fun j => job_key j ∈ existing_keys st') added.

(** ** A sample run *)

Module Sample.

Definition item (title company : string) : feed_item :=
  {| r_title := title; r_company := company;
     r_link := "https://www.indeed.com/viewjob?jk=1";
     r_pubDate := "Tue, 02 Jan 2024 08:00:00 GMT";
     r_source := "indeed" |}.

(** A candidate that scores exactly 69 (vp 15, systems 8, product 6) and
    one that scores exactly 70 (vp 15, cpo 15). *)
Definition r69 : feed_item := item "VP Systems Product" "Unknown".
Definition r70 : feed_item := item "VP CPO" "Unknown".

(** One stored record, found the day before and edited by hand since. *)
Definition stored : job :=
  [ ("id", VInt 7); ("company", VStr "Acme"); ("title", VStr "Old Role");
    ("score", VInt 55); ("discovered", VStr "01/01/2024");
    ("isNew", VBool true); ("status", VStr "applied");
    ("notes", VStr "call back on Monday") ].

Definition feed (query : string) : list feed_item :=
  if String.eqb query "CFO fintech remote"
  then [r70; r69; item "vp cpo" " unknown "]
  else if String.eqb query "VP Finance fintech remote"
  then [item "VP Finance Transformation" "Stripe"; r70]
  else [].

Definition w : world :=
  {| data_file := Text "stored"; data_writable := true;
     dashboard_file := Text "<html><script>const JOBS = [];</script></html>";
     dashboard_writable := true;
     push_succeeds := true;
     today := "01/02/2024"; indeed := feed |}.

(** The data file holds [stored] before the run and the merged
    collection after it; any other text does not parse. *)
Definition json_load (text : string) : option (list job) :=
  if String.eqb text "stored" then Some [stored]
  else if String.eqb text "merged"
       then Some (all_jobs_of "01/02/2024" feed [stored])
       else None.

(** The next day, with the merged collection on file and the same feed. *)
Definition w_next_day : world :=
  {| data_file := Text "merged"; data_writable := true;
     dashboard_file := dashboard_file w; dashboard_writable := true;
     push_succeeds := true;
     today := "01/03/2024"; indeed := feed |}.

(** The same world with a data file that cannot be written. *)
Definition w_read_only : world :=
  {| data_file := Text "stored"; data_writable := false;
     dashboard_file := dashboard_file w;
     dashboard_writable := true;
     push_succeeds := true;
     today := "01/02/2024"; indeed := feed |}.

(** A dashboard without the placeholder, and a feed whose one item has a
    letter outside ASCII in its title (U+00E9). *)
Definition plain_html : string := "<html><body>no data block</body></html>".

Definition accent_item : feed_item :=
  item ("VP Finance Transformation Montr" ++ String "233"%char "al") "Stripe".

Definition w_accent : world :=
  {| data_file := Absent; data_writable := true;
     dashboard_file := Text plain_html; dashboard_writable := true;
     push_succeeds := true;
     today := "01/02/2024";
     indeed := fun query =>
                 if String.eqb query "CFO fintech remote"
                 then [accent_item] else [] |}.

End Sample.

(** ** The feed client: one item of the answer *)

Module Feed.

(** The token between a job title and the company in a feed title. *)
Definition separator : string := " - ".

(** [s.rsplit(sep, 1)] for a non-empty [sep] that occurs in [s]: the text
    before the last occurrence and the text after it; [None] when [sep]
    does not occur, where Python returns the one-element list [[s]]. *)
Fixpoint rsplit1 (sep s : string) : option (string * string) :=
  match s with
  | EmptyString => None
  | String c s' =>
      match rsplit1 sep s' with
      | Some (before, after) => Some (String c before, after)
      | None =>
          if String.prefix sep s
          then Some ("", Re.skip (String.length sep) s)
          else None
      end
  end.

(** The body of [for item in root.findall(".//item")], from the three
    texts [item.findtext] gives for "title", "link" and "pubDate". *)
Definition item_of (title_text link_text pub_date_text : string)
  : feed_item :=
  let title := strip title_text in
  let link := strip link_text in
  let pub_date := strip pub_date_text in
  let parts := rsplit1 separator title in
  let job_title :=
    match parts with
    | Some (before, _) => strip before
    | None => strip title
    end in
  let company :=
    match parts with
    | Some (_, after) => strip after
    | None => "Unknown"
    end in
  {| r_title := job_title; r_company := company; r_link := link;
     r_pubDate := pub_date; r_source := "indeed" |}.

End Feed.

(** ** Further samples *)

Module Cases.

(** A feed title with two separators and stray spaces. *)
Definition raw_title : string := "  VP Finance - EMEA - Stripe  ".

(** A stored record whose title is a number, and one whose id is a string. *)
Definition bad_title : job :=
  [ ("id", VInt 3); ("title", VInt 12); ("company", VStr "Acme") ].

Definition bad_id : job :=
  [ ("id", VStr "seven"); ("title", VStr "Old Role"); ("company", VStr "Acme") ].

(** A data file holding a record of either kind behind a sound one. *)
Definition json_load (text : string) : option (list job) :=
  if String.eqb text "bad title" then Some [Sample.stored; bad_title]
  else if String.eqb text "bad id" then Some [Sample.stored; bad_id]
  else Sample.json_load text.

Definition w_bad_title : world := put_file DATA_PATH "bad title" Sample.w.
Definition w_bad_id : world := put_file DATA_PATH "bad id" Sample.w.

(** A stored record with a backslash in its title, and one with a letter
    outside ASCII (U+00E9). *)
Definition slashed : job :=
  [ ("id", VInt 1); ("title", VStr "R\D Lead"); ("company", VStr "Acme") ].

Definition accented : job :=
  [ ("id", VInt 2); ("title", VStr ("Caf" ++ String "233"%char ""));
    ("company", VStr "Acme") ].

(** A dashboard with two data blocks. *)
Definition two_blocks : string :=
  "<script>const JOBS = [];</script><script>const JOBS = [1];</script>".

(** The sample world with a data file that does not parse. *)
Definition w_garbled : world := put_file DATA_PATH "{not json" Sample.w.

(** The first run: no data file yet, and the sample feed. *)
Definition w_first_run : world :=
  {| data_file := Absent; data_writable := true;
     dashboard_file := dashboard_file Sample.w; dashboard_writable := true;
     push_succeeds := true;
     today := "01/02/2024"; indeed := Sample.feed |}.

(** A day on which every search fails or finds nothing. *)
Definition w_silent : world :=
  {| data_file := data_file Sample.w; data_writable := true;
     dashboard_file := dashboard_file Sample.w; dashboard_writable := true;
     push_succeeds := true;
     today := "01/02/2024"; indeed := fun _ => [] |}.

End Cases.

(** ** Auxiliary notions on strings *)

(** The character [c] occurs in [s]. *)
Fixpoint occurs (c : ascii) (s : string) : bool :=
  match s with
  | EmptyString => false
  | String d s' => Ascii.eqb d c || occurs c s'
  end.

Definition bar : ascii := "|"%char.

(** A search word: not empty, and with no whitespace at either end. *)
Definition word (k : string) : bool :=
  negb (String.eqb k "") && String.eqb (strip k) k.

(** The key [search_all] builds for a candidate. *)
Definition candidate_key (r : feed_item) : string :=
  deduplicate_key (r_title r) (r_company r).

(** A record of the loop was built from a handled candidate that passed
    the threshold. *)
Definition built_from (today : string) (seen : list (string * feed_item))
    (j : job) : Prop :=
  exists id query r,
    (query, r) ∈ seen /\
    j = new_job id r (candidate_score r) query today /\
    70 <= candidate_score r.

(** The loop variables after the candidates [seen], started with the key
    set [stored_keys] and no records: the records have distinct keys that
    are in the key set and not among the stored ones, and each was built
    from a candidate; every key of the set is a stored key, the key of a
    record, or the key of a candidate below the threshold; every
    candidate's key is in the set. *)
Definition covers (today : string) (stored_keys : gset string)
    (seen : list (string * feed_item)) (st : merge_state) : Prop :=
  stored_keys ⊆ existing_keys st
  /\ NoDup (map job_key (new_jobs st))
  /\ Forall (fun j => job_key j ∈ existing_keys st
                      /\ job_key j ∉ stored_keys
                      /\ built_from today seen j) (new_jobs st)
  /\ (forall k, k ∈ existing_keys st ->
        k ∈ stored_keys
        \/ (exists j, j ∈ new_jobs st /\ job_key j = k)
        \/ (exists query r, (query, r) ∈ seen /\ candidate_key r = k
                            /\ candidate_score r < 70))
  /\ (forall query r, (query, r) ∈ seen -> candidate_key r ∈ existing_keys st).

(** The candidates a merge accepts, as the specification words it: going
    through the candidates in order, one is accepted when its key is
    neither a stored key nor the key of an earlier candidate, and its
    score is at least 70. [seen] holds the keys met so far. *)
Fixpoint accepted_from (seen : list string)
    (cands : list (string * feed_item)) : list (string * feed_item) :=
  match cands with
  | [] => []
  | (query, r) :: cands' =>
      if existsb (String.eqb (candidate_key r)) seen
      then accepted_from seen cands'
      else if (candidate_score r <? 70)%Z
           then accepted_from (candidate_key r :: seen) cands'
           else (query, r) :: accepted_from (candidate_key r :: seen) cands'
  end.

(** The records of accepted candidates, with the ids [start],
    [start + 1], ... in order. *)
Fixpoint numbered (today : string) (start : Z)
    (accepted : list (string * feed_item)) : list job :=
  match accepted with
  | [] => []
  | (query, r) :: accepted' =>
      new_job start r (candidate_score r) query today
      :: numbered today (start + 1) accepted'
  end.

(** No candidate has a bar in its title. *)
Definition bar_free (cands : list (string * feed_item)) : bool :=
  forallb (fun qr => negb (occurs bar (r_title (snd qr)))) cands.

(** ** Reading the publisher back *)

(** Every character of [s] satisfies [f]. *)
Fixpoint every (f : ascii -> bool) (s : string) : bool :=
  match s with
  | EmptyString => true
  | String c s' => f c && every f s'
  end.

(** The characters [json.dumps] writes outside the escaped text of a
    string, the closing bracket of the array apart: digits and the minus
    sign, the letters of [null], [true] and [false], space and newline,
    the quote, and the punctuation of objects and arrays. *)
Definition neutral (c : ascii) : bool :=
  existsb (Ascii.eqb c)
    (ascii_of_N 10 :: ascii_of_N 34
     :: list_ascii_of_string "0123456789- :,{}[nultrefas").

(** A printable ASCII character or a newline. *)
Definition plain_ascii (c : ascii) : bool :=
  ((32 <=? code c) && (code c <=? 126) || (code c =? 10))%N.

(** A summary of the characters of every key and every string value of a
    collection, in the order [json.dumps] writes them. *)
Section Fold.

Context {F : Type} (op : F -> F -> F) (e : F) (flag : ascii -> F).

Fixpoint fold_string (s : string) : F :=
  match s with
  | EmptyString => e
  | String c s' => op (flag c) (fold_string s')
  end.

Definition fold_value (v : value) : F :=
  match v with
  | VStr s => fold_string s
  | _ => e
  end.

Definition fold_job (j : job) : F :=
  foldr (fun kv acc => op (op (fold_string (fst kv)) (fold_value (snd kv))) acc)
    e j.

Definition fold_jobs (jobs : list job) : F :=
  foldr (fun j acc => op (fold_job j) acc) e jobs.

End Fold.

(** What becomes of a text that [json.dumps] writes and [re.sub] then
    reads as a replacement template: it comes out as written; it comes
    out changed, because the template parser resolves an escape; or the
    template parser raises. *)
Inductive fate : Type :=
| Exact
| Lossy
| Rejected.

#[global] Instance fate_eq_dec : EqDecision fate.
Proof. solve_decision. Defined.

Definition worse (a b : fate) : fate :=
  match a, b with
  | Rejected, _ | _, Rejected => Rejected
  | Lossy, _ | _, Lossy => Lossy
  | Exact, Exact => Exact
  end.

(** The fate of one character of a key or string value: the backslash and
    the five control characters with a short escape are resolved, the
    other printable ASCII characters pass, everything else is written as
    [\uXXXX] and rejected. *)
Definition char_fate (c : ascii) : fate :=
  let n := code c in
  if ((n =? 92) || (n =? 8) || (n =? 9) || (n =? 10) || (n =? 12)
      || (n =? 13))%N
  then Lossy
  else if ((32 <=? n) && (n <=? 126))%N then Exact
  else Rejected.

Definition text_fate (jobs : list job) : fate :=
  fold_jobs worse Exact char_fate jobs.

(** Some key or string value holds a closing bracket. *)
Definition has_bracket (jobs : list job) : bool :=
  fold_jobs orb false (fun c => Ascii.eqb c "]") jobs.

Module Template.

(** The template parser run over [t] from the state [st]: the state it
    ends in and the parts it has completed, or [None] when it raises. *)
Fixpoint scan (st : Re.tstate) (t : string)
  : option (Re.tstate * list Re.part) :=
  match t with
  | EmptyString => Some (st, [])
  | String c t' =>
      match Re.step st c with
      | None => None
      | Some (st', done) =>
          match scan st' t' with
          | None => None
          | Some (st'', rest) => Some (st'', (done ++ rest)%list)
          end
      end
  end.

(** The replacement [rebuild_dashboard] hands to [re.sub]. *)
Definition replacement (jobs : list job) : string :=
  "const JOBS = " ++ Json.dumps jobs ++ ";".

(** The template parser on [s], a text of fate [f]. *)
Definition fares (s : string) (f : fate) : Prop :=
  match f with
  | Rejected => scan Re.Plain s = None
  | Lossy =>
      exists ps, scan Re.Plain s = Some (Re.Plain, ps)
                 /\ forall m, (String.length (Re.expand ps m) < String.length s)%nat
  | Exact =>
      exists ps, scan Re.Plain s = Some (Re.Plain, ps)
                 /\ forall m, Re.expand ps m = s
  end.

End Template.

(** * Properties of the string functions *)

Section StringFacts.

Lemma isspace_lower_char c : isspace (lower_char c) = isspace c.
Proof. destruct c as [[] [] [] [] [] [] [] []]; reflexivity. Qed.

Lemma lower_app s t : lower (s ++ t) = lower s ++ lower t.
Proof. induction s as [|c s IH]; simpl; [reflexivity | now rewrite IH]. Qed.

Lemma all_space_lower s : all_space (lower s) = all_space s.
Proof.
  induction s as [|c s IH]; simpl; [reflexivity|].
  now rewrite isspace_lower_char, IH.
Qed.

Lemma lstrip_lower s : lstrip (lower s) = lower (lstrip s).
Proof.
  induction s as [|c s IH]; simpl; [reflexivity|].
  rewrite isspace_lower_char. destruct (isspace c); [exact IH | reflexivity].
Qed.

Lemma rstrip_lower s : rstrip (lower s) = lower (rstrip s).
Proof.
  induction s as [|c s IH]; simpl; [reflexivity|].
  rewrite IH, isspace_lower_char.
  destruct (rstrip s); simpl; [destruct (isspace c)|]; reflexivity.
Qed.

Lemma strip_lower s : strip (lower s) = lower (strip s).
Proof. unfold strip. now rewrite lstrip_lower, rstrip_lower. Qed.

Lemma lstrip_all_space s : all_space s = true -> lstrip s = "".
Proof.
  induction s as [|c s IH]; simpl; [reflexivity|].
  intros [Hc Hs]%andb_prop. rewrite Hc. auto.
Qed.

Lemma rstrip_all_space s : all_space s = true -> rstrip s = "".
Proof.
  induction s as [|c s IH]; simpl; [reflexivity|].
  intros [Hc Hs]%andb_prop. now rewrite (IH Hs), Hc.
Qed.

Lemma lstrip_space_app l s : all_space l = true -> lstrip (l ++ s) = lstrip s.
Proof.
  induction l as [|c l IH]; simpl; [reflexivity|].
  intros [Hc Hl]%andb_prop. rewrite Hc. auto.
Qed.

Lemma rstrip_app_space s r : all_space r = true -> rstrip (s ++ r) = rstrip s.
Proof.
  intros Hr. induction s as [|c s IH]; simpl.
  - now apply rstrip_all_space.
  - now rewrite IH.
Qed.

Lemma lstrip_app_space s r :
  all_space r = true ->
  lstrip (s ++ r) = if all_space s then "" else lstrip s ++ r.
Proof.
  intros Hr. induction s as [|c s IH]; simpl.
  - now apply lstrip_all_space.
  - destruct (isspace c); simpl; [exact IH | reflexivity].
Qed.

Lemma strip_wrapped l s r :
  all_space l = true -> all_space r = true -> strip (l ++ s ++ r) = strip s.
Proof.
  intros Hl Hr. unfold strip.
  rewrite (lstrip_space_app _ _ Hl), (lstrip_app_space _ _ Hr).
  destruct (all_space s) eqn:Hs.
  - now rewrite (lstrip_all_space _ Hs).
  - now apply rstrip_app_space.
Qed.

Lemma strip_lower_same s s' :
  same_modulo_case_ws s s' -> strip (lower s) = strip (lower s').
Proof.
  intros (l & m & r & l' & m' & r' & -> & -> & Hl & Hr & Hl' & Hr' & Hm).
  rewrite !lower_app.
  rewrite !strip_wrapped by (now rewrite all_space_lower).
  now rewrite Hm.
Qed.

End StringFacts.

(** * Properties of the scorer *)

Section ScorerFacts.

Lemma keyword_fold_sum (kws : list (string * Z)) (tl : string) (s : Z) :
  fold_left
    (fun score kp =>
       let '(keyword, points) := kp in
       if contains keyword tl then score + points else score) kws s
  = s + foldr Z.add 0
          (map snd (filter (fun kp => contains (fst kp) tl = true) kws)).
Proof.
  revert s. induction kws as [|[k p] kws IH]; intros s; simpl.
  - lia.
  - rewrite IH, filter_cons. simpl.
    destruct (contains k tl) eqn:Hk; destruct decide; try congruence;
      simpl; lia.
Qed.

Lemma keyword_loop_sum title s :
  keyword_loop (lower title) s = s + keyword_points title.
Proof. apply keyword_fold_sum. Qed.

Lemma company_loop_sum tcs cl s :
  company_loop tcs cl s
  = s + (if existsb (fun tc => contains (lower tc) cl) tcs then 8 else 0).
Proof.
  induction tcs as [|tc tcs IH]; simpl; [lia|].
  destruct (contains (lower tc) cl); simpl; [reflexivity | exact IH].
Qed.

Lemma calculate_fit_score_spec title company location :
  calculate_fit_score title company location
  = spec_fit_score title company location.
Proof.
  unfold calculate_fit_score, spec_fit_score, company_bonus, remote_bonus.
  rewrite company_loop_sum, keyword_loop_sum.
  destruct (contains "remote" (lower location) || contains "remote" (lower title));
    lia.
Qed.

Lemma weights_nonneg : Forall (fun kp => 0 <= snd kp) TITLE_KEYWORDS.
Proof. unfold TITLE_KEYWORDS. repeat constructor; simpl; lia. Qed.

Lemma filtered_sum_nonneg (P : string * Z -> Prop) `{!forall x, Decision (P x)}
    (kws : list (string * Z)) :
  Forall (fun kp => 0 <= snd kp) kws ->
  0 <= foldr Z.add 0 (map snd (filter P kws)).
Proof.
  induction 1 as [|kp kws Hkp _ IH]; simpl; [lia|].
  rewrite filter_cons. destruct decide; simpl; lia.
Qed.

Lemma keyword_points_nonneg title : 0 <= keyword_points title.
Proof. apply filtered_sum_nonneg, weights_nonneg. Qed.

Lemma company_bonus_range company : 0 <= company_bonus company <= 8.
Proof. unfold company_bonus. destruct existsb; lia. Qed.

Lemma remote_bonus_range title location : 0 <= remote_bonus title location <= 5.
Proof. unfold remote_bonus. destruct orb; lia. Qed.

Lemma calculate_fit_score_range title company location :
  40 <= calculate_fit_score title company location <= 100.
Proof.
  rewrite calculate_fit_score_spec. unfold spec_fit_score.
  pose proof (keyword_points_nonneg title).
  pose proof (company_bonus_range company).
  pose proof (remote_bonus_range title location).
  lia.
Qed.

End ScorerFacts.

(** * Properties of dictionaries *)

Section DictFacts.

Lemma dict_get_set_eq (d : job) k v : dict_get (dict_set d k v) k = Some v.
Proof.
  induction d as [|[k' v'] d IH]; simpl.
  - now rewrite String.eqb_refl.
  - destruct (String.eqb k' k) eqn:E; simpl; rewrite E; [reflexivity | exact IH].
Qed.

Lemma dict_get_set_ne (d : job) k k' v :
  k <> k' -> dict_get (dict_set d k v) k' = dict_get d k'.
Proof.
  intros Hne. induction d as [|[k0 v0] d IH]; simpl.
  - destruct (String.eqb_spec k k'); [contradiction | reflexivity].
  - destruct (String.eqb_spec k0 k) as [->|Hk]; simpl.
    + destruct (String.eqb_spec k k'); [contradiction | reflexivity].
    + now rewrite IH.
Qed.

Lemma dict_get_default_set_ne (d : job) k k' v dflt :
  k <> k' ->
  dict_get_default (dict_set d k v) k' dflt = dict_get_default d k' dflt.
Proof. intros Hne. unfold dict_get_default. now rewrite dict_get_set_ne. Qed.

Lemma py_eq_str v t : py_eq v (VStr t) = bool_decide (v = VStr t).
Proof.
  destruct v as [| b | n | s]; simpl; try reflexivity.
  destruct (String.eqb_spec s t) as [->|Hne].
  - now rewrite bool_decide_eq_true_2.
  - rewrite bool_decide_eq_false_2; [reflexivity | congruence].
Qed.

Lemma mark_is_new_frame today (j : job) k :
  k <> "isNew" -> dict_get (mark_is_new today j) k = dict_get j k.
Proof. intros Hk. unfold mark_is_new. apply dict_get_set_ne. congruence. Qed.

Lemma mark_is_new_flag today (j : job) :
  dict_get (mark_is_new today j) "isNew"
  = Some (VBool (bool_decide (dict_get_default j "discovered" (VStr "")
                              = VStr today))).
Proof. unfold mark_is_new. now rewrite dict_get_set_eq, py_eq_str. Qed.

Lemma mark_is_new_default today (j : job) k dflt :
  k <> "isNew" ->
  dict_get_default (mark_is_new today j) k dflt = dict_get_default j k dflt.
Proof. intros Hk. unfold dict_get_default. now rewrite mark_is_new_frame. Qed.

Lemma job_key_mark today j : job_key (mark_is_new today j) = job_key j.
Proof. unfold job_key. now rewrite !mark_is_new_default by discriminate. Qed.

Lemma job_id_mark today j : job_id (mark_is_new today j) = job_id j.
Proof. unfold job_id. now rewrite !mark_is_new_default by discriminate. Qed.

Lemma key_typed_mark today j : key_typed (mark_is_new today j) = key_typed j.
Proof. unfold key_typed. now rewrite !mark_is_new_default by discriminate. Qed.

Lemma id_typed_mark today j : id_typed (mark_is_new today j) = id_typed j.
Proof. unfold id_typed. now rewrite !mark_is_new_default by discriminate. Qed.

Lemma job_key_new id r score query today :
  job_key (new_job id r score query today)
  = deduplicate_key (r_title r) (r_company r).
Proof. reflexivity. Qed.

Lemma job_id_new id r score query today :
  job_id (new_job id r score query today) = id.
Proof. reflexivity. Qed.

End DictFacts.

(** * Running the script *)

Section RunFacts.

Variable json_load : string -> option (list job).

Lemma load_existing_data_run w :
  load_existing_data json_load w = Return (loaded json_load w) w.
Proof.
  unfold load_existing_data, loaded, bind, try_except, path_exists, read_text,
    ret, raise; simpl.
  destruct (data_file w) as [| | |s] eqn:E; simpl; rewrite ?E; try reflexivity.
  destruct (json_load s); reflexivity.
Qed.

Lemma existing_key_run j w :
  existing_key j w
  = if key_typed j then Return (job_key j) w else Raise AttributeError w.
Proof.
  unfold existing_key, key_typed, job_key, bind, as_str, ret, raise.
  destruct (dict_get_default j "title" (VStr "")); simpl; try reflexivity.
  destruct (dict_get_default j "company" (VStr "")); reflexivity.
Qed.

Lemma keys_loop_run existing (K : gset string) w :
  for_each existing
    (fun j keys => let* key := existing_key j in ret ({[key]} ∪ keys)) K w
  = if forallb key_typed existing
    then Return (list_to_set (map job_key existing) ∪ K) w
    else Raise AttributeError w.
Proof.
  revert K. induction existing as [|j existing IH]; intros K; simpl.
  - unfold ret. now rewrite (left_id_L ∅ (∪)).
  - unfold bind at 1. unfold bind at 1. rewrite existing_key_run.
    destruct (key_typed j); simpl; [|reflexivity].
    unfold ret at 1. rewrite IH.
    destruct (forallb key_typed existing); [|reflexivity].
    f_equal. rewrite (assoc_L (∪)).
    now rewrite (comm_L (∪) (list_to_set (map job_key existing)) {[job_key j]}).
Qed.

Lemma existing_id_run j w :
  existing_id j w = if id_typed j then Return (job_id j) w else Raise TypeError w.
Proof.
  unfold existing_id, id_typed, job_id.
  destruct (number_of (dict_get_default j "id" (VInt 0))); reflexivity.
Qed.

Lemma ids_run existing w :
  map_m existing_id existing w
  = if forallb id_typed existing
    then Return (map job_id existing) w else Raise TypeError w.
Proof.
  induction existing as [|j existing IH]; simpl; [reflexivity|].
  unfold bind at 1. rewrite existing_id_run.
  destruct (id_typed j); simpl; [|reflexivity].
  unfold bind at 1. rewrite IH.
  destruct (forallb id_typed existing); reflexivity.
Qed.

Lemma run_candidates_app today c1 c2 st :
  run_candidates today (c1 ++ c2) st
  = run_candidates today c2 (run_candidates today c1 st).
Proof. apply fold_left_app. Qed.

Lemma results_loop_run query today results st :
  fold_left (result_step query today) results st
  = run_candidates today (map (pair query) results) st.
Proof.
  revert st. induction results as [|r results IH]; intros st; simpl;
    [reflexivity | apply IH].
Qed.

Lemma queries_loop_run today queries st w :
  for_each queries (query_step today) st w
  = Return (run_candidates today (candidates_of queries (indeed w)) st) w.
Proof.
  revert st. induction queries as [|q queries IH]; intros st; simpl.
  - reflexivity.
  - unfold bind at 1, query_step at 1, bind at 1, search_indeed_rss, ret at 1.
    rewrite IH, run_candidates_app, results_loop_run. reflexivity.
Qed.

(** The whole of [search_all] in one equation: it raises on a stored
    record it cannot read, it raises when the data file cannot be
    written, and otherwise it saves and returns the merged collection. *)
Lemma search_all_run w :
  search_all json_load w
  = let existing := loaded json_load w in
    let all := all_jobs_of (today w) (indeed w) existing in
    if negb (forallb key_typed existing) then Raise AttributeError w
    else if negb (forallb id_typed existing) then Raise TypeError w
    else if data_writable w
         then Return (all, length (new_jobs (merged (today w) (indeed w) existing)))
                (put_file DATA_PATH (Json.dumps all) w)
         else Raise OSError w.
Proof.
  unfold search_all. unfold bind at 1. rewrite load_existing_data_run.
  unfold bind at 1. rewrite keys_loop_run.
  cbv zeta.
  destruct (forallb key_typed (loaded json_load w)); cbn [negb]; [|reflexivity].
  unfold bind at 1, now_mdY. unfold bind at 1. rewrite ids_run.
  destruct (forallb id_typed (loaded json_load w)); cbn [negb]; [|reflexivity].
  unfold bind at 1. rewrite queries_loop_run.
  unfold bind at 1, save_data, write_text, writable_at.
  rewrite (right_id_L ∅ (∪)).
  destruct (data_writable w); reflexivity.
Qed.

End RunFacts.

(** * Properties of the merge loop *)

Section MergeFacts.

Variable today : string.

Lemma result_step_seen query st r :
  deduplicate_key (r_title r) (r_company r) ∈ existing_keys st ->
  result_step query today st r = st.
Proof. intros Hin. unfold result_step. now rewrite decide_True. Qed.

Lemma result_step_fresh query st r :
  deduplicate_key (r_title r) (r_company r) ∉ existing_keys st ->
  result_step query today st r
  = let keys := {[deduplicate_key (r_title r) (r_company r)]} ∪ existing_keys st in
    if bool_decide (70 <= candidate_score r)
    then {| existing_keys := keys;
            new_jobs := new_jobs st
                        ++ [new_job (next_id st) r (candidate_score r) query today];
            next_id := next_id st + 1 |}
    else {| existing_keys := keys; new_jobs := new_jobs st;
            next_id := next_id st |}.
Proof.
  intros Hout. unfold result_step, candidate_score. rewrite decide_False by exact Hout.
  cbv zeta. destruct (Z.ltb_spec (calculate_fit_score (r_title r) (r_company r) "") 70).
  - rewrite bool_decide_eq_false_2 by lia. reflexivity.
  - rewrite bool_decide_eq_true_2 by lia. reflexivity.
Qed.

(** One step either leaves the loop variables alone, or records the key
    only, or records the key and appends one accepted record. *)
Lemma result_step_cases query st r :
  let key := deduplicate_key (r_title r) (r_company r) in
  ((key ∈ existing_keys st) /\ result_step query today st r = st)
  \/ ((key ∉ existing_keys st) /\ candidate_score r < 70 /\
      result_step query today st r
      = {| existing_keys := {[key]} ∪ existing_keys st;
           new_jobs := new_jobs st; next_id := next_id st |})
  \/ ((key ∉ existing_keys st) /\ 70 <= candidate_score r /\
      result_step query today st r
      = {| existing_keys := {[key]} ∪ existing_keys st;
           new_jobs := new_jobs st
                       ++ [new_job (next_id st) r (candidate_score r) query today];
           next_id := next_id st + 1 |}).
Proof.
  intros key.
  destruct (decide (key ∈ existing_keys st)) as [Hin|Hout].
  - left. split; [exact Hin | now apply result_step_seen].
  - right. rewrite (result_step_fresh _ _ _ Hout). cbv zeta. fold key.
    destruct (decide (70 <= candidate_score r)) as [Hge|Hlt].
    + right. rewrite bool_decide_eq_true_2 by exact Hge. auto.
    + left. rewrite bool_decide_eq_false_2 by exact Hlt.
      repeat split; [exact Hout | lia].
Qed.

(** What a stretch of the loop keeps true: an invariant of every step is an
    invariant of the run. *)
Lemma run_candidates_invariant (P : merge_state -> Prop) cands st :
  P st ->
  (forall query st r, P st -> P (result_step query today st r)) ->
  P (run_candidates today cands st).
Proof.
  intros Hst Hstep. revert st Hst.
  induction cands as [|[q r] cands IH]; intros st Hst; simpl; [exact Hst|].
  apply IH, Hstep, Hst.
Qed.

(** The loop only adds keys. *)
Lemma run_candidates_keys_mono cands st :
  existing_keys st ⊆ existing_keys (run_candidates today cands st).
Proof.
  apply (run_candidates_invariant
           (fun st' => existing_keys st ⊆ existing_keys st')); [done|].
  intros q st' r Hsub.
  destruct (result_step_cases q st' r) as [[_ ->]|[(_ & _ & ->)|(_ & _ & ->)]];
    simpl; set_solver.
Qed.

Lemma grown_from_refl st : grown_from today st st.
Proof.
  exists []. rewrite app_nil_r. simpl. repeat split; try constructor; try lia.
  intros i j Hl. now rewrite lookup_nil in Hl.
Qed.

Lemma grown_from_step query st st' r :
  grown_from today st st' -> grown_from today st (result_step query today st' r).
Proof.
  intros (added & Hnew & Hid & Hids & Hacc & Hkeys).
  destruct (result_step_cases query st' r)
    as [[_ ->]|[(_ & _ & ->)|(_ & Hge & ->)]].
  - exists added. auto.
  - exists added. simpl. repeat split; auto.
    eapply Forall_impl; [exact Hkeys|]. simpl. set_solver.
  - exists (added ++ [new_job (next_id st') r (candidate_score r) query today])%list.
    simpl. repeat split.
    + rewrite Hnew. now rewrite app_assoc.
    + rewrite length_app. simpl. lia.
    + intros i j Hl. apply lookup_app_Some in Hl as [Hl|[Hlen Hl]].
      * now apply Hids.
      * apply list_lookup_singleton_Some in Hl as [Hi <-]. simpl.
        repeat f_equal. lia.
    + apply Forall_app. split; [exact Hacc|]. constructor; [|constructor].
      exists (next_id st'), r, query. auto.
    + apply Forall_app. split.
      * eapply Forall_impl; [exact Hkeys|]. simpl. set_solver.
      * constructor; [|constructor]. rewrite job_key_new. set_solver.
Qed.

Lemma run_candidates_grown cands st :
  grown_from today st (run_candidates today cands st).
Proof.
  apply (run_candidates_invariant (grown_from today st)).
  - apply grown_from_refl.
  - intros q st' r. apply grown_from_step.
Qed.

Lemma result_step_keys query st r :
  existing_keys (result_step query today st r)
  = {[deduplicate_key (r_title r) (r_company r)]} ∪ existing_keys st.
Proof.
  destruct (result_step_cases query st r)
    as [[Hin ->]|[(_ & _ & ->)|(_ & _ & ->)]]; simpl; [|reflexivity..].
  apply set_eq. intros x. rewrite elem_of_union, elem_of_singleton.
  split; [auto | intros [->|H]; assumption].
Qed.

Lemma run_candidates_new_jobs_prefix cands st :
  exists added,
    new_jobs (run_candidates today cands st) = (new_jobs st ++ added)%list.
Proof.
  destruct (run_candidates_grown cands st) as (added & Hnew & _). eauto.
Qed.

Lemma accepted_on_typed j :
  accepted_on today j -> key_typed j = true /\ id_typed j = true.
Proof. intros (id & r & q & -> & _). split; reflexivity. Qed.

Lemma accepted_on_score j : accepted_on today j -> score_accepted j.
Proof.
  intros (id & r & q & -> & Hge). exists (candidate_score r).
  split; [reflexivity | exact Hge].
Qed.

Lemma accepted_on_new j :
  accepted_on today j ->
  dict_get j "isNew" = Some (VBool true) /\
  dict_get j "discovered" = Some (VStr today).
Proof. intros (id & r & q & -> & _). split; reflexivity. Qed.

End MergeFacts.

(** * Running the merge a second time *)

Section Rerun.

(** A second pass over the same candidates, started with at least the keys
    of the first pass and the keys of everything the first pass accepted,
    accepts nothing. The two passes may run on different days. *)
Lemma rerun_accepts_nothing today1 today2 cands st1 st2 :
  existing_keys st1 ⊆ existing_keys st2 ->
  Forall (fun j => job_key j ∈ existing_keys st2)
         (new_jobs (run_candidates today1 cands st1)) ->
  new_jobs (run_candidates today2 cands st2) = new_jobs st2 /\
  next_id (run_candidates today2 cands st2) = next_id st2.
Proof.
  revert st1 st2.
  induction cands as [|[q r] cands IH]; intros st1 st2 Hsub Hall;
    [split; reflexivity|].
  simpl in *.
  set (key := deduplicate_key (r_title r) (r_company r)).
  assert (Hsame : new_jobs (result_step q today2 st2 r) = new_jobs st2 /\
                  next_id (result_step q today2 st2 r) = next_id st2).
  { destruct (result_step_cases today2 q st2 r)
      as [[_ ->]|[(_ & _ & ->)|(Hout2 & Hge & _)]]; [split; reflexivity..|].
    exfalso. apply Hout2.
    assert (Hout1 : key ∉ existing_keys st1) by (intros Hin; apply Hout2, Hsub, Hin).
    rewrite (result_step_fresh today1 q st1 r Hout1) in Hall. cbv zeta in Hall.
    rewrite bool_decide_eq_true_2 in Hall by exact Hge.
    destruct (run_candidates_new_jobs_prefix today1 cands
                {| existing_keys := {[key]} ∪ existing_keys st1;
                   new_jobs := (new_jobs st1
                     ++ [new_job (next_id st1) r (candidate_score r) q today1])%list;
                   next_id := next_id st1 + 1 |}) as [added Hadded].
    fold key in Hall. rewrite Hadded in Hall. simpl in Hall.
    apply Forall_app in Hall as [Hall _]. apply Forall_app in Hall as [_ Hall].
    apply Forall_inv in Hall. exact Hall. }
  destruct Hsame as [<- <-].
  apply (IH (result_step q today1 st1 r)).
  - rewrite !result_step_keys. set_solver.
  - eapply Forall_impl; [exact Hall|]. simpl. intros j Hj.
    rewrite result_step_keys. set_solver.
Qed.

End Rerun.

(** * The claims *)

(** ** Scorer *)

(** C1. The score is [min(100, 40 + keyword weights + company bonus +
    remote bonus)]: the weights of all the keywords found in the lowercased
    title, 8 once when a target company occurs in the lowercased company,
    5 when "remote" occurs in the lowercased location or title. It lies in
    [0,100], and "VP Finance Transformation" at "Stripe" scores 85. *)
Theorem calculate_fit_score_formula (title company location : string) :
  calculate_fit_score title company location
  = spec_fit_score title company location
  /\ 0 <= calculate_fit_score title company location <= 100
  /\ calculate_fit_score "VP Finance Transformation" "Stripe" "" = 85.
Proof.
  split; [apply calculate_fit_score_spec|].
  split; [|reflexivity].
  pose proof (calculate_fit_score_range title company location). lia.
Qed.

(** C10. The score is never below the base 40: the scorer ranges over
    [40,100], and both ends are reached. *)
Theorem calculate_fit_score_at_least_base (title company location : string) :
  40 <= calculate_fit_score title company location <= 100
  /\ calculate_fit_score "" "" "" = 40
  /\ calculate_fit_score "CFO VP Head Finance" "Stripe" "Remote" = 100.
Proof.
  split; [apply calculate_fit_score_range|]. split; reflexivity.
Qed.

(** ** Dedup key *)

(** C6. The key is [lowercase(trim(title)) + "|" + lowercase(trim(company))];
    inputs that differ only in letter case and outer whitespace have the
    same key, as ("VP Finance", "Acme") and ("vp finance", " Acme ") do. *)
Theorem deduplicate_key_insensitive :
  (forall title company,
     deduplicate_key title company = spec_dedup_key title company)
  /\ (forall title title' company company',
        same_modulo_case_ws title title' ->
        same_modulo_case_ws company company' ->
        deduplicate_key title company = deduplicate_key title' company')
  /\ deduplicate_key "VP Finance" "Acme" = deduplicate_key "vp finance" " Acme ".
Proof.
  split; [|split].
  - intros title company. unfold deduplicate_key, spec_dedup_key.
    now rewrite !strip_lower.
  - intros title title' company company' Ht Hc. unfold deduplicate_key.
    now rewrite (strip_lower_same _ _ Ht), (strip_lower_same _ _ Hc).
  - reflexivity.
Qed.

Lemma deduplicate_key_insensitive_witness :
  same_modulo_case_ws "VP Finance" "vp finance" /\
  same_modulo_case_ws "Acme" " Acme " /\
  deduplicate_key "VP Finance" "Acme" = deduplicate_key "vp finance" " Acme ".
Proof.
  assert (Ht : same_modulo_case_ws "VP Finance" "vp finance").
  { exists "", "VP Finance", "", "", "vp finance", "". repeat split. }
  assert (Hc : same_modulo_case_ws "Acme" " Acme ").
  { exists "", "Acme", "", " ", "Acme", " ". repeat split. }
  split; [exact Ht|]. split; [exact Hc|].
  exact (proj1 (proj2 deduplicate_key_insensitive) _ _ _ _ Ht Hc).
Defined.

(** * The run as a whole *)

Section PipelineFacts.

Variable json_load : string -> option (list job).

(** With readable stored records and a writable data file the run
    returns, and saves what it returns. *)
Lemma search_all_returns w :
  forallb key_typed (loaded json_load w) = true ->
  forallb id_typed (loaded json_load w) = true ->
  data_writable w = true ->
  search_all json_load w
  = Return (all_jobs_of (today w) (indeed w) (loaded json_load w),
            length (new_jobs (merged (today w) (indeed w) (loaded json_load w))))
      (put_file DATA_PATH
         (Json.dumps (all_jobs_of (today w) (indeed w) (loaded json_load w))) w).
Proof.
  intros Hk Hi Hw. rewrite search_all_run. cbv zeta.
  now rewrite Hk, Hi, Hw.
Qed.

(** A run that returns had readable stored records and a writable file. *)
Lemma search_all_Return_inv w all n w' :
  search_all json_load w = Return (all, n) w' ->
  forallb key_typed (loaded json_load w) = true /\
  forallb id_typed (loaded json_load w) = true /\
  data_writable w = true /\
  all = all_jobs_of (today w) (indeed w) (loaded json_load w).
Proof.
  rewrite search_all_run. cbv zeta.
  destruct (forallb key_typed (loaded json_load w)); [|discriminate].
  destruct (forallb id_typed (loaded json_load w)); [|discriminate].
  destruct (data_writable w); [|discriminate].
  cbn [negb]. intros [= <- _ _]. auto.
Qed.

End PipelineFacts.

(** * What a merge appends *)

Section MergedFacts.

Lemma merged_grown today feed existing :
  grown_from today (initial_state existing) (merged today feed existing).
Proof. apply run_candidates_grown. Qed.

(** What the run appended: the ids count up from the one after the
    largest stored id, and every appended record was accepted today. *)
Lemma merged_added today feed existing :
  let added := new_jobs (merged today feed existing) in
  (forall (i : nat) j, added !! i = Some j ->
     dict_get j "id"
     = Some (VInt (py_max (map job_id existing) 100 + 1 + Z.of_nat i))) /\
  Forall (accepted_on today) added.
Proof.
  destruct (merged_grown today feed existing)
    as (added & Hnew & _ & Hids & Hacc & _).
  simpl in Hnew. cbv zeta. rewrite Hnew. split; assumption.
Qed.

Lemma candidates_ext (f g : string -> list feed_item) :
  (forall q, f q = g q) -> candidates f = candidates g.
Proof.
  intros Hfg. unfold candidates, candidates_of.
  induction SEARCH_QUERIES as [|q qs IH]; simpl; [reflexivity|].
  now rewrite Hfg, IH.
Qed.

Lemma forallb_map_mark (p : job -> bool) today (l : list job) :
  (forall j, p (mark_is_new today j) = p j) ->
  forallb p (map (mark_is_new today) l) = forallb p l.
Proof.
  intros Hp. induction l as [|j l IH]; simpl; [reflexivity|].
  now rewrite Hp, IH.
Qed.

Lemma all_jobs_typed today feed existing :
  forallb key_typed existing = true ->
  forallb id_typed existing = true ->
  forallb key_typed (all_jobs_of today feed existing) = true /\
  forallb id_typed (all_jobs_of today feed existing) = true.
Proof.
  intros Hk Hi. unfold all_jobs_of. rewrite !forallb_app.
  rewrite (forallb_map_mark key_typed) by apply key_typed_mark.
  rewrite (forallb_map_mark id_typed) by apply id_typed_mark.
  rewrite Hk, Hi. simpl.
  destruct (merged_added today feed existing) as [_ Hacc].
  split; apply forallb_forall; intros j Hj;
    apply list_elem_of_In in Hj;
    apply (proj1 (Forall_forall _ _) Hacc) in Hj;
    now apply (accepted_on_typed today) in Hj.
Qed.

Lemma map_job_key_mark today (l : list job) :
  map job_key (map (mark_is_new today) l) = map job_key l.
Proof.
  induction l as [|j l IH]; simpl; [reflexivity|].
  now rewrite job_key_mark, IH.
Qed.

Lemma map_job_id_mark today (l : list job) :
  map job_id (map (mark_is_new today) l) = map job_id l.
Proof.
  induction l as [|j l IH]; simpl; [reflexivity|].
  now rewrite job_id_mark, IH.
Qed.

(** Merging the candidates again into what the first merge produced
    accepts nothing, on whatever day. *)
Lemma merged_again today today2 feed existing :
  new_jobs (merged today2 feed (all_jobs_of today feed existing)) = [].
Proof.
  unfold merged at 1.
  destruct (rerun_accepts_nothing today today2 (candidates feed)
              (initial_state existing)
              (initial_state (all_jobs_of today feed existing))) as [Hnew _].
  - simpl. unfold all_jobs_of. rewrite map_app, map_job_key_mark.
    rewrite list_to_set_app_L. set_solver.
  - fold (merged today feed existing). simpl.
    apply Forall_forall. intros j Hj.
    unfold all_jobs_of. rewrite map_app, list_to_set_app_L.
    apply elem_of_union_r, elem_of_list_to_set, list_elem_of_fmap.
    exists j. split; [reflexivity | exact Hj].
  - exact Hnew.
Qed.

End MergedFacts.

(** * Identifiers *)

Section IdFacts.

Lemma fold_left_max_le a l : a <= fold_left Z.max l a.
Proof.
  revert a. induction l as [|x l IH]; intros a; simpl; [lia|].
  specialize (IH (Z.max a x)). lia.
Qed.

Lemma fold_left_max_elem a l x : x ∈ l -> x <= fold_left Z.max l a.
Proof.
  revert a. induction l as [|y l IH]; intros a Hx; simpl.
  - now apply not_elem_of_nil in Hx.
  - apply elem_of_cons in Hx as [->|Hx]; [|now apply IH].
    pose proof (fold_left_max_le (Z.max a y) l). lia.
Qed.

(** [max] dominates every element of a non-empty list. *)
Lemma py_max_ge l default x : x ∈ l -> x <= py_max l default.
Proof.
  destruct l as [|y l]; intros Hx; simpl.
  - now apply not_elem_of_nil in Hx.
  - apply elem_of_cons in Hx as [->|Hx].
    + apply fold_left_max_le.
    + now apply fold_left_max_elem.
Qed.

Lemma job_id_of_get (j : job) n : dict_get j "id" = Some (VInt n) -> job_id j = n.
Proof. intros H. unfold job_id, dict_get_default. now rewrite H. Qed.

(** Ids handed out in sequence above every stored id do not clash with
    the stored ones or with each other. *)
Lemma ids_fresh (stored added : list job) (top : Z) :
  (forall x, x ∈ map job_id stored -> x <= top) ->
  (forall (i : nat) j, added !! i = Some j ->
     dict_get j "id" = Some (VInt (top + 1 + Z.of_nat i))) ->
  NoDup (map job_id stored) ->
  NoDup (map job_id (stored ++ added)).
Proof.
  intros Htop Hids Hnd. rewrite map_app. apply NoDup_app. split; [exact Hnd|]. split.
  - intros x Hx Hx'. apply Htop in Hx.
    apply list_elem_of_fmap in Hx' as (j & -> & Hj).
    apply list_elem_of_lookup in Hj as [i Hi].
    rewrite (job_id_of_get _ _ (Hids i j Hi)) in Hx. lia.
  - apply NoDup_alt. intros i i' x Hi Hi'.
    rewrite list_lookup_fmap in Hi, Hi'.
    destruct (added !! i) as [j|] eqn:Ej; [|discriminate].
    destruct (added !! i') as [j'|] eqn:Ej'; [|discriminate].
    simpl in Hi, Hi'. injection Hi as <-. injection Hi' as Hi'.
    rewrite (job_id_of_get _ _ (Hids i j Ej)) in Hi'.
    rewrite (job_id_of_get _ _ (Hids i' j' Ej')) in Hi'. lia.
Qed.

End IdFacts.

(** ** What becomes of each candidate *)

Section MergeReach.

Variable today : string.

Lemma run_candidates_keys cands st :
  existing_keys (run_candidates today cands st)
  = existing_keys st ∪ list_to_set (map (fun qr => candidate_key (snd qr)) cands).
Proof.
  revert st. induction cands as [|[q r] cands IH]; intros st; simpl.
  - now rewrite (right_id_L ∅ (∪)).
  - change (fold_left (fun st qr => result_step (fst qr) today st (snd qr))
              cands (result_step q today st r))
      with (run_candidates today cands (result_step q today st r)).
    rewrite IH, result_step_keys. fold (candidate_key r). set_solver.
Qed.

(** The records a stretch of the loop appends have keys that were not in
    the key set when it started. *)
Lemma run_candidates_added_fresh cands st :
  exists added,
    new_jobs (run_candidates today cands st) = (new_jobs st ++ added)%list
    /\ Forall (fun j => job_key j ∉ existing_keys st) added.
Proof.
  revert st. induction cands as [|[q r] cands IH]; intros st.
  - exists []. split; [now rewrite app_nil_r | constructor].
  - change (run_candidates today ((q, r) :: cands) st)
      with (run_candidates today cands (result_step q today st r)).
    destruct (IH (result_step q today st r)) as (added & Hnew & Hfresh).
    destruct (result_step_cases today q st r)
      as [[_ Heq]|[(_ & _ & Heq)|(Hout & _ & Heq)]];
      rewrite Heq in Hnew, Hfresh |- *;
      cbn [new_jobs existing_keys] in Hnew, Hfresh.
    + exists added. split; assumption.
    + exists added. split; [exact Hnew|].
      eapply Forall_impl; [exact Hfresh|]. cbv beta. set_solver.
    + exists (new_job (next_id st) r (candidate_score r) q today :: added).
      split; [now rewrite Hnew, <- app_assoc|].
      constructor; [now rewrite job_key_new|].
      eapply Forall_impl; [exact Hfresh|]. cbv beta. set_solver.
Qed.

(** A candidate whose key is neither stored nor that of an earlier
    candidate is decided by its score alone: at 70 or above its record is
    among the records of the run, below 70 no record of the run has its
    key. *)
Lemma fresh_candidate_fate existing pre query r post :
  candidate_key r ∉ map job_key existing ->
  (forall query' r', (query', r') ∈ pre -> candidate_key r' <> candidate_key r) ->
  let st := run_candidates today pre (initial_state existing) in
  let final := run_candidates today (pre ++ (query, r) :: post)
                 (initial_state existing) in
  (70 <= candidate_score r ->
   new_job (next_id st) r (candidate_score r) query today ∈ new_jobs final)
  /\ (candidate_score r < 70 ->
      forall j, j ∈ new_jobs final -> job_key j <> candidate_key r).
Proof.
  intros Hstored Hpre st final.
  assert (Hout : candidate_key r ∉ existing_keys st).
  { unfold st. rewrite run_candidates_keys. cbn [initial_state existing_keys].
    intros [Hin|Hin]%elem_of_union.
    - now apply elem_of_list_to_set in Hin.
    - apply elem_of_list_to_set, list_elem_of_fmap in Hin
        as ([q' r'] & Hk & Hin).
      exact (Hpre q' r' Hin (eq_sym Hk)). }
  assert (Hfinal : final = run_candidates today post (result_step query today st r)).
  { unfold final. now rewrite run_candidates_app. }
  destruct (result_step_cases today query st r)
    as [[Hin _]|[(_ & Hlow & Heq)|(_ & Hhigh & Heq)]];
    [contradiction| |]; fold (candidate_key r) in Heq.
  - split; [lia|]. intros _ j Hj.
    destruct (run_candidates_added_fresh post (result_step query today st r))
      as (added2 & Hnew2 & Hfresh2).
    rewrite <- Hfinal, Heq in Hnew2. rewrite Heq in Hfresh2.
    cbn [new_jobs existing_keys] in Hnew2, Hfresh2.
    rewrite Hnew2 in Hj. apply elem_of_app in Hj as [Hj|Hj].
    + destruct (run_candidates_grown today pre (initial_state existing))
        as (added1 & Hnew1 & _ & _ & _ & Hkeys1).
      fold st in Hnew1, Hkeys1. cbn [initial_state new_jobs] in Hnew1.
      rewrite Hnew1 in Hj. cbn [app] in Hj.
      apply (proj1 (Forall_forall _ _) Hkeys1) in Hj.
      intros Heqk. rewrite Heqk in Hj. contradiction.
    + apply (proj1 (Forall_forall _ _) Hfresh2) in Hj.
      intros Heqk. apply Hj. rewrite Heqk. set_solver.
  - split; [|lia]. intros _.
    destruct (run_candidates_new_jobs_prefix today post
                (result_step query today st r)) as (more & Hmore).
    rewrite <- Hfinal, Heq in Hmore. cbn [new_jobs] in Hmore.
    rewrite Hmore. apply elem_of_app. left. apply elem_of_app. right.
    now apply list_elem_of_singleton.
Qed.

(** The loop appends the records of the accepted candidates, numbered
    from its next id. *)
Lemma run_candidates_accepts cands st seen :
  (forall k, k ∈ existing_keys st <-> k ∈ seen) ->
  new_jobs (run_candidates today cands st)
  = (new_jobs st ++ numbered today (next_id st) (accepted_from seen cands))%list.
Proof.
  revert st seen. induction cands as [|[q r] cands IH]; intros st seen Hseen.
  - simpl. now rewrite app_nil_r.
  - change (run_candidates today ((q, r) :: cands) st)
      with (run_candidates today cands (result_step q today st r)).
    assert (Hex : existsb (String.eqb (candidate_key r)) seen = true
                  <-> candidate_key r ∈ existing_keys st).
    { rewrite Hseen, existsb_exists. split.
      - intros (k & Hin & ->%String.eqb_eq). now apply list_elem_of_In.
      - intros Hin. exists (candidate_key r).
        split; [now apply list_elem_of_In | apply String.eqb_refl]. }
    assert (Hseen' : forall k, k ∈ {[candidate_key r]} ∪ existing_keys st
                               <-> k ∈ candidate_key r :: seen).
    { intros k. rewrite elem_of_union, elem_of_singleton, elem_of_cons, Hseen.
      reflexivity. }
    cbn [accepted_from].
    destruct (result_step_cases today q st r)
      as [[Hin Heq]|[(Hout & Hlow & Heq)|(Hout & Hhigh & Heq)]];
      fold (candidate_key r) in *; rewrite Heq.
    + rewrite (proj2 Hex Hin). now apply IH.
    + assert (E : existsb (String.eqb (candidate_key r)) seen = false)
        by (apply not_true_is_false; intros E; now apply Hex in E).
      rewrite E, (proj2 (Z.ltb_lt _ _) Hlow).
      now rewrite (IH _ (candidate_key r :: seen)) by exact Hseen'.
    + assert (E : existsb (String.eqb (candidate_key r)) seen = false)
        by (apply not_true_is_false; intros E; now apply Hex in E).
      rewrite E, (proj2 (Z.ltb_ge _ _) Hhigh).
      rewrite (IH _ (candidate_key r :: seen)) by exact Hseen'.
      cbn [new_jobs next_id numbered]. now rewrite <- app_assoc.
Qed.

Lemma merged_accepts feed existing :
  new_jobs (merged today feed existing)
  = numbered today (py_max (map job_id existing) 100 + 1)
      (accepted_from (map job_key existing) (candidates feed)).
Proof.
  unfold merged.
  rewrite (run_candidates_accepts _ _ (map job_key existing)).
  - reflexivity.
  - intros k. cbn [initial_state existing_keys]. apply elem_of_list_to_set.
Qed.

Lemma numbered_lookup start accepted (i : nat) query r :
  accepted !! i = Some (query, r) ->
  numbered today start accepted !! i
  = Some (new_job (start + Z.of_nat i) r (candidate_score r) query today).
Proof.
  revert start i. induction accepted as [|[q' r'] accepted IH];
    intros start [|i] H; try discriminate.
  - injection H as -> ->. simpl. now rewrite Z.add_0_r.
  - simpl in H. cbn [numbered]. rewrite lookup_cons.
    rewrite (IH (start + 1) i H).
    now replace (start + 1 + Z.of_nat i) with (start + Z.of_nat (S i)) by lia.
Qed.

Lemma numbered_length start accepted :
  length (numbered today start accepted) = length accepted.
Proof.
  revert start. induction accepted as [|[q r] accepted IH]; intros start;
    [reflexivity|]. simpl. now rewrite IH.
Qed.

End MergeReach.

(** ** Merge *)

(** C2. A candidate whose key is not yet present is appended exactly when
    its score is at least 70: one scoring 69 is left out, one scoring 70
    goes in. In a run: a candidate whose key is neither a stored key nor
    the key of an earlier candidate has its record in the saved
    collection when it scores at least 70, and when it scores less no
    saved record has its key; every record the run appends carries a
    score of at least 70. *)
Theorem acceptance_threshold (json_load : string -> option (list job))
    (w : world) :
  forallb key_typed (loaded json_load w) = true ->
  forallb id_typed (loaded json_load w) = true ->
  data_writable w = true ->
  (forall query today st r,
     deduplicate_key (r_title r) (r_company r) ∉ existing_keys st ->
     new_jobs (result_step query today st r)
     = if bool_decide (70 <= candidate_score r)
       then (new_jobs st
             ++ [new_job (next_id st) r (candidate_score r) query today])%list
       else new_jobs st)
  /\ (candidate_score Sample.r69 = 69 /\
      forall query today st,
        deduplicate_key (r_title Sample.r69) (r_company Sample.r69)
          ∉ existing_keys st ->
        new_jobs (result_step query today st Sample.r69) = new_jobs st)
  /\ (candidate_score Sample.r70 = 70 /\
      forall query today st,
        deduplicate_key (r_title Sample.r70) (r_company Sample.r70)
          ∉ existing_keys st ->
        new_jobs (result_step query today st Sample.r70)
        = (new_jobs st ++ [new_job (next_id st) Sample.r70 70 query today])%list)
  /\ exists added w',
       search_all json_load w
       = Return ((map (mark_is_new (today w)) (loaded json_load w) ++ added)%list,
                 length added) w'
       /\ data_file w'
          = Text (Json.dumps
                    (map (mark_is_new (today w)) (loaded json_load w) ++ added)%list)
       /\ Forall score_accepted added
       /\ (forall pre query r post,
             candidates (indeed w) = (pre ++ (query, r) :: post)%list ->
             candidate_key r ∉ map job_key (loaded json_load w) ->
             (forall query' r', (query', r') ∈ pre ->
                candidate_key r' <> candidate_key r) ->
             (70 <= candidate_score r ->
              exists id,
                new_job id r (candidate_score r) query (today w) ∈ added)
             /\ (candidate_score r < 70 ->
                 forall j,
                   j ∈ (map (mark_is_new (today w)) (loaded json_load w)
                        ++ added)%list ->
                   job_key j <> candidate_key r)).
Proof.
  intros Hk Hi Hw.
  assert (Hstep : forall query today st r,
     deduplicate_key (r_title r) (r_company r) ∉ existing_keys st ->
     new_jobs (result_step query today st r)
     = if bool_decide (70 <= candidate_score r)
       then (new_jobs st
             ++ [new_job (next_id st) r (candidate_score r) query today])%list
       else new_jobs st).
  { intros query today st r Hout. rewrite (result_step_fresh _ _ _ _ Hout).
    cbv zeta. destruct (bool_decide (70 <= candidate_score r)); reflexivity. }
  split; [exact Hstep|]. split; [|split].
  - split; [reflexivity|]. intros query today st Hout.
    now rewrite (Hstep _ _ _ _ Hout).
  - split; [reflexivity|]. intros query today st Hout.
    now rewrite (Hstep _ _ _ _ Hout).
  - exists (new_jobs (merged (today w) (indeed w) (loaded json_load w))).
    eexists. split; [apply (search_all_returns json_load w Hk Hi Hw)|].
    split; [reflexivity|].
    destruct (merged_added (today w) (indeed w) (loaded json_load w)) as [_ Hacc].
    split; [eapply Forall_impl; [exact Hacc|]; apply accepted_on_score|].
    intros pre query r post Hcands Hstored Hpre.
    destruct (fresh_candidate_fate (today w) (loaded json_load w)
                pre query r post Hstored Hpre) as [Hin Hno].
    unfold merged. rewrite Hcands. split.
    + intros Hge. eexists. exact (Hin Hge).
    + intros Hlt j [Hj|Hj]%elem_of_app.
      * apply list_elem_of_fmap in Hj as (j0 & -> & Hj0).
        rewrite job_key_mark. intros Heq. apply Hstored. rewrite <- Heq.
        apply list_elem_of_fmap. eauto.
      * exact (Hno Hlt j Hj).
Qed.

(** In the sample run the candidate scoring 70 is saved and the one
    scoring 69 is not. *)
Lemma acceptance_threshold_witness :
  exists added w',
    search_all Sample.json_load Sample.w
    = Return ((map (mark_is_new (today Sample.w))
                 (loaded Sample.json_load Sample.w) ++ added)%list,
              length added) w'
    /\ (exists id,
          new_job id Sample.r70 70 "CFO fintech remote" "01/02/2024" ∈ added)
    /\ (forall j,
          j ∈ (map (mark_is_new (today Sample.w))
                 (loaded Sample.json_load Sample.w) ++ added)%list ->
          job_key j <> candidate_key Sample.r69).
Proof.
  destruct (acceptance_threshold Sample.json_load Sample.w
              eq_refl eq_refl eq_refl)
    as (_ & _ & _ & added & w' & Hrun & _ & _ & Hfate).
  exists added, w'. split; [exact Hrun|]. split.
  - refine (proj1 (Hfate [] "CFO fintech remote" Sample.r70 _ eq_refl _ _)
              _).
    + vm_compute. intros [H|H]%elem_of_cons; [discriminate H|].
      now apply not_elem_of_nil in H.
    + now intros q' r' H%not_elem_of_nil.
    + vm_compute. discriminate.
  - refine (proj2 (Hfate [("CFO fintech remote", Sample.r70)]
                     "CFO fintech remote" Sample.r69 _ eq_refl _ _) _).
    + vm_compute. intros [H|H]%elem_of_cons; [discriminate H|].
      now apply not_elem_of_nil in H.
    + intros q' r' [=H1 H2]%list_elem_of_singleton. subst r'.
      vm_compute. discriminate.
    + vm_compute. reflexivity.
Defined.

(** C3. Merging the same candidates into the collection a merge produced
    adds no record; and within one merge a candidate whose key is that of
    a stored record, or of a candidate accepted earlier in the run (from
    this query or an earlier one), is skipped. *)
Theorem merge_idempotent (json_load : string -> option (list job))
    (w w2 : world) :
  forallb key_typed (loaded json_load w) = true ->
  forallb id_typed (loaded json_load w) = true ->
  data_writable w = true ->
  loaded json_load w2
    = all_jobs_of (today w) (indeed w) (loaded json_load w) ->
  (forall query, indeed w2 query = indeed w query) ->
  data_writable w2 = true ->
  (exists n w',
     search_all json_load w
     = Return (all_jobs_of (today w) (indeed w) (loaded json_load w), n) w')
  /\ (exists w2',
        search_all json_load w2
        = Return (map (mark_is_new (today w2))
                    (all_jobs_of (today w) (indeed w) (loaded json_load w)),
                  0%nat) w2')
  /\ (forall pre query r post,
        candidates (indeed w) = (pre ++ (query, r) :: post)%list ->
        let st := run_candidates (today w) pre
                    (initial_state (loaded json_load w)) in
        (deduplicate_key (r_title r) (r_company r)
           ∈ map job_key (loaded json_load w)
         \/ exists j, j ∈ new_jobs st /\
              job_key j = deduplicate_key (r_title r) (r_company r)) ->
        result_step query (today w) st r = st).
Proof.
  intros Hk Hi Hw Hload Hfeed Hw2. split; [|split].
  - eexists. eexists. apply (search_all_returns json_load w Hk Hi Hw).
  - destruct (all_jobs_typed (today w) (indeed w) (loaded json_load w) Hk Hi)
      as [Hk2 Hi2].
    rewrite <- Hload in Hk2, Hi2.
    rewrite (search_all_returns json_load w2 Hk2 Hi2 Hw2).
    unfold all_jobs_of at 1. unfold merged.
    rewrite (candidates_ext _ _ Hfeed). fold (merged (today w2) (indeed w)
      (loaded json_load w2)).
    rewrite Hload, merged_again, app_nil_r. simpl. eexists. reflexivity.
  - intros pre query r post _ st Hseen.
    apply result_step_seen.
    destruct (run_candidates_grown (today w) pre
                (initial_state (loaded json_load w)))
      as (added & Hnew & _ & _ & _ & Hkeys).
    fold st in Hnew, Hkeys. simpl in Hnew.
    destruct Hseen as [Hin|(j & Hj & <-)].
    + apply (run_candidates_keys_mono (today w) pre). simpl.
      now apply elem_of_list_to_set.
    + rewrite Hnew in Hj.
      exact (proj1 (Forall_forall _ _) Hkeys j Hj).
Qed.

Lemma merge_idempotent_witness :
  exists w2',
    search_all Sample.json_load Sample.w_next_day
    = Return (map (mark_is_new (today Sample.w_next_day))
                (all_jobs_of (today Sample.w) (indeed Sample.w)
                   (loaded Sample.json_load Sample.w)),
              0%nat) w2'.
Proof.
  apply (merge_idempotent Sample.json_load Sample.w Sample.w_next_day);
    reflexivity.
Defined.

(** C4. After a run every record of the saved collection has [isNew]
    equal to whether its [discovered] date is today's date string: a
    record discovered "01/01/2024" is not new on "01/02/2024", and the
    records accepted in the run, stamped with today, are new. *)
Theorem is_new_recomputed (json_load : string -> option (list job))
    (w : world) :
  forallb key_typed (loaded json_load w) = true ->
  forallb id_typed (loaded json_load w) = true ->
  data_writable w = true ->
  dict_get
    (mark_is_new "01/02/2024"
       [("discovered", VStr "01/01/2024"); ("isNew", VBool true)]) "isNew"
  = Some (VBool false)
  /\ exists added w',
       search_all json_load w
       = Return ((map (mark_is_new (today w)) (loaded json_load w) ++ added)%list,
                 length added) w'
       /\ data_file w'
          = Text (Json.dumps
                    (map (mark_is_new (today w)) (loaded json_load w) ++ added)%list)
       /\ Forall
            (fun j : job =>
               dict_get j "isNew"
               = Some (VBool (bool_decide
                                (dict_get_default j "discovered" (VStr "")
                                 = VStr (today w)))))
            (map (mark_is_new (today w)) (loaded json_load w) ++ added)%list
       /\ Forall
            (fun j : job =>
               dict_get j "discovered" = Some (VStr (today w)) /\
               dict_get j "isNew" = Some (VBool true))
            added.
Proof.
  intros Hk Hi Hw. split; [reflexivity|].
  exists (new_jobs (merged (today w) (indeed w) (loaded json_load w))).
  eexists. split; [apply (search_all_returns json_load w Hk Hi Hw)|].
  split; [reflexivity|].
  destruct (merged_added (today w) (indeed w) (loaded json_load w)) as [_ Hacc].
  assert (Hnew : Forall
            (fun j : job =>
               dict_get j "discovered" = Some (VStr (today w)) /\
               dict_get j "isNew" = Some (VBool true))
            (new_jobs (merged (today w) (indeed w) (loaded json_load w)))).
  { eapply Forall_impl; [exact Hacc|]. intros j Hj.
    apply accepted_on_new in Hj as [Hn Hd]. auto. }
  split; [|exact Hnew].
  apply Forall_app. split.
  - apply Forall_forall. intros j' Hj'.
    apply list_elem_of_fmap in Hj' as (j & -> & _).
    rewrite mark_is_new_flag.
    now rewrite mark_is_new_default by discriminate.
  - eapply Forall_impl; [exact Hnew|]. intros j [Hd Hn].
    rewrite Hn. unfold dict_get_default. rewrite Hd.
    now rewrite bool_decide_eq_true_2.
Qed.

Lemma is_new_recomputed_witness :
  exists added w',
    search_all Sample.json_load Sample.w
    = Return ((map (mark_is_new (today Sample.w))
                 (loaded Sample.json_load Sample.w) ++ added)%list,
              length added) w'
    /\ data_file w'
       = Text (Json.dumps
                 (map (mark_is_new (today Sample.w))
                    (loaded Sample.json_load Sample.w) ++ added)%list)
    /\ Forall
         (fun j : job =>
            dict_get j "isNew"
            = Some (VBool (bool_decide
                             (dict_get_default j "discovered" (VStr "")
                              = VStr (today Sample.w)))))
         (map (mark_is_new (today Sample.w))
            (loaded Sample.json_load Sample.w) ++ added)%list
    /\ Forall
         (fun j : job =>
            dict_get j "discovered" = Some (VStr (today Sample.w)) /\
            dict_get j "isNew" = Some (VBool true))
         added.
Proof.
  apply (is_new_recomputed Sample.json_load Sample.w); reflexivity.
Defined.

(** C5. The records a run appends are the records of its accepted
    candidates, in the order of acceptance, with the ids max + 1,
    max + 2, ..., where max is the largest stored id, or 100 when nothing
    is stored: the i-th accepted candidate (counting from 0) gets the id
    max + 1 + i. The ids increase strictly along the appended records;
    when the stored records each carry an id of their own, the ids of
    the whole resulting collection are distinct; and the first candidate
    accepted into an empty collection gets the id 101. *)
Theorem ids_sequential_unique (json_load : string -> option (list job))
    (w : world) :
  forallb key_typed (loaded json_load w) = true ->
  forallb id_typed (loaded json_load w) = true ->
  data_writable w = true ->
  let accepted :=
    accepted_from (map job_key (loaded json_load w)) (candidates (indeed w)) in
  let top := py_max (map job_id (loaded json_load w)) 100 in
  exists added w',
    search_all json_load w
    = Return ((map (mark_is_new (today w)) (loaded json_load w) ++ added)%list,
              length added) w'
    /\ added = numbered (today w) (top + 1) accepted
    /\ length added = length accepted
    /\ (forall (i : nat) query r, accepted !! i = Some (query, r) ->
          added !! i
          = Some (new_job (top + 1 + Z.of_nat i) r (candidate_score r)
                    query (today w)))
    /\ (forall (i : nat) j, added !! i = Some j ->
          dict_get j "id" = Some (VInt (top + 1 + Z.of_nat i)))
    /\ (forall (i i' : nat) j j', (i < i')%nat ->
          added !! i = Some j -> added !! i' = Some j' ->
          job_id j < job_id j')
    /\ (Forall (fun j : job => exists n, dict_get j "id" = Some (VInt n))
          (loaded json_load w) ->
        NoDup (map job_id (loaded json_load w)) ->
        NoDup (map job_id
                 (map (mark_is_new (today w)) (loaded json_load w) ++ added)%list)
        /\ Forall (fun j : job => exists n, dict_get j "id" = Some (VInt n))
             (map (mark_is_new (today w)) (loaded json_load w) ++ added)%list)
    /\ (loaded json_load w = [] ->
        forall query r rest, accepted = (query, r) :: rest ->
          added !! 0%nat
          = Some (new_job 101 r (candidate_score r) query (today w))).
Proof.
  intros Hk Hi Hw. cbv zeta.
  exists (new_jobs (merged (today w) (indeed w) (loaded json_load w))).
  eexists. split; [apply (search_all_returns json_load w Hk Hi Hw)|].
  destruct (merged_added (today w) (indeed w) (loaded json_load w)) as [Hids _].
  cbv zeta in Hids.
  pose proof (merged_accepts (today w) (indeed w) (loaded json_load w)) as Hacc.
  split; [exact Hacc|].
  split; [rewrite Hacc; apply numbered_length|].
  split; [intros i query r Hl; rewrite Hacc; now apply numbered_lookup|].
  split; [exact Hids|]. split; [|split].
  - intros i i' j j' Hlt Hj Hj'.
    rewrite (job_id_of_get _ _ (Hids i j Hj)).
    rewrite (job_id_of_get _ _ (Hids i' j' Hj')). lia.
  - intros Hcarry Hnd. split.
    + apply ids_fresh with (top := py_max (map job_id (loaded json_load w)) 100).
      * intros x Hx. rewrite map_job_id_mark in Hx. now apply py_max_ge.
      * exact Hids.
      * now rewrite map_job_id_mark.
    + apply Forall_app. split.
      * apply Forall_forall. intros j' Hj'.
        apply list_elem_of_fmap in Hj' as (j & -> & Hj).
        destruct (proj1 (Forall_forall _ _) Hcarry j Hj) as [n Hn].
        exists n. now rewrite mark_is_new_frame by discriminate.
      * apply Forall_forall. intros j Hj.
        apply list_elem_of_lookup in Hj as [i Hi'].
        eexists. exact (Hids i j Hi').
  - intros Hempty query r rest Hfirst.
    rewrite Hacc, Hempty. rewrite Hempty in Hfirst.
    cbn [map] in Hfirst |- *. rewrite Hfirst. reflexivity.
Qed.

(** The sample feed merged into a store whose one record has the id 7,
    and into no store at all: two candidates are accepted, and they get
    the ids 8 and 9 in the first case, 101 and 102 in the second. *)
Lemma ids_sequential_unique_witness :
  (exists w',
     search_all Sample.json_load Sample.w
     = Return ([mark_is_new "01/02/2024" Sample.stored;
                new_job 8 Sample.r70 70 "CFO fintech remote" "01/02/2024";
                new_job 9 (Sample.item "VP Finance Transformation" "Stripe") 85
                  "VP Finance fintech remote" "01/02/2024"], 2%nat) w')
  /\ (exists w',
        search_all Sample.json_load Cases.w_first_run
        = Return ([new_job 101 Sample.r70 70 "CFO fintech remote" "01/02/2024";
                   new_job 102 (Sample.item "VP Finance Transformation" "Stripe")
                     85 "VP Finance fintech remote" "01/02/2024"], 2%nat) w').
Proof.
  split.
  - destruct (ids_sequential_unique Sample.json_load Sample.w
                eq_refl eq_refl eq_refl) as (added & w' & Hrun & Hadded & _).
    exists w'. rewrite Hrun, Hadded. reflexivity.
  - destruct (ids_sequential_unique Sample.json_load Cases.w_first_run
                eq_refl eq_refl eq_refl) as (added & w' & Hrun & Hadded & _).
    exists w'. rewrite Hrun, Hadded. reflexivity.
Defined.

(** C9. A run changes nothing but [isNew] in the records that were stored
    before it, status and notes included; the resulting collection is the
    stored records in their order followed by the newly accepted ones. *)
Theorem existing_records_preserved (json_load : string -> option (list job))
    (w : world) :
  forallb key_typed (loaded json_load w) = true ->
  forallb id_typed (loaded json_load w) = true ->
  data_writable w = true ->
  exists added w',
    search_all json_load w
    = Return ((map (mark_is_new (today w)) (loaded json_load w) ++ added)%list,
              length added) w'
    /\ data_file w'
       = Text (Json.dumps
                 (map (mark_is_new (today w)) (loaded json_load w) ++ added)%list)
    /\ Forall (accepted_on (today w)) added
    /\ (forall (i : nat) j, loaded json_load w !! i = Some j ->
          (map (mark_is_new (today w)) (loaded json_load w) ++ added)%list !! i
          = Some (mark_is_new (today w) j))
    /\ (forall (j : job) k, k <> "isNew" ->
          dict_get (mark_is_new (today w) j) k = dict_get j k)
    /\ (forall j : job,
          dict_get (mark_is_new (today w) j) "status" = dict_get j "status" /\
          dict_get (mark_is_new (today w) j) "notes" = dict_get j "notes").
Proof.
  intros Hk Hi Hw.
  exists (new_jobs (merged (today w) (indeed w) (loaded json_load w))).
  eexists. split; [apply (search_all_returns json_load w Hk Hi Hw)|].
  split; [reflexivity|].
  split; [apply (merged_added (today w) (indeed w) (loaded json_load w))|].
  split; [|split].
  - intros i j Hj. rewrite lookup_app_l.
    + rewrite list_lookup_fmap, Hj. reflexivity.
    + rewrite length_map. now apply lookup_lt_Some in Hj.
  - intros j k Hk'. now apply mark_is_new_frame.
  - intros j. split; apply mark_is_new_frame; discriminate.
Qed.

Lemma existing_records_preserved_witness :
  exists added w',
    search_all Sample.json_load Sample.w
    = Return ((map (mark_is_new (today Sample.w))
                 (loaded Sample.json_load Sample.w) ++ added)%list,
              length added) w'
    /\ data_file w'
       = Text (Json.dumps
                 (map (mark_is_new (today Sample.w))
                    (loaded Sample.json_load Sample.w) ++ added)%list)
    /\ Forall (accepted_on (today Sample.w)) added
    /\ (forall (i : nat) j, loaded Sample.json_load Sample.w !! i = Some j ->
          (map (mark_is_new (today Sample.w))
             (loaded Sample.json_load Sample.w) ++ added)%list !! i
          = Some (mark_is_new (today Sample.w) j))
    /\ (forall (j : job) k, k <> "isNew" ->
          dict_get (mark_is_new (today Sample.w) j) k = dict_get j k)
    /\ (forall j : job,
          dict_get (mark_is_new (today Sample.w) j) "status"
          = dict_get j "status" /\
          dict_get (mark_is_new (today Sample.w) j) "notes"
          = dict_get j "notes").
Proof.
  apply (existing_records_preserved Sample.json_load Sample.w);
    reflexivity.
Defined.

(** ** Store *)

Section StoreFacts.

Variable json_load : string -> option (list job).

Lemma save_data_read_only jobs w :
  data_writable w = false -> save_data jobs w = Raise OSError w.
Proof. intros Hw. unfold save_data, write_text. simpl. now rewrite Hw. Qed.

Lemma save_data_writable jobs w :
  data_writable w = true ->
  save_data jobs w = Return tt (put_file DATA_PATH (Json.dumps jobs) w).
Proof. intros Hw. unfold save_data, write_text. simpl. now rewrite Hw. Qed.

(** Nothing in [main] catches what [search_all] raises. *)
Lemma main_propagates w e w' :
  search_all json_load w = Raise e w' -> main json_load w = Raise e w'.
Proof. intros H. unfold main. unfold bind at 1. now rewrite H. Qed.

Lemma search_all_read_only w :
  data_writable w = false -> exists e, search_all json_load w = Raise e w.
Proof.
  intros Hw. rewrite search_all_run. cbv zeta. rewrite Hw.
  destruct (forallb key_typed (loaded json_load w)); cbn [negb]; [|eauto].
  destruct (forallb id_typed (loaded json_load w)); cbn [negb]; eauto.
Qed.

End StoreFacts.

(** C7. Loading never raises: it yields the empty collection when the data
    file is absent, unreadable or does not parse. A failed write is not
    caught: it leaves [save_data], [search_all] and [main] as an
    exception. *)
Theorem store_failure_asymmetry (json_load : string -> option (list job))
    (w : world) :
  (exists jobs, load_existing_data json_load w = Return jobs w)
  /\ (data_file w = Absent -> load_existing_data json_load w = Return [] w)
  /\ (data_file w = Unreadable -> load_existing_data json_load w = Return [] w)
  /\ (forall text, data_file w = Text text -> json_load text = None ->
        load_existing_data json_load w = Return [] w)
  /\ (data_writable w = false ->
        (forall jobs, save_data jobs w = Raise OSError w)
        /\ (exists e, search_all json_load w = Raise e w
                      /\ main json_load w = Raise e w)
        /\ (forallb key_typed (loaded json_load w) = true ->
            forallb id_typed (loaded json_load w) = true ->
            search_all json_load w = Raise OSError w
            /\ main json_load w = Raise OSError w)).
Proof.
  split; [|split; [|split; [|split]]].
  - eexists. apply load_existing_data_run.
  - intros H. rewrite load_existing_data_run. unfold loaded. now rewrite H.
  - intros H. rewrite load_existing_data_run. unfold loaded. now rewrite H.
  - intros text H Hp. rewrite load_existing_data_run. unfold loaded.
    now rewrite H, Hp.
  - intros Hw. split; [|split].
    + intros jobs. now apply save_data_read_only.
    + destruct (search_all_read_only json_load w Hw) as [e He].
      exists e. split; [exact He | now apply main_propagates].
    + intros Hk Hi.
      assert (He : search_all json_load w = Raise OSError w).
      { rewrite search_all_run. cbv zeta. now rewrite Hk, Hi, Hw. }
      split; [exact He | now apply main_propagates].
Qed.

Lemma store_failure_asymmetry_witness :
  (forall jobs, save_data jobs Sample.w_read_only
                = Raise OSError Sample.w_read_only)
  /\ (exists e, search_all Sample.json_load Sample.w_read_only
                = Raise e Sample.w_read_only
                /\ main Sample.json_load Sample.w_read_only
                   = Raise e Sample.w_read_only)
  /\ (forallb key_typed (loaded Sample.json_load Sample.w_read_only) = true ->
      forallb id_typed (loaded Sample.json_load Sample.w_read_only) = true ->
      search_all Sample.json_load Sample.w_read_only
      = Raise OSError Sample.w_read_only
      /\ main Sample.json_load Sample.w_read_only
         = Raise OSError Sample.w_read_only).
Proof.
  apply (store_failure_asymmetry Sample.json_load Sample.w_read_only).
  reflexivity.
Defined.

(** ** Publisher *)

Section PublisherFacts.

Lemma prefix_skip needle hay :
  String.prefix needle hay = true ->
  hay = needle ++ Re.skip (String.length needle) hay.
Proof.
  revert hay. induction needle as [|c needle IH]; intros hay H.
  - destruct hay; reflexivity.
  - destruct hay as [|d hay]; simpl in H; [discriminate|].
    destruct (ascii_dec c d) as [->|]; [|discriminate].
    exact (f_equal (String d) (IH hay H)).
Qed.

Lemma split_at_unfold needle hay :
  Re.split_at needle hay
  = if String.prefix needle hay
    then Some ("", Re.skip (String.length needle) hay)
    else match hay with
         | EmptyString => None
         | String c hay' =>
             match Re.split_at needle hay' with
             | Some (before, after) => Some (String c before, after)
             | None => None
             end
         end.
Proof. destruct hay; reflexivity. Qed.

Lemma split_at_correct needle hay before after :
  Re.split_at needle hay = Some (before, after) ->
  hay = before ++ needle ++ after.
Proof.
  revert before. induction hay as [|c hay IH]; intros before;
    rewrite split_at_unfold;
    (destruct (String.prefix needle _) eqn:Hp;
     [intros [= <- <-]; now apply prefix_skip in Hp|]).
  - discriminate.
  - destruct (Re.split_at needle hay) as [[b a]|]; [|discriminate].
    intros [= <- <-]. exact (f_equal (String c) (IH b eq_refl)).
Qed.

Lemma string_app_assoc (a b c : string) : (a ++ b) ++ c = a ++ b ++ c.
Proof.
  induction a as [|x a IH]; [reflexivity | exact (f_equal (String x) IH)].
Qed.

(** A leftmost match is an occurrence of the pattern. *)
Lemma first_match_placeholder s before matched after :
  Re.first_match s = Some (before, matched, after) -> Re.has_placeholder s.
Proof.
  unfold Re.first_match.
  destruct (Re.split_at Re.opening s) as [[b rest]|] eqn:Ho; [|discriminate].
  destruct (Re.split_at Re.closing rest) as [[inner a]|] eqn:Hc; [|discriminate].
  intros _. apply split_at_correct in Ho, Hc. subst rest.
  exists b, inner, a. exact Ho.
Qed.

Lemma string_length_app (a b : string) :
  String.length (a ++ b) = (String.length a + String.length b)%nat.
Proof.
  induction a as [|x a IH]; [reflexivity | exact (f_equal S IH)].
Qed.

(** What is left after a match is shorter than the text. *)
Lemma first_match_shorter s before matched after :
  Re.first_match s = Some (before, matched, after) ->
  (String.length after < String.length s)%nat.
Proof.
  unfold Re.first_match.
  destruct (Re.split_at Re.opening s) as [[b rest]|] eqn:Ho; [|discriminate].
  destruct (Re.split_at Re.closing rest) as [[inner a]|] eqn:Hc; [|discriminate].
  intros [= _ _ <-]. apply split_at_correct in Ho, Hc. subst rest s.
  rewrite !string_length_app. simpl. lia.
Qed.

(** The rounds of [sub_loop] never run out: any bound from the length of
    the text upwards gives the same result. *)
Lemma sub_loop_fuel ps fuel fuel' s :
  (String.length s <= fuel)%nat -> (String.length s <= fuel')%nat ->
  Re.sub_loop fuel ps s = Re.sub_loop fuel' ps s.
Proof.
  revert fuel' s. induction fuel as [|fuel IH]; intros fuel' s Hf Hf'.
  - destruct s; [|simpl in Hf; lia]. destruct fuel'; reflexivity.
  - destruct fuel' as [|fuel'].
    + destruct s; [reflexivity | simpl in Hf'; lia].
    + simpl. destruct (Re.first_match s) as [[[b m] a]|] eqn:Hm; [|reflexivity].
      apply first_match_shorter in Hm.
      rewrite (IH fuel' a) by lia. reflexivity.
Qed.

(** The equation [re.sub] satisfies: replace the leftmost match and go on
    behind it. *)
Lemma sub_loop_unfold ps s :
  Re.sub_loop (String.length s) ps s
  = match Re.first_match s with
    | None => s
    | Some (before, matched, after) =>
        before ++ Re.expand ps matched
        ++ Re.sub_loop (String.length after) ps after
    end.
Proof.
  rewrite (sub_loop_fuel ps _ (S (String.length s))) by lia. simpl.
  destruct (Re.first_match s) as [[[b m] a]|] eqn:Hm; [|reflexivity].
  apply first_match_shorter in Hm.
  rewrite (sub_loop_fuel ps (String.length s) (String.length a)) by lia.
  reflexivity.
Qed.

Lemma sub_loop_no_placeholder fuel ps s :
  ~ Re.has_placeholder s -> Re.sub_loop fuel ps s = s.
Proof.
  intros Hno. destruct fuel as [|fuel]; simpl; [reflexivity|].
  destruct (Re.first_match s) as [[[b m] a]|] eqn:Hm; [|reflexivity].
  exfalso. apply Hno. eapply first_match_placeholder, Hm.
Qed.

(** Without the placeholder, and with a replacement the template parser
    accepts, the publisher reports failure and writes nothing. *)
Lemma rebuild_dashboard_no_placeholder jobs w html :
  dashboard_file w = Text html ->
  ~ Re.has_placeholder html ->
  Re.parse_template ("const JOBS = " ++ Json.dumps jobs ++ ";") <> None ->
  rebuild_dashboard jobs w = Return false w.
Proof.
  intros Hf Hno Hp. unfold rebuild_dashboard.
  unfold bind at 1, path_exists. simpl. rewrite Hf. cbn [negb].
  unfold bind at 1, read_text. simpl. rewrite Hf.
  unfold bind at 1, Re.sub.
  destruct (Re.parse_template ("const JOBS = " ++ Json.dumps jobs ++ ";"))
    as [ps|]; [|contradiction].
  unfold ret at 1. rewrite (sub_loop_no_placeholder _ _ _ Hno).
  now rewrite String.eqb_refl.
Qed.

(** With a replacement the template parser rejects, the publisher raises,
    whatever the document holds. *)
Lemma rebuild_dashboard_bad_template jobs w html :
  dashboard_file w = Text html ->
  Re.parse_template ("const JOBS = " ++ Json.dumps jobs ++ ";") = None ->
  rebuild_dashboard jobs w = Raise ReError w.
Proof.
  intros Hf Hp. unfold rebuild_dashboard.
  unfold bind at 1, path_exists. simpl. rewrite Hf. cbn [negb].
  unfold bind at 1, read_text. simpl. rewrite Hf.
  unfold bind at 1, Re.sub. now rewrite Hp.
Qed.

Lemma prefix_app needle rest : String.prefix needle (needle ++ rest) = true.
Proof.
  induction needle as [|c needle IH].
  - destruct rest; reflexivity.
  - change (String c needle ++ rest) with (String c (needle ++ rest)).
    simpl. destruct (ascii_dec c c); [exact IH | contradiction].
Qed.

Lemma contains_unfold needle hay :
  contains needle hay
  = if String.prefix needle hay then true
    else match hay with
         | EmptyString => false
         | String _ hay' => contains needle hay'
         end.
Proof. destruct hay; reflexivity. Qed.

Lemma contains_app needle a b : contains needle (a ++ needle ++ b) = true.
Proof.
  induction a as [|c a IH].
  - change (contains needle (needle ++ b) = true).
    now rewrite contains_unfold, prefix_app.
  - change (contains needle (String c (a ++ needle ++ b)) = true).
    rewrite contains_unfold.
    destruct (String.prefix needle _); [reflexivity | exact IH].
Qed.

Lemma has_placeholder_opening s :
  Re.has_placeholder s -> contains Re.opening s = true.
Proof. intros (a & b & c & ->). apply contains_app. Qed.

End PublisherFacts.

(** C8. On a document without the placeholder the publisher should report
    failure without raising. It does not when a record holds a character
    that [json.dumps] writes as a [\u] escape: the replacement text is
    handed to [re.sub] as a template, the template parser rejects [\u],
    and the exception leaves [rebuild_dashboard] and ends [main]. The
    document is left as it was. Here the record is one the run itself
    accepted from the feed. *)
Theorem rebuild_dashboard_raises_on_unicode_escape :
  ~ Re.has_placeholder Sample.plain_html
  /\ (exists jobs n w',
        search_all Sample.json_load Sample.w_accent = Return (jobs, n) w'
        /\ dashboard_file w' = Text Sample.plain_html
        /\ rebuild_dashboard jobs w' = Raise ReError w')
  /\ (exists w',
        main Sample.json_load Sample.w_accent = Raise ReError w'
        /\ dashboard_file w' = Text Sample.plain_html).
Proof.
  split; [|split].
  - intros H. apply has_placeholder_opening in H. discriminate H.
  - do 3 eexists. split; [vm_compute; reflexivity|].
    split; [reflexivity | vm_compute; reflexivity].
  - eexists. split; [vm_compute; reflexivity | reflexivity].
Qed.

(** * Further properties *)

(** ** Scorer *)

Section ScorerMore.

Lemma lower_char_idem c : lower_char (lower_char c) = lower_char c.
Proof. destruct c as [[] [] [] [] [] [] [] []]; reflexivity. Qed.

Lemma lower_idem s : lower (lower s) = lower s.
Proof.
  induction s as [|c s IH]; simpl; [reflexivity|].
  now rewrite lower_char_idem, IH.
Qed.

Lemma score_of_lower title company location title' company' location' :
  lower title = lower title' ->
  lower company = lower company' ->
  lower location = lower location' ->
  calculate_fit_score title company location
  = calculate_fit_score title' company' location'.
Proof.
  intros Ht Hc Hl. unfold calculate_fit_score. now rewrite Ht, Hc, Hl.
Qed.

End ScorerMore.

(** X1. No candidate is accepted on its company and the remote bonus
    alone: acceptance needs title keywords worth at least 17 points (22
    when the title does not say "remote"), and a title without any
    keyword scores at most 53. *)
Theorem acceptance_needs_keywords (r : feed_item) :
  (70 <= candidate_score r -> 17 <= keyword_points (r_title r))
  /\ (70 <= candidate_score r ->
      contains "remote" (lower (r_title r)) = false ->
      22 <= keyword_points (r_title r))
  /\ (keyword_points (r_title r) = 0 -> candidate_score r <= 53).
Proof.
  unfold candidate_score. rewrite calculate_fit_score_spec.
  unfold spec_fit_score.
  pose proof (company_bonus_range (r_company r)) as Hc.
  pose proof (remote_bonus_range (r_title r) "") as Hr.
  split; [|split].
  - intros H. lia.
  - intros H Hno. unfold remote_bonus in *. rewrite Hno in *.
    simpl in *. lia.
  - intros H. lia.
Qed.

Lemma acceptance_needs_keywords_witness :
  17 <= keyword_points (r_title Sample.r70).
Proof.
  apply (proj1 (acceptance_needs_keywords Sample.r70)). vm_compute. discriminate.
Defined.

(** ** Strings: stripping and searching *)

Section StringMore.

Lemma str_app_assoc (a b c : string) : (a ++ b) ++ c = a ++ b ++ c.
Proof.
  induction a as [|x a IH]; [reflexivity | exact (f_equal (String x) IH)].
Qed.

Lemma str_app_nil_r (a : string) : a ++ "" = a.
Proof.
  induction a as [|x a IH]; [reflexivity | exact (f_equal (String x) IH)].
Qed.

Lemma str_length_app (a b : string) :
  String.length (a ++ b) = (String.length a + String.length b)%nat.
Proof.
  induction a as [|x a IH]; [reflexivity | exact (f_equal S IH)].
Qed.

Lemma all_space_app a b : all_space (a ++ b) = all_space a && all_space b.
Proof.
  induction a as [|x a IH]; [reflexivity|].
  change (all_space (String x (a ++ b)) = all_space (String x a) && all_space b).
  simpl. now rewrite IH, andb_assoc.
Qed.

(** Stripping on the left removes a run of whitespace and nothing else. *)
Lemma lstrip_decompose s :
  exists l, s = l ++ lstrip s /\ all_space l = true.
Proof.
  induction s as [|c s (l & Hs & Hl)]; [now exists ""|].
  simpl. destruct (isspace c) eqn:Hc.
  - exists (String c l). split.
    + exact (f_equal (String c) Hs).
    + simpl. now rewrite Hc.
  - now exists "".
Qed.

Lemma rstrip_decompose s :
  exists r, s = rstrip s ++ r /\ all_space r = true.
Proof.
  induction s as [|c s (r & Hs & Hr)]; [now exists ""|].
  simpl. destruct (rstrip s) as [|d x] eqn:Hx.
  - change ("" ++ r) with r in Hs. subst r.
    destruct (isspace c) eqn:Hc.
    + exists (String c s). split; [reflexivity|]. simpl. now rewrite Hc.
    + exists s. split; [reflexivity | exact Hr].
  - exists r. split; [|exact Hr]. exact (f_equal (String c) Hs).
Qed.

Lemma length_lstrip_le s : (String.length (lstrip s) <= String.length s)%nat.
Proof.
  destruct (lstrip_decompose s) as (l & Hs & _).
  rewrite Hs at 2. rewrite str_length_app. lia.
Qed.

Lemma length_rstrip_le s : (String.length (rstrip s) <= String.length s)%nat.
Proof.
  destruct (rstrip_decompose s) as (r & Hs & _).
  rewrite Hs at 2. rewrite str_length_app. lia.
Qed.

Lemma lstrip_nonspace c s : isspace c = false -> lstrip (String c s) = String c s.
Proof. intros H. simpl. now rewrite H. Qed.

Lemma rstrip_nonspace_head c s :
  isspace c = false -> exists t, rstrip (String c s) = String c t.
Proof.
  intros H. simpl. destruct (rstrip s); [rewrite H|]; eauto.
Qed.

(** A string that stripping on the left keeps is empty or starts with a
    character that is not whitespace. *)
Lemma lstrip_fixed s :
  lstrip s = s -> s = "" \/ exists c t, s = String c t /\ isspace c = false.
Proof.
  destruct s as [|c t]; [now left|]. intros H. right. exists c, t.
  split; [reflexivity|]. destruct (isspace c) eqn:Hc; [|reflexivity].
  simpl in H. rewrite Hc in H.
  pose proof (length_lstrip_le t) as Hle. rewrite H in Hle. simpl in Hle. lia.
Qed.

Lemma lstrip_idem s : lstrip (lstrip s) = lstrip s.
Proof.
  induction s as [|c s IH]; [reflexivity|]. simpl.
  destruct (isspace c) eqn:Hc; [exact IH | now apply lstrip_nonspace].
Qed.

Lemma rstrip_idem s : rstrip (rstrip s) = rstrip s.
Proof.
  induction s as [|c s IH]; [reflexivity|]. simpl.
  destruct (rstrip s) as [|d x] eqn:Hx.
  - destruct (isspace c) eqn:Hc; [reflexivity|]. simpl. now rewrite Hc.
  - change (rstrip (String c (String d x)) = String c (String d x)).
    cbn [rstrip] in *. rewrite IH. reflexivity.
Qed.

(** What [strip] returns is kept by stripping on either side. *)
Lemma strip_tight s : lstrip (strip s) = strip s /\ rstrip (strip s) = strip s.
Proof.
  unfold strip. split; [|apply rstrip_idem].
  destruct (lstrip s) as [|c t] eqn:Hl; [reflexivity|].
  assert (Hc : isspace c = false).
  { pose proof (lstrip_idem s) as Hi. rewrite Hl in Hi.
    destruct (lstrip_fixed _ Hi) as [|(c' & t' & [= <- <-] & Hc)];
      [discriminate | exact Hc]. }
  destruct (rstrip_nonspace_head c t Hc) as [t' ->].
  now apply lstrip_nonspace.
Qed.

Lemma strip_idem s : strip (strip s) = strip s.
Proof.
  destruct (strip_tight s) as [Hl Hr]. unfold strip at 1. now rewrite Hl.
Qed.

(** A string that [strip] keeps is kept by stripping on either side. *)
Lemma strip_fixed s : strip s = s -> lstrip s = s /\ rstrip s = s.
Proof.
  intros H. destruct (strip_tight s) as [Hl Hr]. now rewrite H in Hl, Hr.
Qed.

Lemma strip_decompose s :
  exists l r, s = l ++ strip s ++ r /\ all_space l = true /\ all_space r = true.
Proof.
  destruct (lstrip_decompose s) as (l & Hs & Hl).
  destruct (rstrip_decompose (lstrip s)) as (r & Hs' & Hr).
  exists l, r. unfold strip. now rewrite <- Hs', <- Hs.
Qed.

Lemma strip_all_space s : all_space s = true -> strip s = "".
Proof. intros H. unfold strip. now rewrite (lstrip_all_space _ H). Qed.

Lemma strip_empty s : strip s = "" -> all_space s = true.
Proof.
  intros H. destruct (strip_decompose s) as (l & r & Hs & Hl & Hr).
  rewrite H in Hs. rewrite Hs.
  change (all_space (l ++ r) = true). now rewrite all_space_app, Hl, Hr.
Qed.

(** Appending behind a kept, non-empty end, or in front of a kept start,
    does not let [rstrip] or [lstrip] bite. *)
Lemma rstrip_app_fixed x b :
  rstrip b = b -> b <> "" -> rstrip (x ++ b) = x ++ b.
Proof.
  intros Hb Hne. induction x as [|c x IH]; [exact Hb|].
  change (rstrip (String c (x ++ b)) = String c (x ++ b)).
  cbn [rstrip]. rewrite IH.
  destruct (x ++ b) as [|d y] eqn:E; [exfalso|reflexivity].
  destruct x; [exact (Hne E) | discriminate].
Qed.

Lemma lstrip_app_fixed a y :
  lstrip a = a -> a <> "" -> lstrip (a ++ y) = a ++ y.
Proof.
  intros Ha Hne.
  destruct (lstrip_fixed _ Ha) as [->|(c & t & -> & Hc)]; [contradiction|].
  change (lstrip (String c (t ++ y)) = String c (t ++ y)).
  now apply lstrip_nonspace.
Qed.

(** ** Searching *)

Lemma contains_split needle hay :
  contains needle hay = true -> exists a b, hay = a ++ needle ++ b.
Proof.
  induction hay as [|c hay IH]; rewrite contains_unfold;
    destruct (String.prefix needle _) eqn:Hp.
  - intros _. exists "", (Re.skip (String.length needle) "").
    now apply prefix_skip in Hp.
  - discriminate.
  - intros _. exists "", (Re.skip (String.length needle) (String c hay)).
    now apply prefix_skip in Hp.
  - intros H. destruct (IH H) as (a & b & ->). now exists (String c a), b.
Qed.

(** A string found inside a part is found in the whole. *)
Lemma contains_inside needle x y z :
  contains needle y = true -> contains needle (x ++ y ++ z) = true.
Proof.
  intros H. destruct (contains_split _ _ H) as (a & b & ->).
  replace (x ++ (a ++ needle ++ b) ++ z) with ((x ++ a) ++ needle ++ (b ++ z)).
  - apply contains_app.
  - now rewrite !str_app_assoc.
Qed.

Lemma contains_outside needle x y z :
  contains needle (x ++ y ++ z) = false -> contains needle y = false.
Proof.
  intros H. destruct (contains needle y) eqn:E; [|reflexivity].
  now rewrite (contains_inside needle x y z E) in H.
Qed.

Lemma skip_suffix n s : exists x, s = x ++ Re.skip n s.
Proof.
  revert s. induction n as [|n IH]; intros s; [now exists ""|].
  destruct s as [|c s]; [now exists ""|].
  destruct (IH s) as [x Hx]. exists (String c x).
  exact (f_equal (String c) Hx).
Qed.

Lemma skip_app a b : Re.skip (String.length a) (a ++ b) = b.
Proof. induction a as [|c a IH]; [now destruct b | exact IH]. Qed.

Lemma occurs_app c a b : occurs c (a ++ b) = occurs c a || occurs c b.
Proof.
  induction a as [|x a IH]; [reflexivity|].
  change (occurs c (String x (a ++ b)) = occurs c (String x a) || occurs c b).
  simpl. now rewrite IH, orb_assoc.
Qed.

End StringMore.

(** ** Feed items *)

Section FeedFacts.

Import Feed.

Lemma rsplit1_unfold sep c s :
  rsplit1 sep (String c s)
  = match rsplit1 sep s with
    | Some (before, after) => Some (String c before, after)
    | None =>
        if String.prefix sep (String c s)
        then Some ("", Re.skip (String.length sep) (String c s))
        else None
    end.
Proof. reflexivity. Qed.

(** The two parts and the separator make up the string again. *)
Lemma rsplit1_correct sep s a b :
  rsplit1 sep s = Some (a, b) -> s = a ++ sep ++ b.
Proof.
  revert a b. induction s as [|c s IH]; intros a b; [discriminate|].
  rewrite rsplit1_unfold. destruct (rsplit1 sep s) as [[a' b']|].
  - intros [= <- <-]. exact (f_equal (String c) (IH _ _ eq_refl)).
  - destruct (String.prefix sep (String c s)) eqn:Hp; [|discriminate].
    intros [= <- <-]. exact (prefix_skip _ _ Hp).
Qed.

Lemma rsplit1_none sep s :
  sep <> "" -> rsplit1 sep s = None -> contains sep s = false.
Proof.
  intros Hsep. induction s as [|c s IH].
  - intros _. destruct sep; [contradiction | reflexivity].
  - rewrite rsplit1_unfold. destruct (rsplit1 sep s) as [[a' b']|];
      [discriminate|].
    destruct (String.prefix sep (String c s)) eqn:Hp; [discriminate|].
    intros _. rewrite contains_unfold, Hp. now apply IH.
Qed.

Lemma rsplit1_absent sep s : contains sep s = false -> rsplit1 sep s = None.
Proof.
  induction s as [|c s IH]; [reflexivity|].
  rewrite contains_unfold.
  destruct (String.prefix sep (String c s)) eqn:Hp; [discriminate|].
  intros H. now rewrite rsplit1_unfold, (IH H), Hp.
Qed.

Lemma contains_suffix needle x y :
  contains needle (x ++ y) = false -> contains needle y = false.
Proof.
  intros H. apply (contains_outside needle x y "").
  now rewrite str_app_nil_r.
Qed.

(** The separator does not occur behind the place of the split. *)
Lemma rsplit1_after sep s a b :
  sep <> "" -> rsplit1 sep s = Some (a, b) -> contains sep b = false.
Proof.
  intros Hsep. revert a b. induction s as [|c s IH]; intros a b;
    [discriminate|].
  rewrite rsplit1_unfold. destruct (rsplit1 sep s) as [[a' b']|] eqn:E.
  - intros [= <- <-]. now apply (IH a').
  - destruct (String.prefix sep (String c s)) eqn:Hp; [|discriminate].
    intros [= <- <-]. destruct sep as [|d sep']; [contradiction|].
    change (contains (String d sep') (Re.skip (String.length sep') s) = false).
    destruct (skip_suffix (String.length sep') s) as [x Hx].
    apply (contains_suffix _ x). rewrite <- Hx.
    now apply rsplit1_none.
Qed.

(** The split is made at the last occurrence of the separator. *)
Lemma rsplit1_last d sep' a b :
  contains (String d sep') (sep' ++ b) = false ->
  rsplit1 (String d sep') (a ++ String d sep' ++ b) = Some (a, b).
Proof.
  intros H. induction a as [|c a IH].
  - change (rsplit1 (String d sep') (String d (sep' ++ b)) = Some ("", b)).
    rewrite rsplit1_unfold, (rsplit1_absent _ _ H).
    change (String d (sep' ++ b)) with (String d sep' ++ b).
    now rewrite prefix_app, skip_app.
  - change (rsplit1 (String d sep') (String c (a ++ String d sep' ++ b))
            = Some (String c a, b)).
    now rewrite rsplit1_unfold, IH.
Qed.

(** In a stripped string cut at a separator, neither side is blank. *)
Lemma split_sides_not_blank t a b :
  lstrip t = t -> rstrip t = t -> t = a ++ separator ++ b ->
  all_space a = false /\ all_space b = false.
Proof.
  intros Hl Hr Ht. split.
  - destruct (all_space a) eqn:Ha; [exfalso|reflexivity].
    pose proof (lstrip_space_app a (separator ++ b) Ha) as H.
    rewrite <- Ht, Hl in H.
    change (lstrip (separator ++ b)) with ("- " ++ b) in H.
    apply (f_equal String.length) in H. rewrite Ht in H.
    rewrite !str_length_app in H. simpl in H. lia.
  - destruct (all_space b) eqn:Hb; [exfalso|reflexivity].
    assert (Hsp : all_space (" " ++ b) = true) by exact Hb.
    pose proof (rstrip_app_space (a ++ " -") (" " ++ b) Hsp) as H.
    replace ((a ++ " -") ++ " " ++ b) with t in H
      by now rewrite Ht, str_app_assoc.
    rewrite Hr in H. apply (f_equal String.length) in H.
    pose proof (length_rstrip_le (a ++ " -")) as Hle.
    rewrite <- H, Ht in Hle. rewrite !str_length_app in Hle.
    simpl in Hle. lia.
Qed.

Lemma strip_not_blank s : all_space s = false -> strip s <> "".
Proof. intros H E. apply strip_empty in E. congruence. Qed.

Lemma contains_strip needle s :
  contains needle s = false -> contains needle (strip s) = false.
Proof.
  intros H. destruct (strip_decompose s) as (l & r & Hs & _).
  apply (contains_outside needle l (strip s) r). now rewrite <- Hs.
Qed.

(** The key of two stripped strings is their lowercase forms around the
    bar. *)
Lemma deduplicate_key_stripped t c :
  strip t = t -> strip c = c ->
  deduplicate_key t c = lower t ++ "|" ++ lower c.
Proof.
  intros Ht Hc. unfold deduplicate_key. now rewrite !strip_lower, Ht, Hc.
Qed.

End FeedFacts.

(** X2. Whatever three texts a feed item carries, the record
    [search_indeed_rss] builds from them has a title, a company and a
    link with no outer whitespace; its company is never empty and never
    contains the separator " - "; its title is empty exactly when the
    item's title text is blank; when the stripped title text holds no
    " - ", the record's title is that text and its company is "Unknown";
    its source is "indeed"; and its duplicate key is the lowercase title,
    a bar, and the lowercase company. *)
Theorem feed_item_fields (title_text link_text pub_date_text : string) :
  let r := Feed.item_of title_text link_text pub_date_text in
  (strip (r_title r) = r_title r /\ strip (r_company r) = r_company r
   /\ strip (r_link r) = r_link r /\ strip (r_pubDate r) = r_pubDate r)
  /\ r_company r <> ""
  /\ contains Feed.separator (r_company r) = false
  /\ (r_title r = "" <-> all_space title_text = true)
  /\ (contains Feed.separator (strip title_text) = false ->
      r_title r = strip title_text /\ r_company r = "Unknown")
  /\ r_source r = "indeed"
  /\ deduplicate_key (r_title r) (r_company r)
     = lower (r_title r) ++ "|" ++ lower (r_company r).
Proof.
  assert (Hsep : Feed.separator <> "") by discriminate.
  cbv zeta.
  assert (Hfields :
    strip (r_title (Feed.item_of title_text link_text pub_date_text))
    = r_title (Feed.item_of title_text link_text pub_date_text)
    /\ strip (r_company (Feed.item_of title_text link_text pub_date_text))
       = r_company (Feed.item_of title_text link_text pub_date_text)).
  { unfold Feed.item_of; cbn [r_title r_company].
    destruct (Feed.rsplit1 Feed.separator (strip title_text)) as [[a b]|];
      split; try apply strip_idem. reflexivity. }
  destruct Hfields as [Ht Hc].
  split; [|split; [|split; [|split; [|split; [|split]]]]].
  - repeat split; try assumption; apply strip_idem.
  - unfold Feed.item_of; cbn [r_company].
    destruct (Feed.rsplit1 Feed.separator (strip title_text)) as [[a b]|] eqn:E;
      [|discriminate].
    apply rsplit1_correct in E.
    destruct (strip_tight title_text) as [Hl Hr].
    destruct (split_sides_not_blank _ _ _ Hl Hr E) as [_ Hb].
    now apply strip_not_blank.
  - unfold Feed.item_of; cbn [r_company].
    destruct (Feed.rsplit1 Feed.separator (strip title_text)) as [[a b]|] eqn:E;
      [|reflexivity].
    apply contains_strip. exact (rsplit1_after _ _ _ _ Hsep E).
  - unfold Feed.item_of; cbn [r_title].
    destruct (Feed.rsplit1 Feed.separator (strip title_text)) as [[a b]|] eqn:E.
    + pose proof (rsplit1_correct _ _ _ _ E) as Hs.
      destruct (strip_tight title_text) as [Hl Hr].
      destruct (split_sides_not_blank _ _ _ Hl Hr Hs) as [Ha _].
      split.
      * intros H. apply strip_empty in H. congruence.
      * intros H. apply strip_all_space in H. rewrite H in E. discriminate.
    + rewrite strip_idem. split; [apply strip_empty | apply strip_all_space].
  - intros H. unfold Feed.item_of; cbn [r_title r_company].
    rewrite (rsplit1_absent _ _ H). now rewrite strip_idem.
  - reflexivity.
  - now apply deduplicate_key_stripped.
Qed.

(** X3. When the stripped title text of a feed item is [a], the
    separator " - " and [b], and no further " - " starts behind the start
    of that separator, the record's title is [a] stripped and its company
    is [b] stripped: the title is cut at the last separator, so a title
    that itself holds " - " keeps it. *)
Theorem feed_item_split_at_last (title_text link_text pub_date_text a b : string) :
  strip title_text = a ++ Feed.separator ++ b ->
  contains Feed.separator ("- " ++ b) = false ->
  let r := Feed.item_of title_text link_text pub_date_text in
  r_title r = strip a /\ r_company r = strip b.
Proof.
  intros Hs Hlast. cbv zeta. unfold Feed.item_of; cbn [r_title r_company].
  rewrite Hs. unfold Feed.separator in *. now rewrite (rsplit1_last _ _ a b Hlast).
Qed.

Lemma feed_item_split_at_last_witness :
  let r := Feed.item_of Cases.raw_title "" "" in
  r_title r = strip "VP Finance - EMEA" /\ r_company r = strip "Stripe".
Proof.
  apply (feed_item_split_at_last Cases.raw_title "" "" "VP Finance - EMEA" "Stripe");
    reflexivity.
Defined.

(** ** The duplicate key and its separator *)

Section KeyFacts.

Lemma length_lower s : String.length (lower s) = String.length s.
Proof. induction s as [|c s IH]; [reflexivity | exact (f_equal S IH)]. Qed.

Lemma lower_char_bar c : Ascii.eqb (lower_char c) bar = Ascii.eqb c bar.
Proof.
  destruct c as [[] [] [] [] [] [] [] []]; reflexivity.
Qed.

Lemma occurs_lower s : occurs bar (lower s) = occurs bar s.
Proof.
  induction s as [|c s IH]; [reflexivity|].
  cbn [lower occurs]. now rewrite lower_char_bar, IH.
Qed.

Lemma occurs_strip c s : occurs c s = false -> occurs c (strip s) = false.
Proof.
  intros H. destruct (strip_decompose s) as (l & r & Hs & _).
  rewrite Hs, !occurs_app in H.
  now apply orb_false_elim in H as [_ [H _]%orb_false_elim].
Qed.

(** Two texts cut at the first bar: no bar before it on either side fixes
    both parts. *)
Lemma app_bar_inj x x' y y' :
  occurs bar x = false -> occurs bar x' = false ->
  x ++ String bar y = x' ++ String bar y' -> x = x' /\ y = y'.
Proof.
  revert x'. induction x as [|c x IH]; intros [|c' x'] Hx Hx' H.
  - now injection H.
  - injection H as Hc _. subst c'. cbn [occurs] in Hx'.
    now rewrite Ascii.eqb_refl in Hx'.
  - injection H as Hc _. subst c. cbn [occurs] in Hx.
    now rewrite Ascii.eqb_refl in Hx.
  - injection H as -> H. cbn [occurs] in Hx, Hx'.
    apply orb_false_elim in Hx as [_ Hx].
    apply orb_false_elim in Hx' as [_ Hx'].
    destruct (IH _ Hx Hx' H) as [-> ->]. now split.
Qed.

(** Equal normal forms are what "same up to case and outer whitespace"
    means. *)
Lemma same_modulo_case_ws_normal s s' :
  same_modulo_case_ws s s' <-> strip (lower s) = strip (lower s').
Proof.
  split; [apply strip_lower_same|].
  intros H. rewrite !strip_lower in H.
  destruct (strip_decompose s) as (l & r & Hs & Hl & Hr).
  destruct (strip_decompose s') as (l' & r' & Hs' & Hl' & Hr').
  now exists l, (strip s), r, l', (strip s'), r'.
Qed.

(** Stripping keeps a stripped text with a bar and a stripped text put
    behind it. *)
Lemma strip_bar_join a b :
  strip a = a -> strip b = b -> strip (a ++ "|" ++ b) = a ++ "|" ++ b.
Proof.
  intros [Hla Hra]%strip_fixed [Hlb Hrb]%strip_fixed.
  assert (Hl : lstrip (a ++ "|" ++ b) = a ++ "|" ++ b).
  { destruct a as [|c a]; [reflexivity|]. now apply lstrip_app_fixed. }
  unfold strip. rewrite Hl.
  destruct b as [|c b].
  - rewrite <- (str_app_nil_r (a ++ "|")) at 2.
    rewrite <- str_app_assoc, str_app_nil_r.
    now apply rstrip_app_fixed.
  - rewrite <- str_app_assoc. rewrite rstrip_app_fixed; [reflexivity|exact Hrb|discriminate].
Qed.

End KeyFacts.

(** X4. For titles that hold no bar character, two (title, company)
    pairs get the same duplicate key exactly when the titles are the same
    up to letter case and outer whitespace and the companies are too: on
    such titles the key identifies the normalised pair and nothing
    more. *)
Theorem deduplicate_key_exact (title company title' company' : string) :
  occurs bar title = false -> occurs bar title' = false ->
  (deduplicate_key title company = deduplicate_key title' company'
   <-> same_modulo_case_ws title title'
       /\ same_modulo_case_ws company company').
Proof.
  intros Ht Ht'. rewrite !same_modulo_case_ws_normal. unfold deduplicate_key.
  split.
  - apply app_bar_inj; rewrite strip_lower, occurs_lower;
      now apply occurs_strip.
  - now intros [-> ->].
Qed.

Lemma deduplicate_key_exact_witness :
  deduplicate_key "  VP Product " "Stripe" = deduplicate_key "vp product" " STRIPE"
  <-> same_modulo_case_ws "  VP Product " "vp product"
      /\ same_modulo_case_ws "Stripe" " STRIPE".
Proof.
  apply (deduplicate_key_exact "  VP Product " "Stripe" "vp product" " STRIPE");
    reflexivity.
Defined.

(** X5. The bar that joins the two halves of the duplicate key is not
    escaped: for stripped texts [a], [b], [c], the record titled "a|b" at
    company "c" and the record titled "a" at company "b|c" get one and
    the same key, although their titles differ even up to letter case and
    outer whitespace. *)
Theorem deduplicate_key_bar_collision (a b c : string) :
  strip a = a -> strip b = b -> strip c = c ->
  deduplicate_key (a ++ "|" ++ b) c = deduplicate_key a (b ++ "|" ++ c)
  /\ ~ same_modulo_case_ws (a ++ "|" ++ b) a.
Proof.
  intros Ha Hb Hc. split.
  - unfold deduplicate_key. rewrite !strip_lower.
    rewrite (strip_bar_join a b Ha Hb), (strip_bar_join b c Hb Hc), Ha, Hc.
    rewrite !lower_app. now rewrite !str_app_assoc.
  - intros H%same_modulo_case_ws_normal. rewrite !strip_lower in H.
    rewrite (strip_bar_join a b Ha Hb), Ha in H.
    apply (f_equal String.length) in H.
    rewrite !length_lower, !str_length_app in H. simpl in H. lia.
Qed.

Lemma deduplicate_key_bar_collision_witness :
  deduplicate_key ("VP" ++ "|" ++ "Product") "Stripe"
  = deduplicate_key "VP" ("Product" ++ "|" ++ "Stripe")
  /\ ~ same_modulo_case_ws ("VP" ++ "|" ++ "Product") "VP".
Proof.
  apply (deduplicate_key_bar_collision "VP" "Product" "Stripe"); reflexivity.
Defined.

(** ** The scorer sees neither letter case nor outer whitespace *)

Section ScorerWords.

Lemma rstrip_tail d k :
  rstrip (String d k) = String d k -> k <> "" -> rstrip k = k.
Proof.
  cbn [rstrip]. destruct (rstrip k) as [|c x] eqn:E.
  - destruct (isspace d); intros [=]; congruence.
  - now intros [=].
Qed.

Lemma rstrip_single d : rstrip (String d "") = String d "" -> isspace d = false.
Proof. cbn [rstrip]. now destruct (isspace d). Qed.

Lemma prefix_cons d k c s :
  String.prefix (String d k) (String c s)
  = if ascii_dec d c then String.prefix k s else false.
Proof. reflexivity. Qed.

(** A search word does not reach into whitespace put behind a text. *)
Lemma prefix_space_r k m r :
  all_space r = true -> rstrip k = k -> k <> "" ->
  String.prefix k (m ++ r) = String.prefix k m.
Proof.
  intros Hr. revert m r Hr. induction k as [|d k IH]; intros m r Hr Hk Hne;
    [contradiction|].
  destruct k as [|e k'].
  - apply rstrip_single in Hk.
    destruct m as [|c m].
    + destruct r as [|c r]; [reflexivity|].
      change ("" ++ String c r) with (String c r). rewrite prefix_cons.
      destruct (ascii_dec d c) as [->|]; [|reflexivity].
      simpl in Hr. now rewrite Hk in Hr.
    + change (String c m ++ r) with (String c (m ++ r)).
      rewrite !prefix_cons. destruct (ascii_dec d c); [|reflexivity].
      now destruct (m ++ r), m.
  - assert (Hk' : rstrip (String e k') = String e k')
      by (apply (rstrip_tail d); [exact Hk | discriminate]).
    destruct m as [|c m].
    + destruct r as [|c r]; [reflexivity|].
      change ("" ++ String c r) with (String c r). rewrite prefix_cons.
      destruct (ascii_dec d c); [|reflexivity].
      apply andb_prop in Hr as [_ Hr].
      exact (IH "" r Hr Hk' ltac:(discriminate)).
    + change (String c m ++ r) with (String c (m ++ r)).
      rewrite !prefix_cons. destruct (ascii_dec d c); [|reflexivity].
      exact (IH m r Hr Hk' ltac:(discriminate)).
Qed.

Lemma contains_space_r k m r :
  all_space r = true -> rstrip k = k -> k <> "" ->
  contains k (m ++ r) = contains k m.
Proof.
  intros Hr Hk Hne. induction m as [|c m IH].
  - change ("" ++ r) with r. replace (contains k "") with false
      by (now destruct k).
    clear -Hr Hk Hne. induction r as [|c r IH]; [now destruct k|].
    rewrite contains_unfold.
    pose proof (prefix_space_r k "" (String c r) Hr Hk Hne) as Hp.
    change ("" ++ String c r) with (String c r) in Hp. rewrite Hp.
    replace (String.prefix k "") with false by (now destruct k).
    apply andb_prop in Hr as [_ Hr]. exact (IH Hr).
  - change (String c m ++ r) with (String c (m ++ r)).
    rewrite (contains_unfold k (String c (m ++ r))), (contains_unfold k (String c m)).
    change (String c (m ++ r)) with (String c m ++ r).
    rewrite (prefix_space_r k (String c m) r Hr Hk Hne).
    now rewrite IH.
Qed.

Lemma contains_space_l k l x :
  all_space l = true -> lstrip k = k -> k <> "" ->
  contains k (l ++ x) = contains k x.
Proof.
  intros Hl Hk Hne.
  destruct (lstrip_fixed _ Hk) as [->|(d & k' & -> & Hd)]; [contradiction|].
  induction l as [|c l IH]; [reflexivity|].
  apply andb_prop in Hl as [Hc Hl].
  change (String c l ++ x) with (String c (l ++ x)).
  rewrite contains_unfold, prefix_cons.
  destruct (ascii_dec d c) as [->|]; [congruence | exact (IH Hl)].
Qed.

Lemma word_fixed k : word k = true -> k <> "" /\ lstrip k = k /\ rstrip k = k.
Proof.
  unfold word. intros [Hne Hk]%andb_prop.
  apply negb_true_iff, String.eqb_neq in Hne.
  apply String.eqb_eq, strip_fixed in Hk. tauto.
Qed.

(** Whether a search word occurs is not changed by stripping the text. *)
Lemma contains_word_strip k s :
  word k = true -> contains k (strip s) = contains k s.
Proof.
  intros (Hne & Hl & Hr)%word_fixed.
  destruct (strip_decompose s) as (l & r & Hs & Hsl & Hsr).
  rewrite Hs at 2.
  now rewrite (contains_space_l k l _ Hsl Hl Hne),
    (contains_space_r k _ r Hsr Hr Hne).
Qed.

Lemma keyword_fold_words (kws : list (string * Z)) a b s :
  Forall (fun kp => word (fst kp) = true) kws ->
  (forall k, word k = true -> contains k a = contains k b) ->
  fold_left
    (fun score kp =>
       let '(keyword, points) := kp in
       if contains keyword a then score + points else score) kws s
  = fold_left
      (fun score kp =>
         let '(keyword, points) := kp in
         if contains keyword b then score + points else score) kws s.
Proof.
  intros Hk Hab. revert s.
  induction Hk as [|[k p] kws Hw _ IH]; intros s; [reflexivity|].
  simpl. rewrite (Hab k Hw). apply IH.
Qed.

Lemma company_loop_words tcs a b s :
  Forall (fun tc => word (lower tc) = true) tcs ->
  (forall k, word k = true -> contains k a = contains k b) ->
  company_loop tcs a s = company_loop tcs b s.
Proof.
  intros Hk Hab. induction Hk as [|tc tcs Hw _ IH]; [reflexivity|].
  simpl. now rewrite (Hab _ Hw), IH.
Qed.

Lemma keywords_are_words :
  Forall (fun kp : string * Z => word (fst kp) = true) TITLE_KEYWORDS.
Proof. repeat constructor. Qed.

Lemma companies_are_words :
  Forall (fun tc => word (lower tc) = true) TARGET_COMPANIES.
Proof. repeat constructor. Qed.

(** The score reads its three texts only through which search words they
    contain. *)
Lemma score_of_words title company location title' company' location' :
  (forall k, word k = true ->
     contains k (lower title) = contains k (lower title')) ->
  (forall k, word k = true ->
     contains k (lower company) = contains k (lower company')) ->
  (forall k, word k = true ->
     contains k (lower location) = contains k (lower location')) ->
  calculate_fit_score title company location
  = calculate_fit_score title' company' location'.
Proof.
  intros Ht Hc Hl. unfold calculate_fit_score, keyword_loop.
  rewrite (keyword_fold_words _ (lower title) (lower title') _
             keywords_are_words Ht).
  rewrite (company_loop_words _ (lower company) (lower company') _
             companies_are_words Hc).
  now rewrite (Ht "remote" eq_refl), (Hl "remote" eq_refl).
Qed.

Lemma contains_of_normal k s s' :
  strip (lower s) = strip (lower s') -> word k = true ->
  contains k (lower s) = contains k (lower s').
Proof.
  intros H Hk.
  now rewrite <- (contains_word_strip k (lower s) Hk), H, contains_word_strip.
Qed.

Lemma score_of_normal title company location title' company' location' :
  strip (lower title) = strip (lower title') ->
  strip (lower company) = strip (lower company') ->
  strip (lower location) = strip (lower location') ->
  calculate_fit_score title company location
  = calculate_fit_score title' company' location'.
Proof.
  intros Ht Hc Hl. apply score_of_words; intros k Hk;
    now apply contains_of_normal.
Qed.

(** Two candidates with one key, and no bar in their titles, score
    alike. *)
Lemma same_key_same_score r r' :
  occurs bar (r_title r) = false -> occurs bar (r_title r') = false ->
  candidate_key r = candidate_key r' ->
  candidate_score r = candidate_score r'.
Proof.
  intros Hb Hb' Hk. unfold candidate_key, deduplicate_key in Hk.
  apply app_bar_inj in Hk as [Ht Hc];
    [|rewrite strip_lower, occurs_lower; now apply occurs_strip..].
  now apply score_of_normal.
Qed.

End ScorerWords.

(** X6. The score depends on its three texts only up to letter case and
    outer whitespace: texts with the same lowercase, stripped forms score
    alike; in particular lowercasing or stripping all three first changes
    nothing. *)
Theorem calculate_fit_score_insensitive
    (title company location title' company' location' : string) :
  strip (lower title) = strip (lower title') ->
  strip (lower company) = strip (lower company') ->
  strip (lower location) = strip (lower location') ->
  calculate_fit_score title company location
  = calculate_fit_score title' company' location'
  /\ calculate_fit_score (lower title) (lower company) (lower location)
     = calculate_fit_score title company location
  /\ calculate_fit_score (strip title) (strip company) (strip location)
     = calculate_fit_score title company location.
Proof.
  intros Ht Hc Hl. split; [|split].
  - now apply score_of_normal.
  - apply score_of_normal; now rewrite lower_idem.
  - apply score_of_normal; now rewrite strip_lower, strip_idem, <- strip_lower.
Qed.

Lemma calculate_fit_score_insensitive_witness :
  calculate_fit_score "  VP FINANCE" "STRIPE " " Remote"
  = calculate_fit_score "vp Finance  " " stripe" "REMOTE"
  /\ calculate_fit_score (lower "  VP FINANCE") (lower "STRIPE ") (lower " Remote")
     = calculate_fit_score "  VP FINANCE" "STRIPE " " Remote"
  /\ calculate_fit_score (strip "  VP FINANCE") (strip "STRIPE ") (strip " Remote")
     = calculate_fit_score "  VP FINANCE" "STRIPE " " Remote".
Proof.
  apply (calculate_fit_score_insensitive
           "  VP FINANCE" "STRIPE " " Remote" "vp Finance  " " stripe" "REMOTE");
    reflexivity.
Defined.

(** ** Stored records the run cannot read *)

(** X7. A stored record whose title or company is there but is not a
    string ends the run with [AttributeError]; with every title and
    company a string, a stored record whose id is there but is not a
    number ends it with [TypeError]. Either way [main] ends with the same
    exception and nothing has been written. *)
Theorem search_all_ill_typed_store (json_load : string -> option (list job))
    (w : world) (j : job) (v : value) :
  In j (loaded json_load w) ->
  (dict_get j "title" = Some v \/ dict_get j "company" = Some v ->
   is_str v = false ->
   search_all json_load w = Raise AttributeError w
   /\ main json_load w = Raise AttributeError w)
  /\ (forallb key_typed (loaded json_load w) = true ->
      dict_get j "id" = Some v -> number_of v = None ->
      search_all json_load w = Raise TypeError w
      /\ main json_load w = Raise TypeError w).
Proof.
  intros Hj. split.
  - intros Hv Hs.
    assert (Hk : forallb key_typed (loaded json_load w) = false).
    { apply not_true_is_false. intros Hall.
      pose proof (proj1 (forallb_forall _ _) Hall j Hj) as Hkj.
      unfold key_typed, dict_get_default in Hkj.
      apply andb_prop in Hkj as [Ht Hc].
      destruct Hv as [Hv|Hv]; rewrite Hv in *; congruence. }
    assert (Hrun : search_all json_load w = Raise AttributeError w).
    { rewrite search_all_run. cbv zeta. now rewrite Hk. }
    split; [exact Hrun | now apply main_propagates].
  - intros Hk Hv Hn.
    assert (Hi : forallb id_typed (loaded json_load w) = false).
    { apply not_true_is_false. intros Hall.
      pose proof (proj1 (forallb_forall _ _) Hall j Hj) as Hij.
      unfold id_typed, dict_get_default in Hij.
      now rewrite Hv, Hn in Hij. }
    assert (Hrun : search_all json_load w = Raise TypeError w).
    { rewrite search_all_run. cbv zeta. now rewrite Hk, Hi. }
    split; [exact Hrun | now apply main_propagates].
Qed.

Lemma search_all_ill_typed_store_witness :
  main Cases.json_load Cases.w_bad_title = Raise AttributeError Cases.w_bad_title
  /\ main Cases.json_load Cases.w_bad_id = Raise TypeError Cases.w_bad_id.
Proof.
  split.
  - apply (proj1 (search_all_ill_typed_store Cases.json_load Cases.w_bad_title
                    Cases.bad_title (VInt 12) ltac:(simpl; auto)));
      [left|]; reflexivity.
  - apply (proj2 (search_all_ill_typed_store Cases.json_load Cases.w_bad_id
                    Cases.bad_id (VStr "seven") ltac:(simpl; auto)));
      reflexivity.
Defined.

(** ** What the merge loop covers *)

Section Coverage.

Variable today : string.

(** An invariant that speaks of the candidates handled so far. *)
Lemma run_candidates_invariant_seen
    (P : list (string * feed_item) -> merge_state -> Prop) cands seen st :
  P seen st ->
  (forall seen query r st,
     P seen st -> P (seen ++ [(query, r)])%list (result_step query today st r)) ->
  P (seen ++ cands)%list (run_candidates today cands st).
Proof.
  intros Hst Hstep. revert seen st Hst.
  induction cands as [|[q r] cands IH]; intros seen st Hst.
  - now rewrite app_nil_r.
  - replace (seen ++ (q, r) :: cands)%list
      with ((seen ++ [(q, r)]) ++ cands)%list by now rewrite <- app_assoc.
    simpl. apply IH, Hstep, Hst.
Qed.

Lemma built_from_more seen x j :
  built_from today seen j -> built_from today (seen ++ [x]) j.
Proof.
  intros (id & q & r & Hin & Hj & Hs). exists id, q, r.
  split; [|auto]. apply elem_of_app. now left.
Qed.

Lemma covers_step stored_keys seen query r st :
  covers today stored_keys seen st ->
  covers today stored_keys (seen ++ [(query, r)]) (result_step query today st r).
Proof.
  intros (Hsub & Hnd & Hall & Hkeys & Hseen).
  assert (Hmore : forall q' r', (q', r') ∈ seen ->
                    (q', r') ∈ (seen ++ [(query, r)])%list)
    by (intros; apply elem_of_app; now left).
  assert (Hlast : (query, r) ∈ (seen ++ [(query, r)])%list)
    by (apply elem_of_app; right; now apply list_elem_of_singleton).
  destruct (result_step_cases today query st r)
    as [[Hin ->]|[(Hout & Hlow & ->)|(Hout & Hhigh & ->)]];
    fold (candidate_key r) in *; unfold covers; cbn [existing_keys new_jobs].
  - repeat split; [exact Hsub | exact Hnd | | |].
    + eapply Forall_impl; [exact Hall|].
      intros j (H1 & H2 & H3). repeat split; auto using built_from_more.
    + intros k Hk. destruct (Hkeys k Hk) as [H|[H|(q' & r' & H1 & H2)]];
        [now left | now right; left |].
      right; right. exists q', r'. auto.
    + intros q' r' [H|H%list_elem_of_singleton]%elem_of_app; [eauto|].
      now injection H as -> ->.
  - repeat split; [set_solver | exact Hnd | | |].
    + eapply Forall_impl; [exact Hall|].
      intros j (H1 & H2 & H3).
      repeat split; [set_solver | exact H2 | now apply built_from_more].
    + intros k [->%elem_of_singleton|Hk]%elem_of_union.
      * right; right. exists query, r. auto.
      * destruct (Hkeys k Hk) as [H|[H|(q' & r' & H1 & H2)]];
          [now left | now right; left |].
        right; right. exists q', r'. auto.
    + intros q' r' [H|H%list_elem_of_singleton]%elem_of_app.
      * apply elem_of_union_r. eauto.
      * injection H as -> ->. apply elem_of_union_l. now apply elem_of_singleton.
  - assert (Hfresh : candidate_key r ∉ map job_key (new_jobs st)).
    { intros (j & Hj & Hjin)%list_elem_of_fmap.
      apply (proj1 (Forall_forall _ _) Hall) in Hjin as (H1 & _).
      rewrite <- Hj in H1. contradiction. }
    repeat split; [set_solver | | | |].
    + rewrite map_app. apply NoDup_app. split; [exact Hnd|]. split.
      * intros k Hk ->%list_elem_of_singleton. contradiction.
      * apply NoDup_singleton.
    + apply Forall_app. split.
      * eapply Forall_impl; [exact Hall|].
        intros j (H1 & H2 & H3).
        repeat split; [set_solver | exact H2 | now apply built_from_more].
      * apply Forall_singleton. rewrite job_key_new. fold (candidate_key r).
        repeat split; [set_solver | set_solver |].
        exists (next_id st), query, r. auto.
    + intros k [->%elem_of_singleton|Hk]%elem_of_union.
      * right; left. eexists. split.
        -- apply elem_of_app. right. now apply list_elem_of_singleton.
        -- apply job_key_new.
      * destruct (Hkeys k Hk) as [H|[(j & H1 & H2)|(q' & r' & H1 & H2)]];
          [now left | |].
        -- right; left. exists j. split; [|exact H2].
           apply elem_of_app. now left.
        -- right; right. exists q', r'. auto.
    + intros q' r' [H|H%list_elem_of_singleton]%elem_of_app.
      * apply elem_of_union_r. eauto.
      * injection H as -> ->. apply elem_of_union_l. now apply elem_of_singleton.
Qed.

Lemma merged_covers feed existing :
  covers today (list_to_set (map job_key existing)) (candidates feed)
    (merged today feed existing).
Proof.
  unfold merged.
  apply (run_candidates_invariant_seen
           (covers today (list_to_set (map job_key existing)))
           (candidates feed) []).
  - repeat split; simpl.
    + reflexivity.
    + constructor.
    + constructor.
    + intros k Hk. now left.
    + intros q r []%not_elem_of_nil.
  - intros seen q r st. apply covers_step.
Qed.

(** A key of the stored records is the key of a saved record. *)
Lemma stored_key_saved feed existing k :
  k ∈ map job_key existing ->
  exists j, j ∈ all_jobs_of today feed existing /\ job_key j = k.
Proof.
  intros (j & -> & Hj)%list_elem_of_fmap.
  exists (mark_is_new today j). split; [|apply job_key_mark].
  unfold all_jobs_of. apply elem_of_app. left.
  apply list_elem_of_fmap. eauto.
Qed.

End Coverage.

Section CoverageRun.

Variable json_load : string -> option (list job).

(** A run that returns, read back. *)
Lemma search_all_Return_eq w all n w' :
  search_all json_load w = Return (all, n) w' ->
  all = all_jobs_of (today w) (indeed w) (loaded json_load w)
  /\ n = length (new_jobs (merged (today w) (indeed w) (loaded json_load w)))
  /\ w' = put_file DATA_PATH (Json.dumps all) w.
Proof.
  intros H.
  destruct (search_all_Return_inv json_load w all n w' H) as (Hk & Hi & Hw & _).
  rewrite (search_all_returns json_load w Hk Hi Hw) in H.
  injection H as <- <- <-. auto.
Qed.

Lemma candidates_silent (feed : string -> list feed_item) :
  (forall q, feed q = []) -> candidates feed = [].
Proof.
  intros H. unfold candidates, candidates_of.
  induction SEARCH_QUERIES as [|q qs IH]; simpl; [reflexivity|].
  now rewrite H, IH.
Qed.

End CoverageRun.

(** X8. In the collection a run saves, the records added by the run have
    pairwise distinct duplicate keys, none of them has the key of a stored
    record, and so a store whose keys were distinct stays one. *)
Theorem saved_keys_distinct (json_load : string -> option (list job))
    (w w' : world) (all : list job) (n : nat) :
  search_all json_load w = Return (all, n) w' ->
  exists added,
    all = (map (mark_is_new (today w)) (loaded json_load w) ++ added)%list
    /\ n = length added
    /\ NoDup (map job_key added)
    /\ (forall j j', j ∈ loaded json_load w -> j' ∈ added ->
          job_key j <> job_key j')
    /\ (NoDup (map job_key (loaded json_load w)) -> NoDup (map job_key all)).
Proof.
  intros (Hall & Hn & _)%search_all_Return_eq.
  exists (new_jobs (merged (today w) (indeed w) (loaded json_load w))).
  destruct (merged_covers (today w) (indeed w) (loaded json_load w))
    as (_ & Hnd & Hfor & _).
  assert (Hsep : forall j j', j ∈ loaded json_load w ->
            j' ∈ new_jobs (merged (today w) (indeed w) (loaded json_load w)) ->
            job_key j <> job_key j').
  { intros j j' Hj Hj' Heq.
    apply (proj1 (Forall_forall _ _) Hfor) in Hj' as (_ & Hout & _).
    apply Hout. rewrite <- Heq.
    apply elem_of_list_to_set, list_elem_of_fmap. eauto. }
  repeat split; [exact Hall | exact Hn | exact Hnd | exact Hsep |].
  intros Hst. rewrite Hall. unfold all_jobs_of.
  rewrite map_app, map_job_key_mark. apply NoDup_app.
  repeat split; [exact Hst | | exact Hnd].
  intros k (j & -> & Hj)%list_elem_of_fmap (j' & Hk & Hj')%list_elem_of_fmap.
  exact (Hsep j j' Hj Hj' Hk).
Qed.

Lemma saved_keys_distinct_witness :
  exists added,
    all_jobs_of "01/02/2024" Sample.feed [Sample.stored]
    = (map (mark_is_new (today Sample.w)) (loaded Sample.json_load Sample.w)
       ++ added)%list
    /\ 2%nat = length added
    /\ NoDup (map job_key added)
    /\ (forall j j', j ∈ loaded Sample.json_load Sample.w -> j' ∈ added ->
          job_key j <> job_key j')
    /\ (NoDup (map job_key (loaded Sample.json_load Sample.w)) ->
        NoDup (map job_key
                 (all_jobs_of "01/02/2024" Sample.feed [Sample.stored]))).
Proof.
  apply (saved_keys_distinct Sample.json_load Sample.w
           (put_file DATA_PATH
              (Json.dumps (all_jobs_of "01/02/2024" Sample.feed [Sample.stored]))
              Sample.w)).
  vm_compute. reflexivity.
Defined.

(** X9. The records a run adds are exactly what its candidates call for.
    Each added record was built from a candidate of this run that scored
    at least 70. Conversely a candidate that scores at least 70 has its
    key on a saved record, unless a candidate with the same key scored
    below 70 (a key is marked as seen before it is scored); and when no
    candidate title holds a bar, candidates with one key score alike, so
    every candidate that scores at least 70 has its key on a saved
    record. *)
Theorem accepted_candidates_saved (json_load : string -> option (list job))
    (w w' : world) (all : list job) (n : nat) :
  search_all json_load w = Return (all, n) w' ->
  let cands := candidates (indeed w) in
  (exists added,
     all = (map (mark_is_new (today w)) (loaded json_load w) ++ added)%list
     /\ Forall (built_from (today w) cands) added)
  /\ (forall query r, (query, r) ∈ cands -> 70 <= candidate_score r ->
        (exists j, j ∈ all /\ job_key j = candidate_key r)
        \/ (exists query' r', (query', r') ∈ cands
                              /\ candidate_key r' = candidate_key r
                              /\ candidate_score r' < 70))
  /\ (bar_free cands = true ->
      forall query r, (query, r) ∈ cands -> 70 <= candidate_score r ->
        exists j, j ∈ all /\ job_key j = candidate_key r).
Proof.
  intros (Hall & _ & _)%search_all_Return_eq. cbv zeta.
  destruct (merged_covers (today w) (indeed w) (loaded json_load w))
    as (_ & _ & Hfor & Hkeys & Hseen).
  assert (Hcov : forall query r, (query, r) ∈ candidates (indeed w) ->
            (exists j, j ∈ all /\ job_key j = candidate_key r)
            \/ (exists query' r', (query', r') ∈ candidates (indeed w)
                                  /\ candidate_key r' = candidate_key r
                                  /\ candidate_score r' < 70)).
  { intros q r Hin.
    destruct (Hkeys _ (Hseen q r Hin)) as [Hk|[(j & Hj & Hk)|Hk]].
    - left. rewrite Hall. apply stored_key_saved.
      now apply elem_of_list_to_set in Hk.
    - left. exists j. split; [|exact Hk]. rewrite Hall.
      unfold all_jobs_of. apply elem_of_app. now right.
    - now right. }
  split; [|split].
  - exists (new_jobs (merged (today w) (indeed w) (loaded json_load w))).
    split; [exact Hall|].
    eapply Forall_impl; [exact Hfor|]. now intros j (_ & _ & H).
  - intros q r Hin _. exact (Hcov q r Hin).
  - intros Hbar q r Hin Hge.
    destruct (Hcov q r Hin) as [H|(q' & r' & Hin' & Hk & Hlow)]; [exact H|].
    exfalso.
    assert (Hfree : forall q0 r0, (q0, r0) ∈ candidates (indeed w) ->
              occurs bar (r_title r0) = false).
    { intros q0 r0 H0. apply list_elem_of_In in H0.
      apply (proj1 (forallb_forall _ _) Hbar) in H0.
      now apply negb_true_iff in H0. }
    rewrite (same_key_same_score r' r (Hfree _ _ Hin') (Hfree _ _ Hin) Hk) in Hlow.
    lia.
Qed.

Lemma accepted_candidates_saved_witness :
  let all := all_jobs_of "01/02/2024" Sample.feed [Sample.stored] in
  let cands := candidates (indeed Sample.w) in
  (exists added,
     all = (map (mark_is_new (today Sample.w))
              (loaded Sample.json_load Sample.w) ++ added)%list
     /\ Forall (built_from (today Sample.w) cands) added)
  /\ (forall query r, (query, r) ∈ cands -> 70 <= candidate_score r ->
        (exists j, j ∈ all /\ job_key j = candidate_key r)
        \/ (exists query' r', (query', r') ∈ cands
                              /\ candidate_key r' = candidate_key r
                              /\ candidate_score r' < 70))
  /\ (bar_free cands = true ->
      forall query r, (query, r) ∈ cands -> 70 <= candidate_score r ->
        exists j, j ∈ all /\ job_key j = candidate_key r).
Proof.
  apply (accepted_candidates_saved Sample.json_load Sample.w
           (put_file DATA_PATH
              (Json.dumps (all_jobs_of "01/02/2024" Sample.feed [Sample.stored]))
              Sample.w) _ 2%nat).
  vm_compute. reflexivity.
Defined.

(** X10. On a day when every search fails or finds nothing the run still
    rewrites the data file: it saves the stored records, with [isNew]
    recomputed, and reports no new record; without readable stored data
    it saves the empty array. *)
Theorem search_all_silent_feed (json_load : string -> option (list job))
    (w : world) :
  (forall query, indeed w query = []) ->
  data_writable w = true ->
  (forallb key_typed (loaded json_load w) = true ->
   forallb id_typed (loaded json_load w) = true ->
   search_all json_load w
   = Return (map (mark_is_new (today w)) (loaded json_load w), 0%nat)
       (put_file DATA_PATH
          (Json.dumps (map (mark_is_new (today w)) (loaded json_load w))) w))
  /\ (loaded json_load w = [] ->
      search_all json_load w = Return ([], 0%nat) (put_file DATA_PATH "[]" w)).
Proof.
  intros Hfeed Hw.
  assert (Hall : all_jobs_of (today w) (indeed w) (loaded json_load w)
                 = map (mark_is_new (today w)) (loaded json_load w)).
  { unfold all_jobs_of, merged. rewrite (candidates_silent _ Hfeed).
    simpl. apply app_nil_r. }
  assert (Hnew : new_jobs (merged (today w) (indeed w) (loaded json_load w)) = []).
  { unfold merged. now rewrite (candidates_silent _ Hfeed). }
  split.
  - intros Hk Hi. rewrite (search_all_returns json_load w Hk Hi Hw).
    now rewrite Hall, Hnew.
  - intros Hempty.
    rewrite (search_all_returns json_load w);
      [|now rewrite Hempty|now rewrite Hempty|exact Hw].
    rewrite Hall, Hnew, Hempty. reflexivity.
Qed.

Lemma search_all_silent_feed_witness :
  search_all Sample.json_load Cases.w_silent
  = Return (map (mark_is_new "01/02/2024") [Sample.stored], 0%nat)
      (put_file DATA_PATH
         (Json.dumps (map (mark_is_new "01/02/2024") [Sample.stored]))
         Cases.w_silent).
Proof.
  apply (proj1 (search_all_silent_feed Sample.json_load Cases.w_silent
                  ltac:(reflexivity) ltac:(reflexivity)));
    reflexivity.
Defined.

(** * The publisher *)

(** ** The shape of the JSON text *)

(** A property of texts that is kept by concatenation, holds of the
    characters [json.dumps] writes between strings, and holds of each
    escaped character with that character's summary, holds of the JSON
    text of a collection with the collection's summary. *)
Section DumpsShape.

Context {F : Type} (op : F -> F -> F) (e : F) (flag : ascii -> F).
Variable P : string -> F -> Prop.

Hypothesis op_assoc : forall x y z, op x (op y z) = op (op x y) z.
Hypothesis op_e_l : forall x, op e x = x.
Hypothesis op_e_r : forall x, op x e = x.
Hypothesis P_nil : P "" e.
Hypothesis P_app : forall a x b y, P a x -> P b y -> P (a ++ b) (op x y).
Hypothesis P_char : forall c, neutral c = true -> P (String c "") e.
Hypothesis P_escape : forall c, P (Json.escape_char c) (flag c).

Lemma P_lit s : every neutral s = true -> P s e.
Proof.
  induction s as [|c s IH]; [intros _; exact P_nil|].
  intros [Hc Hs]%andb_prop.
  rewrite <- (op_e_l e).
  exact (P_app (String c "") e s e (P_char c Hc) (IH Hs)).
Qed.

Lemma P_app_lit_l a b y : every neutral a = true -> P b y -> P (a ++ b) y.
Proof. intros Ha Hb. rewrite <- (op_e_l y). apply P_app; [now apply P_lit | exact Hb]. Qed.

Lemma P_app_lit_r a x b : P a x -> every neutral b = true -> P (a ++ b) x.
Proof. intros Ha Hb. rewrite <- (op_e_r x). apply P_app; [exact Ha | now apply P_lit]. Qed.

Lemma P_escaped s : P (Json.escape s) (fold_string op e flag s).
Proof.
  induction s as [|c s IH]; [exact P_nil|].
  exact (P_app _ _ _ _ (P_escape c) IH).
Qed.

Lemma P_dump_string s : P (Json.dump_string s) (fold_string op e flag s).
Proof.
  unfold Json.dump_string.
  apply P_app_lit_l; [reflexivity|]. apply P_app_lit_r; [|reflexivity].
  apply P_escaped.
Qed.

Lemma uint_neutral d : every neutral (NilEmpty.string_of_uint d) = true.
Proof. induction d; simpl; auto. Qed.

Lemma dump_int_neutral n : every neutral (Json.dump_int n) = true.
Proof.
  unfold Json.dump_int.
  destruct (Z.to_int n) as [d|d]; destruct d; try reflexivity;
    simpl; apply uint_neutral.
Qed.

Lemma P_dump_value v : P (Json.dump_value v) (fold_value op e flag v).
Proof.
  destruct v as [|[]|n|s]; simpl; try (apply P_lit; reflexivity).
  - apply P_lit, dump_int_neutral.
  - apply P_dump_string.
Qed.

Lemma spaces_neutral n : every neutral (Json.spaces n) = true.
Proof. induction n as [|n IH]; [reflexivity | exact IH]. Qed.

Lemma every_app f a b : every f (a ++ b) = every f a && every f b.
Proof.
  induction a as [|c a IH]; [reflexivity|].
  change (every f (String c (a ++ b)) = every f (String c a) && every f b).
  simpl. now rewrite IH, andb_assoc.
Qed.

Lemma P_joined {A : Type} (g : A -> string) (h : A -> F) sep xs acc b :
  every neutral sep = true -> (forall x, P (g x) (h x)) -> P acc b ->
  P (fold_left (fun acc y => acc ++ sep ++ y) (map g xs) acc)
    (op b (foldr (fun x r => op (h x) r) e xs)).
Proof.
  intros Hsep Hg. revert acc b.
  induction xs as [|x xs IH]; intros acc b Hacc; simpl.
  - now rewrite op_e_r.
  - rewrite op_assoc. apply IH. apply P_app; [exact Hacc|].
    apply P_app_lit_l; [exact Hsep | apply Hg].
Qed.

Lemma P_join {A : Type} (g : A -> string) (h : A -> F) sep xs :
  every neutral sep = true -> (forall x, P (g x) (h x)) ->
  P (Json.join sep (map g xs)) (foldr (fun x r => op (h x) r) e xs).
Proof.
  intros Hsep Hg. destruct xs as [|x xs]; [exact P_nil|].
  simpl. apply P_joined; auto.
Qed.

(** A container is its two brackets around an inner text. *)
Lemma P_block {A : Type} (g : A -> string) (h : A -> F) o c level xs :
  (forall x, P (g x) (h x)) ->
  exists inner,
    Json.block o c level (map g xs) = o ++ inner ++ c
    /\ P inner (foldr (fun x r => op (h x) r) e xs).
Proof.
  intros Hg. destruct xs as [|x xs].
  - exists "". split; [reflexivity | exact P_nil].
  - exists (Json.nl ++ Json.spaces (2 * (level + 1))
            ++ Json.join ("," ++ Json.nl ++ Json.spaces (2 * (level + 1)))
                 (map g (x :: xs))
            ++ Json.nl ++ Json.spaces (2 * level)).
    split.
    + unfold Json.block. cbn [map]. now rewrite !str_app_assoc.
    + apply P_app_lit_l; [reflexivity|].
      apply P_app_lit_l; [apply spaces_neutral|].
      apply P_app_lit_r.
      * apply P_join; [|exact Hg].
        change (every neutral
                  (String "," (String (ascii_of_N 10)
                     (Json.spaces (2 * (level + 1))))) = true).
        apply spaces_neutral.
      * rewrite every_app. now rewrite spaces_neutral.
Qed.

Lemma P_dump_object level j :
  P (Json.dump_object level j) (fold_job op e flag j).
Proof.
  unfold Json.dump_object, fold_job.
  destruct (P_block
              (fun kv : string * value =>
                 Json.dump_string (fst kv) ++ ": " ++ Json.dump_value (snd kv))
              (fun kv => op (fold_string op e flag (fst kv))
                            (fold_value op e flag (snd kv)))
              "{" "}" level j) as (inner & -> & Hinner).
  - intros [k v]. apply P_app; [apply P_dump_string|].
    apply P_app_lit_l; [reflexivity | apply P_dump_value].
  - apply P_app_lit_l; [reflexivity|]. now apply P_app_lit_r.
Qed.

(** The JSON text of a collection is a pair of square brackets around an
    inner text that has the property. *)
Lemma P_dumps jobs :
  exists inner,
    Json.dumps jobs = "[" ++ inner ++ "]"
    /\ P inner (fold_jobs op e flag jobs).
Proof.
  unfold Json.dumps, fold_jobs.
  apply (P_block (Json.dump_object 1) (fold_job op e flag)).
  intros j. apply P_dump_object.
Qed.

End DumpsShape.

(** ** The template parser on the JSON text *)

Section TemplateFacts.

Import Template.

Lemma scan_app st a b :
  scan st (a ++ b)
  = match scan st a with
    | None => None
    | Some (st', ps) =>
        match scan st' b with
        | None => None
        | Some (st'', ps') => Some (st'', (ps ++ ps')%list)
        end
    end.
Proof.
  revert st. induction a as [|c a IH]; intros st.
  - change ("" ++ b) with b. simpl. now destruct (scan st b) as [[]|].
  - change (String c a ++ b) with (String c (a ++ b)). simpl.
    destruct (Re.step st c) as [[st' done]|]; [|reflexivity].
    rewrite IH. destruct (scan st' a) as [[st'' ps]|]; [|reflexivity].
    destruct (scan st'' b) as [[st3 ps']|]; [|reflexivity].
    now rewrite app_assoc.
Qed.

(** The parser is the scan followed by the check of the last state. *)
Lemma parse_from_scan st t :
  Re.parse_from st t
  = match scan st t with
    | None => None
    | Some (st', ps) =>
        match Re.finish st' with
        | None => None
        | Some rest => Some (ps ++ rest)%list
        end
    end.
Proof.
  revert st. induction t as [|c t IH]; intros st; simpl.
  - now destruct (Re.finish st).
  - destruct (Re.step st c) as [[st' done]|]; [|reflexivity].
    rewrite IH. destruct (scan st' t) as [[st'' ps]|]; [|reflexivity].
    destruct (Re.finish st''); [|reflexivity]. now rewrite app_assoc.
Qed.

Lemma expand_app ps ps' m :
  Re.expand (ps ++ ps') m = Re.expand ps m ++ Re.expand ps' m.
Proof.
  induction ps as [|[s|] ps IH]; [reflexivity|..]; simpl;
    now rewrite IH, str_app_assoc.
Qed.

Lemma worse_assoc x y z : worse x (worse y z) = worse (worse x y) z.
Proof. now destruct x, y, z. Qed.

Lemma worse_Exact_l x : worse Exact x = x.
Proof. now destruct x. Qed.

Lemma worse_Exact_r x : worse x Exact = x.
Proof. now destruct x. Qed.

Lemma fares_nil : fares "" Exact.
Proof. exists []. split; reflexivity. Qed.

(** A text that scans to the end in plain state, with the length it
    expands to. *)
Lemma fares_scans s f :
  fares s f -> f <> Rejected ->
  exists ps, scan Re.Plain s = Some (Re.Plain, ps)
    /\ (f = Exact -> forall m, Re.expand ps m = s)
    /\ (forall m, (String.length (Re.expand ps m) <= String.length s)%nat)
    /\ (f = Lossy ->
        forall m, (String.length (Re.expand ps m) < String.length s)%nat).
Proof.
  destruct f; simpl; [| |contradiction]; intros (ps & Hs & Hm) _; exists ps;
    (split; [exact Hs|]); repeat split; try discriminate; auto.
  - intros m. now rewrite Hm.
  - intros m. specialize (Hm m). lia.
Qed.

Lemma fares_app a x b y : fares a x -> fares b y -> fares (a ++ b) (worse x y).
Proof.
  intros Ha Hb.
  destruct (fate_eq_dec x Rejected) as [->|Hx].
  { simpl in *. now rewrite scan_app, Ha. }
  destruct (fares_scans a x Ha Hx) as (pa & Hsa & Hea & Hla & Hlta).
  destruct (fate_eq_dec y Rejected) as [->|Hy].
  { simpl in Hb. replace (worse x Rejected) with Rejected by now destruct x.
    simpl. now rewrite scan_app, Hsa, Hb. }
  destruct (fares_scans b y Hb Hy) as (pb & Hsb & Heb & Hlb & Hltb).
  assert (Hs : scan Re.Plain (a ++ b) = Some (Re.Plain, (pa ++ pb)%list))
    by now rewrite scan_app, Hsa, Hsb.
  destruct x, y; try contradiction; simpl; exists (pa ++ pb)%list;
    (split; [exact Hs|]); intros m; rewrite expand_app.
  - now rewrite Hea, Heb.
  - rewrite !str_length_app. specialize (Hla m). specialize (Hltb eq_refl m). lia.
  - rewrite !str_length_app. specialize (Hlb m). specialize (Hlta eq_refl m). lia.
  - rewrite !str_length_app. specialize (Hlb m). specialize (Hlta eq_refl m). lia.
Qed.

Lemma fares_char c : neutral c = true -> fares (String c "") Exact.
Proof.
  destruct c as [[] [] [] [] [] [] [] []]; intros H;
    try discriminate H; eexists; split; reflexivity.
Qed.

Lemma fares_escape c : fares (Json.escape_char c) (char_fate c).
Proof.
  destruct c as [[] [] [] [] [] [] [] []];
    first [ reflexivity
          | eexists; split; [reflexivity|]; intros m;
            first [reflexivity | simpl; lia] ].
Qed.

(** The replacement text fares as the worst of the characters in the
    collection's keys and string values. *)
Lemma replacement_fares jobs : fares (replacement jobs) (text_fate jobs).
Proof.
  destruct (P_dumps worse Exact char_fate fares worse_assoc worse_Exact_l
              worse_Exact_r fares_nil fares_app fares_char fares_escape jobs)
    as (inner & Hd & Hinner).
  unfold replacement. rewrite Hd, !str_app_assoc.
  rewrite <- (worse_Exact_l (text_fate jobs)).
  apply (fares_app "const JOBS = " Exact); [eexists; split; reflexivity|].
  rewrite <- (worse_Exact_l (text_fate jobs)).
  apply (fares_app "[" Exact); [eexists; split; reflexivity|].
  rewrite <- (worse_Exact_r (text_fate jobs)).
  apply (fares_app inner _ ("]" ++ ";") Exact); [exact Hinner|].
  eexists; split; reflexivity.
Qed.

(** What [re.sub] makes of the replacement. *)
Lemma parse_replacement jobs :
  match text_fate jobs with
  | Rejected => Re.parse_template (replacement jobs) = None
  | Lossy =>
      exists ps, Re.parse_template (replacement jobs) = Some ps
        /\ forall m, (String.length (Re.expand ps m)
                      < String.length (replacement jobs))%nat
  | Exact =>
      exists ps, Re.parse_template (replacement jobs) = Some ps
        /\ forall m, Re.expand ps m = replacement jobs
  end.
Proof.
  pose proof (replacement_fares jobs) as H.
  unfold Re.parse_template. rewrite parse_from_scan.
  destruct (text_fate jobs).
  - destruct H as (ps & Hs & Hm). rewrite Hs. exists ps.
    cbn [Re.finish]. now rewrite app_nil_r.
  - destruct H as (ps & Hs & Hm). rewrite Hs. exists ps.
    cbn [Re.finish]. now rewrite app_nil_r.
  - unfold fares in H. now rewrite H.
Qed.

End TemplateFacts.

(** ** The publisher's outcomes *)

Section PublisherRun.

Import Template.

(** The whole of [rebuild_dashboard] in one equation. *)
Lemma rebuild_dashboard_run jobs w :
  rebuild_dashboard jobs w
  = match dashboard_file w with
    | Absent => Return false w
    | Unreadable => Raise OSError w
    | Undecodable => Raise UnicodeDecodeError w
    | Text html =>
        match Re.parse_template (replacement jobs) with
        | None => Raise ReError w
        | Some ps =>
            let new_html := Re.sub_loop (String.length html) ps html in
            if String.eqb new_html html then Return false w
            else if dashboard_writable w
                 then Return true (put_file DASHBOARD_PATH new_html w)
                 else Raise OSError w
        end
    end.
Proof.
  unfold rebuild_dashboard, replacement.
  unfold bind at 1, path_exists. simpl.
  destruct (dashboard_file w) as [| | |html] eqn:Hf; cbn [negb];
    [reflexivity| | |].
  - unfold bind at 1, read_text. simpl. now rewrite Hf.
  - unfold bind at 1, read_text. simpl. now rewrite Hf.
  - unfold bind at 1, read_text. simpl. rewrite Hf.
    unfold bind at 1, Re.sub.
    destruct (Re.parse_template ("const JOBS = " ++ Json.dumps jobs ++ ";"))
      as [ps|]; [|reflexivity].
    unfold ret at 1. cbv zeta.
    destruct (String.eqb (Re.sub_loop (String.length html) ps html) html);
      [reflexivity|].
    unfold bind, write_text, writable_at.
    destruct (dashboard_writable w) eqn:Hw; [|reflexivity].
    unfold ret. f_equal. simpl. now rewrite Hw.
Qed.

Lemma first_match_correct s before matched after :
  Re.first_match s = Some (before, matched, after) ->
  s = before ++ matched ++ after.
Proof.
  unfold Re.first_match.
  destruct (Re.split_at Re.opening s) as [[b rest]|] eqn:Ho; [|discriminate].
  destruct (Re.split_at Re.closing rest) as [[inner a]|] eqn:Hc; [|discriminate].
  intros [= <- <- <-]. apply split_at_correct in Ho, Hc. subst rest s.
  now rewrite !str_app_assoc.
Qed.

(** With one match in the text, [re.sub] replaces that match. *)
Lemma sub_loop_single ps html a m c :
  Re.first_match html = Some (a, m, c) -> Re.first_match c = None ->
  Re.sub_loop (String.length html) ps html = a ++ Re.expand ps m ++ c.
Proof.
  intros Hm Hc. rewrite sub_loop_unfold, Hm.
  destruct (String.length c); simpl; now rewrite ?Hc.
Qed.

(** With one block in the document and a replacement that comes out as
    written, the publisher splices the replacement in place of the
    block. *)
Lemma rebuild_dashboard_exact jobs w html a m c :
  dashboard_file w = Text html ->
  Re.first_match html = Some (a, m, c) ->
  Re.first_match c = None ->
  text_fate jobs = Exact ->
  rebuild_dashboard jobs w
  = let new_html := a ++ replacement jobs ++ c in
    if String.eqb new_html html then Return false w
    else if dashboard_writable w
         then Return true (put_file DASHBOARD_PATH new_html w)
         else Raise OSError w.
Proof.
  intros Hf Hm Hc Hfate.
  rewrite rebuild_dashboard_run, Hf.
  pose proof (parse_replacement jobs) as Hp. rewrite Hfate in Hp.
  destruct Hp as (ps & -> & Hexp). cbv zeta.
  now rewrite (sub_loop_single ps html a m c Hm Hc), Hexp.
Qed.

(** The ways the publisher ends. *)
Lemma rebuild_dashboard_cases jobs w :
  rebuild_dashboard jobs w = Return false w
  \/ (exists t, rebuild_dashboard jobs w
                = Return true (put_file DASHBOARD_PATH t w))
  \/ rebuild_dashboard jobs w = Raise OSError w
  \/ rebuild_dashboard jobs w = Raise UnicodeDecodeError w
  \/ rebuild_dashboard jobs w = Raise ReError w.
Proof.
  rewrite rebuild_dashboard_run.
  destruct (dashboard_file w) as [| | |html]; [auto 6..|].
  destruct (Re.parse_template (replacement jobs)) as [ps|]; [|auto 6].
  cbv zeta.
  destruct (String.eqb (Re.sub_loop (String.length html) ps html) html);
    [auto|].
  destruct (dashboard_writable w); [|auto]. right; left. eauto.
Qed.

(** Whether a text starts with [n] is decided by its first characters. *)
Lemma prefix_indep n u v :
  (String.length n <= String.length u)%nat ->
  String.prefix n (u ++ v) = String.prefix n u.
Proof.
  revert u. induction n as [|d n IH]; intros u Hlen.
  - now destruct u, v.
  - destruct u as [|c u]; [simpl in Hlen; lia|].
    change (String c u ++ v) with (String c (u ++ v)).
    rewrite !prefix_cons. destruct (ascii_dec d c); [|reflexivity].
    apply IH. simpl in Hlen. lia.
Qed.

(** Where the first occurrence of [n] starts does not depend on what
    follows it. *)
Lemma split_at_indep n a rest rest' :
  Re.split_at n (a ++ n ++ rest) = Some (a, rest) ->
  Re.split_at n (a ++ n ++ rest') = Some (a, rest').
Proof.
  induction a as [|c a IH].
  - intros _. change ("" ++ n ++ rest') with (n ++ rest').
    now rewrite split_at_unfold, prefix_app, skip_app.
  - change (String c a ++ n ++ rest) with (String c (a ++ n ++ rest)).
    change (String c a ++ n ++ rest') with (String c (a ++ n ++ rest')).
    rewrite (split_at_unfold n (String c (a ++ n ++ rest))).
    rewrite (split_at_unfold n (String c (a ++ n ++ rest'))).
    assert (Hp : forall r, String.prefix n (String c (a ++ n ++ r))
                           = String.prefix n (String c a ++ n)).
    { intros r. change (String c (a ++ n ++ r)) with (String c a ++ n ++ r).
      rewrite <- str_app_assoc. apply prefix_indep.
      rewrite str_length_app. lia. }
    rewrite !Hp. destruct (String.prefix n (String c a ++ n)); [discriminate|].
    destruct (Re.split_at n (a ++ n ++ rest)) as [[b r]|] eqn:E; [|discriminate].
    intros [= -> ->]. now rewrite (IH eq_refl).
Qed.

(** The closing text is first found behind a text without a bracket. *)
Lemma split_at_closing inner rest :
  occurs "]" inner = false ->
  Re.split_at Re.closing (inner ++ Re.closing ++ rest) = Some (inner, rest).
Proof.
  induction inner as [|c inner IH]; intros H.
  - change ("" ++ Re.closing ++ rest) with (Re.closing ++ rest).
    now rewrite split_at_unfold, prefix_app, skip_app.
  - cbn [occurs] in H. apply orb_false_elim in H as [Hc H].
    change (String c inner ++ Re.closing ++ rest)
      with (String c (inner ++ Re.closing ++ rest)).
    rewrite split_at_unfold. unfold Re.closing at 1. rewrite prefix_cons.
    destruct (ascii_dec "]" c) as [<-|_]; [discriminate Hc|].
    now rewrite (IH H).
Qed.

(** The JSON text of a collection: square brackets around a text that
    holds a closing bracket only when a key or a string value does. *)
Lemma dumps_inner jobs :
  exists inner,
    Json.dumps jobs = "[" ++ inner ++ "]"
    /\ occurs "]" inner = has_bracket jobs.
Proof.
  apply (P_dumps orb false (fun c => Ascii.eqb c "]")
           (fun s b => occurs "]" s = b)).
  - intros x y z. apply orb_assoc.
  - reflexivity.
  - apply orb_false_r.
  - reflexivity.
  - intros a x b y <- <-. apply occurs_app.
  - intros c. destruct c as [[] [] [] [] [] [] [] []]; intros H;
      try discriminate H; reflexivity.
  - intros c. destruct c as [[] [] [] [] [] [] [] []]; reflexivity.
Qed.

(** The JSON text of a collection is plain ASCII. *)
Lemma dumps_plain_ascii jobs : every plain_ascii (Json.dumps jobs) = true.
Proof.
  destruct (P_dumps (fun _ _ => tt) tt (fun _ => tt)
              (fun s _ => every plain_ascii s = true)) with (jobs := jobs)
    as (inner & -> & Hin).
  - reflexivity.
  - now intros [].
  - now intros [].
  - reflexivity.
  - intros a _ b _ Ha Hb. now rewrite every_app, Ha, Hb.
  - intros c. destruct c as [[] [] [] [] [] [] [] []]; intros H;
      try discriminate H; reflexivity.
  - intros c. destruct c as [[] [] [] [] [] [] [] []]; reflexivity.
  - change (every plain_ascii (inner ++ "]") = true).
    now rewrite every_app, Hin.
Qed.

(** The document the publisher writes holds one block again, between the
    same two texts. *)
Lemma first_match_published jobs html a m c :
  Re.first_match html = Some (a, m, c) ->
  has_bracket jobs = false ->
  Re.first_match (a ++ replacement jobs ++ c)
  = Some (a, replacement jobs, c).
Proof.
  intros Hm Hb.
  destruct (dumps_inner jobs) as (inner & Hd & Hin). rewrite Hb in Hin.
  assert (Hr : replacement jobs = Re.opening ++ inner ++ Re.closing).
  { unfold replacement. rewrite Hd. cbn. now rewrite !str_app_assoc. }
  unfold Re.first_match in Hm.
  destruct (Re.split_at Re.opening html) as [[b rest]|] eqn:Ho; [|discriminate].
  destruct (Re.split_at Re.closing rest) as [[i c']|]; [|discriminate].
  injection Hm as -> _ _.
  pose proof (split_at_correct _ _ _ _ Ho) as Hhtml. rewrite Hhtml in Ho.
  rewrite Hr, !str_app_assoc. unfold Re.first_match.
  rewrite (split_at_indep _ _ _ (inner ++ Re.closing ++ c) Ho).
  now rewrite (split_at_closing inner c Hin).
Qed.

End PublisherRun.

(** X11. With a readable dashboard the publisher raises [re.error]
    exactly when some key or string value of the collection holds a
    character that [json.dumps] writes as a [\u] escape: a control
    character other than backspace, tab, newline, form feed and carriage
    return, or a character from U+007F upwards. Whether the document has
    a [const JOBS] block does not matter, and nothing is written. *)
Theorem rebuild_dashboard_rejects_iff (jobs : list job) (w : world)
    (html : string) :
  dashboard_file w = Text html ->
  (text_fate jobs = Rejected -> rebuild_dashboard jobs w = Raise ReError w)
  /\ (forall w', rebuild_dashboard jobs w = Raise ReError w' ->
        text_fate jobs = Rejected /\ w' = w).
Proof.
  intros Hf. rewrite rebuild_dashboard_run, Hf.
  pose proof (parse_replacement jobs) as Hp.
  destruct (text_fate jobs).
  - destruct Hp as (ps & -> & _). cbv zeta. split; [discriminate|].
    intros w'. destruct (String.eqb _ html); [discriminate|].
    destruct (dashboard_writable w); discriminate.
  - destruct Hp as (ps & -> & _). cbv zeta. split; [discriminate|].
    intros w'. destruct (String.eqb _ html); [discriminate|].
    destruct (dashboard_writable w); discriminate.
  - rewrite Hp. split; [reflexivity|]. now intros w' [= <-].
Qed.

Lemma rebuild_dashboard_rejects_iff_witness :
  (text_fate [Cases.accented] = Rejected ->
   rebuild_dashboard [Cases.accented] Sample.w = Raise ReError Sample.w)
  /\ (forall w', rebuild_dashboard [Cases.accented] Sample.w = Raise ReError w' ->
        text_fate [Cases.accented] = Rejected /\ w' = Sample.w).
Proof.
  apply (rebuild_dashboard_rejects_iff [Cases.accented] Sample.w
           "<html><script>const JOBS = [];</script></html>").
  reflexivity.
Defined.

(** X12. Let the dashboard hold one [const JOBS = [...];] block, [m],
    between the texts [a] and [c], and let every character of the
    collection's keys and string values be printable ASCII other than the
    backslash. Then the publisher computes [a], the text
    [const JOBS = <json>;] and [c]; when that is the document as it
    stands it writes nothing and returns [False], otherwise it writes it
    and returns [True], or raises [OSError] when the document cannot be
    written. *)
Theorem rebuild_dashboard_splices (jobs : list job) (w : world)
    (html a m c : string) :
  dashboard_file w = Text html ->
  Re.first_match html = Some (a, m, c) ->
  Re.first_match c = None ->
  text_fate jobs = Exact ->
  html = a ++ m ++ c
  /\ rebuild_dashboard jobs w
     = let new_html := a ++ Template.replacement jobs ++ c in
       if String.eqb new_html html then Return false w
       else if dashboard_writable w
            then Return true (put_file DASHBOARD_PATH new_html w)
            else Raise OSError w.
Proof.
  intros Hf Hm Hc Hfate. split; [now apply first_match_correct|].
  exact (rebuild_dashboard_exact jobs w html a m c Hf Hm Hc Hfate).
Qed.

Lemma rebuild_dashboard_splices_witness :
  "<html><script>const JOBS = [];</script></html>"
  = "<html><script>" ++ "const JOBS = [];" ++ "</script></html>"
  /\ rebuild_dashboard [Sample.stored] Sample.w
     = let new_html := "<html><script>" ++ Template.replacement [Sample.stored]
                       ++ "</script></html>" in
       if String.eqb new_html "<html><script>const JOBS = [];</script></html>"
       then Return false Sample.w
       else if dashboard_writable Sample.w
            then Return true (put_file DASHBOARD_PATH new_html Sample.w)
            else Raise OSError Sample.w.
Proof.
  apply (rebuild_dashboard_splices [Sample.stored] Sample.w
           "<html><script>const JOBS = [];</script></html>"
           "<html><script>" "const JOBS = [];" "</script></html>");
    reflexivity.
Defined.

(** X13. When a key or string value holds a backslash, a backspace, a
    tab, a newline, a form feed or a carriage return (and nothing that is
    rejected), the document does not receive the JSON text of the
    collection: the template parser resolves the escapes [json.dumps]
    wrote, and what is spliced in place of the block is shorter than
    [const JOBS = <json>;]. *)
Theorem rebuild_dashboard_resolves_escapes (jobs : list job) (w : world)
    (html a m c : string) :
  dashboard_file w = Text html ->
  Re.first_match html = Some (a, m, c) ->
  Re.first_match c = None ->
  text_fate jobs = Lossy ->
  exists spliced,
    (String.length spliced < String.length (Template.replacement jobs))%nat
    /\ spliced <> Template.replacement jobs
    /\ rebuild_dashboard jobs w
       = if String.eqb (a ++ spliced ++ c) html then Return false w
         else if dashboard_writable w
              then Return true (put_file DASHBOARD_PATH (a ++ spliced ++ c) w)
              else Raise OSError w.
Proof.
  intros Hf Hm Hc Hfate.
  pose proof (parse_replacement jobs) as Hp. rewrite Hfate in Hp.
  destruct Hp as (ps & Hps & Hexp).
  exists (Re.expand ps m). split; [apply Hexp|]. split.
  - intros Heq. specialize (Hexp m). rewrite Heq in Hexp. lia.
  - rewrite rebuild_dashboard_run, Hf, Hps. cbv zeta.
    now rewrite (sub_loop_single ps html a m c Hm Hc).
Qed.

Lemma rebuild_dashboard_resolves_escapes_witness :
  exists spliced,
    (String.length spliced
     < String.length (Template.replacement [Cases.slashed]))%nat
    /\ spliced <> Template.replacement [Cases.slashed]
    /\ rebuild_dashboard [Cases.slashed] Sample.w
       = if String.eqb ("<html><script>" ++ spliced ++ "</script></html>")
              "<html><script>const JOBS = [];</script></html>"
         then Return false Sample.w
         else if dashboard_writable Sample.w
              then Return true
                     (put_file DASHBOARD_PATH
                        ("<html><script>" ++ spliced ++ "</script></html>")
                        Sample.w)
              else Raise OSError Sample.w.
Proof.
  apply (rebuild_dashboard_resolves_escapes [Cases.slashed] Sample.w
           "<html><script>const JOBS = [];</script></html>"
           "<html><script>" "const JOBS = [];" "</script></html>");
    reflexivity.
Defined.

(** X14. How the publisher ends. Without a dashboard file it returns
    [False] and creates none; a dashboard that cannot be opened raises
    [OSError], one whose bytes do not decode raises [UnicodeDecodeError].
    When it returns [False] the world is as before; when it returns
    [True] the dashboard was writable and has received a text different
    from the one it held, and nothing else has changed. What it raises is
    [OSError], [UnicodeDecodeError] or [re.error]; the last two are
    raised before anything is written, so the world is as before, and
    whatever is raised nothing but the dashboard can have changed. *)
Theorem rebuild_dashboard_outcomes (jobs : list job) (w : world) :
  (dashboard_file w = Absent -> rebuild_dashboard jobs w = Return false w)
  /\ (dashboard_file w = Unreadable ->
      rebuild_dashboard jobs w = Raise OSError w)
  /\ (dashboard_file w = Undecodable ->
      rebuild_dashboard jobs w = Raise UnicodeDecodeError w)
  /\ (forall b w', rebuild_dashboard jobs w = Return b w' ->
        (b = false /\ w' = w)
        \/ (b = true /\ dashboard_writable w = true
            /\ exists html t,
                 dashboard_file w = Text html /\ t <> html
                 /\ w' = put_file DASHBOARD_PATH t w))
  /\ (forall e w', rebuild_dashboard jobs w = Raise e w' ->
        (e = OSError \/ e = UnicodeDecodeError \/ e = ReError)
        /\ (e = UnicodeDecodeError \/ e = ReError -> w' = w)
        /\ (w' = w \/ exists t, w' = put_file DASHBOARD_PATH t w)).
Proof.
  rewrite rebuild_dashboard_run.
  split; [now intros ->|]. split; [now intros ->|]. split; [now intros ->|].
  destruct (dashboard_file w) as [| | |html].
  - split; [intros b w' [= <- <-]; now left | discriminate].
  - split; [discriminate | intros e w' [= <- <-]; auto].
  - split; [discriminate | intros e w' [= <- <-]; auto 6].
  - destruct (Re.parse_template (Template.replacement jobs)) as [ps|].
    + cbv zeta.
      destruct (String.eqb (Re.sub_loop (String.length html) ps html) html)
        eqn:He.
      * split; [intros b w' [= <- <-]; now left | discriminate].
      * destruct (dashboard_writable w).
        -- split; [|discriminate]. intros b w' [= <- <-]. right.
           repeat split. eexists html, _. repeat split.
           intros Heq. rewrite Heq, String.eqb_refl in He. discriminate.
        -- split; [discriminate | intros e w' [= <- <-]; auto].
    + split; [discriminate | intros e w' [= <- <-]; auto 6].
Qed.

(** X15. Publishing the same data twice. Let the dashboard hold one
    block, be writable, and let the keys and string values of the
    collection be printable ASCII without backslash and without a closing
    bracket. Then a call of the publisher returns and leaves the document
    holding [const JOBS = <json>;] in place of the block, and a second
    call with the same collection writes nothing and returns [False],
    the value it also returns when the block is missing. *)
Theorem rebuild_dashboard_twice (jobs : list job) (w : world)
    (html a m c : string) :
  dashboard_file w = Text html ->
  Re.first_match html = Some (a, m, c) ->
  Re.first_match c = None ->
  text_fate jobs = Exact ->
  has_bracket jobs = false ->
  dashboard_writable w = true ->
  exists b w1,
    rebuild_dashboard jobs w = Return b w1
    /\ dashboard_file w1 = Text (a ++ Template.replacement jobs ++ c)
    /\ rebuild_dashboard jobs w1 = Return false w1.
Proof.
  intros Hf Hm Hc Hfate Hb Hw.
  pose proof (rebuild_dashboard_exact jobs w html a m c Hf Hm Hc Hfate) as H1.
  cbv zeta in H1. rewrite Hw in H1.
  destruct (String.eqb (a ++ Template.replacement jobs ++ c) html) eqn:He.
  - apply String.eqb_eq in He. exists false, w.
    split; [exact H1|]. split; [now rewrite He | exact H1].
  - exists true, (put_file DASHBOARD_PATH (a ++ Template.replacement jobs ++ c) w).
    split; [exact H1|]. split; [reflexivity|].
    rewrite (rebuild_dashboard_exact jobs
               (put_file DASHBOARD_PATH (a ++ Template.replacement jobs ++ c) w)
               (a ++ Template.replacement jobs ++ c) a
               (Template.replacement jobs) c eq_refl
               (first_match_published jobs html a m c Hm Hb) Hc Hfate).
    cbv zeta. now rewrite String.eqb_refl.
Qed.

Lemma rebuild_dashboard_twice_witness :
  exists b w1,
    rebuild_dashboard [Sample.stored] Sample.w = Return b w1
    /\ dashboard_file w1
       = Text ("<html><script>" ++ Template.replacement [Sample.stored]
               ++ "</script></html>")
    /\ rebuild_dashboard [Sample.stored] w1 = Return false w1.
Proof.
  apply (rebuild_dashboard_twice [Sample.stored] Sample.w
           "<html><script>const JOBS = [];</script></html>"
           "<html><script>" "const JOBS = [];" "</script></html>");
    reflexivity.
Defined.

(** X16. [main] saves before it publishes. Once [search_all] has
    returned a collection, [main] ends in one of four ways: it returns,
    or it raises [OSError], [UnicodeDecodeError] or [re.error] out of the
    publisher; in each the data file holds the JSON text of the
    collection and nothing else but the dashboard can have changed.
    Whether the push succeeds does not show in how [main] ends. Without a
    dashboard file [main] returns with the data saved; with a dashboard
    whose bytes do not decode it raises [UnicodeDecodeError], and with a
    readable dashboard and a collection the template parser rejects it
    raises [re.error], both with the data saved and the dashboard as it
    was. *)
Theorem main_after_save (json_load : string -> option (list job))
    (w w1 : world) (all : list job) (n : nat) :
  search_all json_load w = Return (all, n) w1 ->
  (exists w2,
     (main json_load w = Return tt w2
      \/ main json_load w = Raise OSError w2
      \/ main json_load w = Raise UnicodeDecodeError w2
      \/ main json_load w = Raise ReError w2)
     /\ data_file w2 = Text (Json.dumps all)
     /\ (w2 = w1 \/ exists t, w2 = put_file DASHBOARD_PATH t w1))
  /\ (dashboard_file w = Absent -> main json_load w = Return tt w1)
  /\ (dashboard_file w = Undecodable ->
      main json_load w = Raise UnicodeDecodeError w1)
  /\ (forall html, dashboard_file w = Text html -> text_fate all = Rejected ->
        main json_load w = Raise ReError w1).
Proof.
  intros Hrun.
  destruct (search_all_Return_eq json_load w all n w1 Hrun) as (_ & _ & Hw1).
  assert (Hdata : data_file w1 = Text (Json.dumps all)) by now rewrite Hw1.
  assert (Hdash : dashboard_file w1 = dashboard_file w) by now rewrite Hw1.
  assert (Hmain : main json_load w
                  = match rebuild_dashboard all w1 with
                    | Return _ w2 => Return tt w2
                    | Raise e w2 => Raise e w2
                    end).
  { unfold main. unfold bind at 1. rewrite Hrun. cbn [fst].
    unfold bind at 1. destruct (rebuild_dashboard all w1); reflexivity. }
  rewrite Hmain. split; [|split; [|split]].
  - destruct (rebuild_dashboard_cases all w1) as [H|[[t H]|[H|[H|H]]]];
      rewrite H.
    + exists w1. auto.
    + exists (put_file DASHBOARD_PATH t w1). split; [auto|]. split; [exact Hdata|].
      right. now exists t.
    + exists w1. auto.
    + exists w1. auto 6.
    + exists w1. auto 6.
  - intros Habs. rewrite rebuild_dashboard_run, Hdash, Habs. reflexivity.
  - intros Hund. rewrite rebuild_dashboard_run, Hdash, Hund. reflexivity.
  - intros html Hf Hfate. rewrite rebuild_dashboard_run, Hdash, Hf.
    pose proof (parse_replacement all) as Hp. rewrite Hfate in Hp.
    now rewrite Hp.
Qed.

Lemma main_after_save_witness :
  let all := all_jobs_of "01/02/2024" Sample.feed [Sample.stored] in
  let w1 := put_file DATA_PATH (Json.dumps all) Sample.w in
  (exists w2,
     (main Sample.json_load Sample.w = Return tt w2
      \/ main Sample.json_load Sample.w = Raise OSError w2
      \/ main Sample.json_load Sample.w = Raise UnicodeDecodeError w2
      \/ main Sample.json_load Sample.w = Raise ReError w2)
     /\ data_file w2 = Text (Json.dumps all)
     /\ (w2 = w1 \/ exists t, w2 = put_file DASHBOARD_PATH t w1))
  /\ (dashboard_file Sample.w = Absent ->
      main Sample.json_load Sample.w = Return tt w1)
  /\ (dashboard_file Sample.w = Undecodable ->
      main Sample.json_load Sample.w = Raise UnicodeDecodeError w1)
  /\ (forall html, dashboard_file Sample.w = Text html ->
        text_fate all = Rejected ->
        main Sample.json_load Sample.w = Raise ReError w1).
Proof.
  apply (main_after_save Sample.json_load Sample.w _ _ 2%nat).
  vm_compute. reflexivity.
Defined.

(** ** More on the scorer and the store *)

Section ScorerInside.

Lemma filtered_sum_ge (P : string * Z -> Prop) `{!forall x, Decision (P x)}
    (kws : list (string * Z)) kp :
  Forall (fun kp => 0 <= snd kp) kws -> In kp kws -> P kp ->
  snd kp <= foldr Z.add 0 (map snd (filter P kws)).
Proof.
  intros Hnn Hin HP. induction Hnn as [|kp' kws Hkp Hnn IH]; [destruct Hin|].
  rewrite filter_cons. destruct Hin as [->|Hin].
  - rewrite decide_True by exact HP. simpl.
    pose proof (filtered_sum_nonneg P kws Hnn). lia.
  - specialize (IH Hin). destruct decide; simpl; lia.
Qed.

Lemma keyword_points_ge keyword points title :
  In (keyword, points) TITLE_KEYWORDS ->
  contains keyword (lower title) = true ->
  points <= keyword_points title.
Proof.
  intros Hin Hc. unfold keyword_points.
  apply (filtered_sum_ge _ TITLE_KEYWORDS (keyword, points) weights_nonneg Hin).
  exact Hc.
Qed.

End ScorerInside.

(** X17. Keywords are matched as substrings of the lowercased title, not
    as words: a title that holds a keyword anywhere, in any letter case,
    inside a longer word or not, gets that keyword's points, so its score
    is at least 40 plus the points (capped at 100). *)
Theorem keywords_match_inside_words (keyword : string) (points : Z)
    (before inside after company location : string) :
  In (keyword, points) TITLE_KEYWORDS ->
  lower inside = keyword ->
  points <= keyword_points (before ++ inside ++ after)
  /\ Z.min 100 (40 + points)
     <= calculate_fit_score (before ++ inside ++ after) company location.
Proof.
  intros Hin Hlow.
  assert (Hp : points <= keyword_points (before ++ inside ++ after)).
  { apply (keyword_points_ge keyword points); [exact Hin|].
    rewrite !lower_app, Hlow. apply contains_app. }
  split; [exact Hp|].
  rewrite calculate_fit_score_spec. unfold spec_fit_score.
  pose proof (company_bonus_range company).
  pose proof (remote_bonus_range (before ++ inside ++ after) location).
  lia.
Qed.

Lemma keywords_match_inside_words_witness :
  8 <= keyword_points ("M" ++ "AI" ++ "NTENANCE LEAD")
  /\ Z.min 100 (40 + 8)
     <= calculate_fit_score ("M" ++ "AI" ++ "NTENANCE LEAD") "Acme" "".
Proof.
  apply (keywords_match_inside_words "ai" 8 "M" "AI" "NTENANCE LEAD" "Acme" "");
    [simpl; tauto | reflexivity].
Defined.

(** X18. The score a new record carries is computed without a location,
    while the record itself says "Remote": scoring the record's title and
    company with the record's own location gives the stored score when
    the title says remote and 5 more (capped at 100) when it does not. A
    candidate that scores 65 to 69 is therefore left out although it
    would pass with the location its record would carry. *)
Theorem saved_score_ignores_location (id : Z) (r : feed_item)
    (query today : string) :
  let j := new_job id r (candidate_score r) query today in
  dict_get j "location" = Some (VStr "Remote")
  /\ dict_get j "score" = Some (VInt (candidate_score r))
  /\ calculate_fit_score (r_title r) (r_company r) "Remote"
     = (if contains "remote" (lower (r_title r)) then candidate_score r
        else Z.min 100 (candidate_score r + 5))
  /\ (65 <= candidate_score r ->
      70 <= calculate_fit_score (r_title r) (r_company r) "Remote"
      \/ contains "remote" (lower (r_title r)) = true).
Proof.
  cbv zeta. split; [reflexivity|]. split; [reflexivity|].
  assert (Heq : calculate_fit_score (r_title r) (r_company r) "Remote"
                = (if contains "remote" (lower (r_title r))
                   then candidate_score r
                   else Z.min 100 (candidate_score r + 5))).
  { unfold candidate_score. rewrite !calculate_fit_score_spec.
    unfold spec_fit_score, remote_bonus.
    change (contains "remote" (lower "Remote")) with true.
    change (contains "remote" (lower "")) with false.
    cbn [orb]. destruct (contains "remote" (lower (r_title r))); lia. }
  split; [exact Heq|].
  intros Hge. rewrite Heq.
  destruct (contains "remote" (lower (r_title r))); [now right|left; lia].
Qed.

(** X19. With two blocks in the document the publisher replaces both:
    [re.sub] is called without a count. *)
Theorem rebuild_dashboard_every_block (jobs : list job) (w : world)
    (html a1 m1 rest a2 m2 c : string) :
  dashboard_file w = Text html ->
  Re.first_match html = Some (a1, m1, rest) ->
  Re.first_match rest = Some (a2, m2, c) ->
  Re.first_match c = None ->
  text_fate jobs = Exact ->
  html = a1 ++ m1 ++ a2 ++ m2 ++ c
  /\ rebuild_dashboard jobs w
     = let new_html := a1 ++ Template.replacement jobs
                       ++ a2 ++ Template.replacement jobs ++ c in
       if String.eqb new_html html then Return false w
       else if dashboard_writable w
            then Return true (put_file DASHBOARD_PATH new_html w)
            else Raise OSError w.
Proof.
  intros Hf H1 H2 Hc Hfate. split.
  - rewrite (first_match_correct _ _ _ _ H1).
    now rewrite (first_match_correct _ _ _ _ H2).
  - rewrite rebuild_dashboard_run, Hf.
    pose proof (parse_replacement jobs) as Hp. rewrite Hfate in Hp.
    destruct Hp as (ps & -> & Hexp). cbv zeta.
    rewrite sub_loop_unfold, H1.
    now rewrite (sub_loop_single ps rest a2 m2 c H2 Hc), !Hexp.
Qed.

Lemma rebuild_dashboard_every_block_witness :
  Cases.two_blocks
  = "<script>" ++ "const JOBS = [];" ++ "</script><script>"
    ++ "const JOBS = [1];" ++ "</script>"
  /\ rebuild_dashboard [Sample.stored]
       (put_file DASHBOARD_PATH Cases.two_blocks Sample.w)
     = let new_html := "<script>" ++ Template.replacement [Sample.stored]
                       ++ "</script><script>"
                       ++ Template.replacement [Sample.stored] ++ "</script>" in
       if String.eqb new_html Cases.two_blocks
       then Return false (put_file DASHBOARD_PATH Cases.two_blocks Sample.w)
       else if dashboard_writable
                 (put_file DASHBOARD_PATH Cases.two_blocks Sample.w)
            then Return true
                   (put_file DASHBOARD_PATH new_html
                      (put_file DASHBOARD_PATH Cases.two_blocks Sample.w))
            else Raise OSError
                   (put_file DASHBOARD_PATH Cases.two_blocks Sample.w).
Proof.
  apply (rebuild_dashboard_every_block [Sample.stored]
           (put_file DASHBOARD_PATH Cases.two_blocks Sample.w)
           Cases.two_blocks
           "<script>" "const JOBS = [];"
           "</script><script>const JOBS = [1];</script>"
           "</script><script>" "const JOBS = [1];" "</script>");
    reflexivity.
Defined.

(** X20. A data file that is there but cannot be read or does not parse
    is not kept: the run starts from the empty collection, numbers its
    records from 101, and overwrites the file with the records it found
    alone. *)
Theorem search_all_overwrites_unread_store
    (json_load : string -> option (list job)) (w : world) :
  data_file w = Unreadable
  \/ (exists text, data_file w = Text text /\ json_load text = None) ->
  data_writable w = true ->
  exists added,
    search_all json_load w
    = Return (added, length added) (put_file DATA_PATH (Json.dumps added) w)
    /\ added = new_jobs (merged (today w) (indeed w) [])
    /\ (forall (i : nat) j, added !! i = Some j ->
          dict_get j "id" = Some (VInt (101 + Z.of_nat i))).
Proof.
  intros Hfile Hw.
  assert (Hl : loaded json_load w = []).
  { unfold loaded. destruct Hfile as [->|(text & -> & ->)]; reflexivity. }
  exists (new_jobs (merged (today w) (indeed w) [])).
  split; [|split; [reflexivity|]].
  - rewrite (search_all_returns json_load w);
      [|now rewrite Hl|now rewrite Hl|exact Hw].
    rewrite Hl. reflexivity.
  - destruct (merged_added (today w) (indeed w) []) as [Hids _].
    exact Hids.
Qed.

Lemma search_all_overwrites_unread_store_witness :
  exists added,
    search_all Sample.json_load Cases.w_garbled
    = Return (added, length added)
        (put_file DATA_PATH (Json.dumps added) Cases.w_garbled)
    /\ added = new_jobs (merged (today Cases.w_garbled)
                           (indeed Cases.w_garbled) [])
    /\ (forall (i : nat) j, added !! i = Some j ->
          dict_get j "id" = Some (VInt (101 + Z.of_nat i))).
Proof.
  apply (search_all_overwrites_unread_store Sample.json_load Cases.w_garbled).
  - right. exists "{not json". split; reflexivity.
  - reflexivity.
Defined.

(** X21. Whatever the feed delivered, the text [json.dumps] produces is
    plain ASCII: printable characters and newlines only. So is the data
    file after every run that returns, and so is the replacement handed
    to [re.sub]. *)
Theorem saved_text_is_ascii :
  (forall jobs, every plain_ascii (Json.dumps jobs) = true)
  /\ (forall jobs, every plain_ascii (Template.replacement jobs) = true)
  /\ (forall json_load w all n w',
        search_all json_load w = Return (all, n) w' ->
        data_file w' = Text (Json.dumps all)
        /\ every plain_ascii (Json.dumps all) = true).
Proof.
  split; [exact dumps_plain_ascii|]. split.
  - intros jobs. unfold Template.replacement.
    change (every plain_ascii (Json.dumps jobs ++ ";") = true).
    now rewrite every_app, dumps_plain_ascii.
  - intros json_load w all n w' (_ & _ & ->)%search_all_Return_eq.
    split; [reflexivity | apply dumps_plain_ascii].
Qed.
